(** * RAOP sink: a shallow embedding of [src/modules/raop/raop-sink.c]

    The sink drives an external RAOP client from two execution contexts:
    the message handler [sink_process_msg] and the I/O loop [thread_func].
    Machine integers are [Z] with the wrap-around written out, the calls
    into the RAOP client, the rtpoll and the message queues are logged as
    a chronological list of [effect]s, and what those collaborators answer
    is supplied by the caller of each function.  *)

From Stdlib Require Import ZArith List Bool Lia String.
Import ListNotations.
Open Scope Z_scope.

(** ** Machine integers *)

Module Int.

Definition modulus64 : Z := 2 ^ 64.
Definition modulus32 : Z := 2 ^ 32.

(** [uint64_t], [pa_usec_t] and (on LP64) [size_t] arithmetic. *)
Definition u64 (z : Z) : Z := z mod modulus64.

(** [uint32_t] arithmetic. *)
Definition u32 (z : Z) : Z := z mod modulus32.

(** Conversion of a 64-bit pattern to [int64_t]. *)
Definition s64 (z : Z) : Z := (z + 2 ^ 63) mod modulus64 - 2 ^ 63.

Definition in_u64 (z : Z) : Prop := 0 <= z < modulus64.

End Int.
Import Int.

(** ** Constants of the headers the file includes *)

(** Modelled from the spec: [PA_USEC_PER_SEC] of pulse/timeval.h, the number
    of microseconds in a second. *)
Definition PA_USEC_PER_SEC : Z := 1000000.

(** Modelled from the spec: [PA_USEC_PER_MSEC] of pulse/timeval.h, which
    converts the configured latency from milliseconds to microseconds. *)
Definition PA_USEC_PER_MSEC : Z := 1000.

Definition UDP_TIMING_PACKET_LOSS_MAX : Z := 30 * PA_USEC_PER_SEC.
Definition UDP_TIMING_PACKET_DISCONNECT_CYCLE : Z := 3.

(** Modelled from the spec: [PA_VOLUME_MUTED] of pulse/volume.h, the mute
    sentinel pushed to the client. *)
Definition PA_VOLUME_MUTED : Z := 0.

(** Modelled from the spec: [RAOP_DEFAULT_LATENCY] of raop-client.h, in
    milliseconds; only its being a constant matters below. *)
Definition RAOP_DEFAULT_LATENCY : Z := 2000.

(** poll(2) and errno(3) values of the Linux ABI. *)
Definition POLLOUT : Z := 4.
Definition POLLERR : Z := 8.
Definition EINTR : Z := 4.
Definition EAGAIN : Z := 11.

(** ** Data model *)

Inductive pa_sink_state_t :=
| PA_SINK_INVALID_STATE
| PA_SINK_RUNNING
| PA_SINK_IDLE
| PA_SINK_SUSPENDED
| PA_SINK_INIT
| PA_SINK_UNLINKED.

Inductive pa_raop_state_t :=
| PA_RAOP_INVALID_STATE
| PA_RAOP_AUTHENTICATED
| PA_RAOP_CONNECTED
| PA_RAOP_RECORDING
| PA_RAOP_DISCONNECTED.

Inductive pa_raop_protocol_t := PA_RAOP_PROTOCOL_TCP | PA_RAOP_PROTOCOL_UDP.
Inductive pa_raop_encryption_t := PA_RAOP_ENCRYPTION_NONE | PA_RAOP_ENCRYPTION_RSA.
Inductive pa_raop_codec_t := PA_RAOP_CODEC_PCM | PA_RAOP_CODEC_ALAC.

Definition sink_state_eqb (a b : pa_sink_state_t) : bool :=
  match a, b with
  | PA_SINK_INVALID_STATE, PA_SINK_INVALID_STATE
  | PA_SINK_RUNNING, PA_SINK_RUNNING
  | PA_SINK_IDLE, PA_SINK_IDLE
  | PA_SINK_SUSPENDED, PA_SINK_SUSPENDED
  | PA_SINK_INIT, PA_SINK_INIT
  | PA_SINK_UNLINKED, PA_SINK_UNLINKED => true
  | _, _ => false
  end.

(** [PA_SINK_IS_OPENED] of pulsecore/sink.h. *)
Definition PA_SINK_IS_OPENED (s : pa_sink_state_t) : bool :=
  match s with
  | PA_SINK_RUNNING | PA_SINK_IDLE => true
  | _ => false
  end.

Record pollfd := mk_pollfd { fd : Z; events : Z; revents : Z }.

Record pa_memchunk := mk_memchunk {
  memblock : bool;          (* the block pointer is non-NULL *)
  index : Z;
  length : Z
}.

(** [pa_memchunk_reset]. *)
Definition pa_memchunk_reset : pa_memchunk := mk_memchunk false 0 0.

(** [pa_cvolume]: one volume per channel. *)
Definition pa_cvolume := list Z.

(** Modelled from the spec: the Position Smoother (pulsecore/time-smoother.c
    and time-smoother_2.c are not among the sources).  It keeps the
    observations it was fed, newest first; a reset discards them and moves
    the time origin.  How an estimate is interpolated from the history is
    an implementation choice and is a parameter of the model ([externals]). *)
Record pa_smoother := mk_smoother {
  time_offset : Z;
  history : list (Z * Z)
}.

Definition pa_smoother_reset (s : pa_smoother) (now : Z) : pa_smoother :=
  mk_smoother now [].

Definition pa_smoother_put (s : pa_smoother) (now x : Z) : pa_smoother :=
  mk_smoother (time_offset s) ((now, x) :: history s).

Definition pa_smoother_set_time_offset (s : pa_smoother) (now : Z) : pa_smoother :=
  mk_smoother now (history s).

(** The fields of [pa_sink] the file reads or writes. *)
Record pa_sink := mk_sink {
  state : pa_sink_state_t;               (* main-thread view *)
  thread_info_state : pa_sink_state_t;   (* I/O-thread view *)
  muted : bool;
  real_volume : pa_cvolume;
  soft_volume : pa_cvolume;
  channels : nat                          (* sample_spec.channels *)
}.

(** [struct userdata].  The timer of [u->rtpoll] is kept as
    [rtpoll_timer]: [None] is a disabled timer, [Some t] an absolute one. *)
Record userdata := mk_userdata {
  sink : pa_sink;
  rtpoll_timer : option Z;
  rtpoll_item : option (list pollfd);
  oob : bool;
  server : string;
  protocol : pa_raop_protocol_t;
  encryption : pa_raop_encryption_t;
  codec : pa_raop_codec_t;
  autoreconnect : bool;
  autonull : bool;
  block_size : Z;
  block_usec : Z;
  memchunk : pa_memchunk;
  delay : Z;
  start : Z;
  smoother : pa_smoother;
  write_count : Z;
  latency : Z;
  first : bool
}.

(** Field updates. *)
Definition set_sink (u : userdata) (v : pa_sink) : userdata :=
  mk_userdata v (rtpoll_timer u) (rtpoll_item u) (oob u) (server u) (protocol u)
    (encryption u) (codec u) (autoreconnect u) (autonull u) (block_size u)
    (block_usec u) (memchunk u) (delay u) (start u) (smoother u) (write_count u)
    (latency u) (first u).

Definition set_rtpoll_timer (u : userdata) (v : option Z) : userdata :=
  mk_userdata (sink u) v (rtpoll_item u) (oob u) (server u) (protocol u)
    (encryption u) (codec u) (autoreconnect u) (autonull u) (block_size u)
    (block_usec u) (memchunk u) (delay u) (start u) (smoother u) (write_count u)
    (latency u) (first u).

Definition set_rtpoll_item (u : userdata) (v : option (list pollfd)) : userdata :=
  mk_userdata (sink u) (rtpoll_timer u) v (oob u) (server u) (protocol u)
    (encryption u) (codec u) (autoreconnect u) (autonull u) (block_size u)
    (block_usec u) (memchunk u) (delay u) (start u) (smoother u) (write_count u)
    (latency u) (first u).

Definition set_oob (u : userdata) (v : bool) : userdata :=
  mk_userdata (sink u) (rtpoll_timer u) (rtpoll_item u) v (server u) (protocol u)
    (encryption u) (codec u) (autoreconnect u) (autonull u) (block_size u)
    (block_usec u) (memchunk u) (delay u) (start u) (smoother u) (write_count u)
    (latency u) (first u).

Definition set_memchunk (u : userdata) (v : pa_memchunk) : userdata :=
  mk_userdata (sink u) (rtpoll_timer u) (rtpoll_item u) (oob u) (server u) (protocol u)
    (encryption u) (codec u) (autoreconnect u) (autonull u) (block_size u)
    (block_usec u) v (delay u) (start u) (smoother u) (write_count u)
    (latency u) (first u).

Definition set_start (u : userdata) (v : Z) : userdata :=
  mk_userdata (sink u) (rtpoll_timer u) (rtpoll_item u) (oob u) (server u) (protocol u)
    (encryption u) (codec u) (autoreconnect u) (autonull u) (block_size u)
    (block_usec u) (memchunk u) (delay u) v (smoother u) (write_count u)
    (latency u) (first u).

Definition set_smoother (u : userdata) (v : pa_smoother) : userdata :=
  mk_userdata (sink u) (rtpoll_timer u) (rtpoll_item u) (oob u) (server u) (protocol u)
    (encryption u) (codec u) (autoreconnect u) (autonull u) (block_size u)
    (block_usec u) (memchunk u) (delay u) (start u) v (write_count u)
    (latency u) (first u).

Definition set_write_count (u : userdata) (v : Z) : userdata :=
  mk_userdata (sink u) (rtpoll_timer u) (rtpoll_item u) (oob u) (server u) (protocol u)
    (encryption u) (codec u) (autoreconnect u) (autonull u) (block_size u)
    (block_usec u) (memchunk u) (delay u) (start u) (smoother u) v
    (latency u) (first u).

Definition set_first (u : userdata) (v : bool) : userdata :=
  mk_userdata (sink u) (rtpoll_timer u) (rtpoll_item u) (oob u) (server u) (protocol u)
    (encryption u) (codec u) (autoreconnect u) (autonull u) (block_size u)
    (block_usec u) (memchunk u) (delay u) (start u) (smoother u) (write_count u)
    (latency u) v.

Definition set_soft_volume (s : pa_sink) (v : pa_cvolume) : pa_sink :=
  mk_sink (state s) (thread_info_state s) (muted s) (real_volume s) v (channels s).

Definition set_thread_info_state (s : pa_sink) (v : pa_sink_state_t) : pa_sink :=
  mk_sink (state s) v (muted s) (real_volume s) (soft_volume s) (channels s).

(** ** Collaborators *)

(** What the code asks of the sample format, the smoother's read side, the
    volume arithmetic and the build configuration. *)
Record externals := mk_externals {
  USE_SMOOTHER_2 : bool;
  pa_bytes_to_usec : Z -> Z;
  pa_usec_to_bytes : Z -> Z;
  pa_smoother_get : pa_smoother -> Z -> Z;
  pa_smoother_2_get_delay : pa_smoother -> Z -> Z -> Z;
  pa_raop_client_adjust_volume : Z -> Z;
  pa_sw_volume_divide : Z -> Z -> Z
}.

(** Answers of the RAOP client's status queries at the time of a call. *)
Record client_view := mk_client {
  can_stream : bool;
  is_alive : bool;
  is_authenticated : bool;
  is_recording : bool
}.

(** What a handler or a loop round does outside [struct userdata], in the
    order it is done: calls into the RAOP client, the server core, the
    message queues and libc, and log lines.  A send is logged with the
    chunk as it went in, the offset, the return value and the chunk as it
    came back.  [E_null_discard] logs the one step that is not a call: the
    null-sink branch of the loop setting the chunk's length to zero
    instead of sending it. *)
Inductive effect :=
| E_client_disconnect              (* pa_raop_client_disconnect *)
| E_client_authenticate            (* pa_raop_client_authenticate *)
| E_client_announce                (* pa_raop_client_announce *)
| E_client_teardown                (* pa_raop_client_teardown *)
| E_client_flush                   (* pa_raop_client_flush *)
| E_client_stream                  (* pa_raop_client_stream *)
| E_client_set_volume (v : Z)      (* pa_raop_client_set_volume *)
| E_client_register_pollfd         (* pa_raop_client_register_pollfd *)
| E_client_send_audio_packet (before : pa_memchunk) (offset : Z)
    (ret : Z) (after : pa_memchunk)
| E_client_handle_oob_packet (from : Z) (nread : Z)
| E_module_unload_request          (* pa_module_unload_request *)
| E_post_disconnect_request        (* post of PA_SINK_MESSAGE_DISCONNECT_REQUEST *)
| E_post_unload_module             (* post of PA_CORE_MESSAGE_UNLOAD_MODULE *)
| E_close (descriptor : Z)         (* pa_close *)
| E_rtpoll_item_free               (* pa_rtpoll_item_free *)
| E_sink_process_msg_default       (* pa_sink_process_msg *)
| E_sink_process_rewind            (* pa_sink_process_rewind *)
| E_sink_render_full (nbytes : Z)  (* pa_sink_render_full *)
| E_memblock_unref                 (* pa_memblock_unref *)
| E_null_discard (nbytes : Z)
| E_log_timing_warn (level : Z) (since_in_sec : Z)
| E_log_timing_limit
| E_log_write_failed (errno : Z).

(** Ways a call can abort the process. *)
Inductive fault :=
| Assert_rtpoll_item_null     (* pa_assert(!u->rtpoll_item) *)
| Assert_pollfd               (* pa_assert(pollfd) *)
| Assert_sink_opened          (* pa_assert(PA_SINK_IS_OPENED(s->thread_info.state)) *)
| Null_pollfd.                (* pollfd->events through a NULL pollfd *)

Inductive result (A : Type) :=
| Ok (a : A)
| Abort (f : fault).
Arguments Ok {A} a.
Arguments Abort {A} f.

(** ** Volume helpers of pulse/volume.c *)

(** Modelled from the spec: [pa_cvolume_max], the maximum channel volume
    (the scan starts from [PA_VOLUME_MUTED]). *)
Definition pa_cvolume_max (a : pa_cvolume) : Z :=
  fold_right Z.max PA_VOLUME_MUTED a.

(** Modelled from the spec: [pa_cvolume_set], the single scalar volume on
    every channel. *)
Definition pa_cvolume_set (n : nat) (v : Z) : pa_cvolume := repeat v n.

Section Handlers.

Context (X : externals).

(** Modelled from the spec: [pa_sw_cvolume_divide], the per-channel
    quotient over the channels both volumes have; the scalar quotient is
    the collaborator's [pa_sw_volume_divide]. *)
Fixpoint pa_sw_cvolume_divide (a b : pa_cvolume) : pa_cvolume :=
  match a, b with
  | x :: a', y :: b' => pa_sw_volume_divide X x y :: pa_sw_cvolume_divide a' b'
  | _, _ => []
  end.

(** [sink_get_latency]; [now] is [pa_rtclock_now()]. *)
Definition sink_get_latency (u : userdata) (now : Z) : Z :=
  let estimate :=
    if USE_SMOOTHER_2 X then
      pa_smoother_2_get_delay X (smoother u) now (write_count u)
    else
      let now' := pa_smoother_get X (smoother u) now in
      s64 (pa_bytes_to_usec X (write_count u) - now') in
  (* RAOP default latency *)
  s64 (estimate + latency u * PA_USEC_PER_MSEC).

(** [sink_set_volume_cb]. *)
Definition sink_set_volume_cb (s : pa_sink) : pa_sink * list effect :=
  (* If we're muted we don't need to do anything. *)
  if muted s then (s, [])
  else
    let v_orig := pa_cvolume_max (real_volume s) in
    let v := pa_raop_client_adjust_volume X v_orig in
    let hw := pa_cvolume_set (channels s) v in
    (set_soft_volume s (pa_sw_cvolume_divide (real_volume s) hw),
     [E_client_set_volume v]).

(** [sink_set_mute_cb]. *)
Definition sink_set_mute_cb (s : pa_sink) : pa_sink * list effect :=
  if muted s then (s, [E_client_set_volume PA_VOLUME_MUTED])
  else sink_set_volume_cb s.

Inductive message :=
| PA_SINK_MESSAGE_DISCONNECT_REQUEST
| PA_SINK_MESSAGE_GET_LATENCY
| PA_SINK_MESSAGE_SET_RAOP_STATE (s : pa_raop_state_t)
| PA_SINK_MESSAGE_OTHER (code : Z).

(** What the environment answers during one handler call:
    [pa_rtclock_now()], the client's status, and what
    [pa_raop_client_register_pollfd] returns and stores. *)
Record msg_env := mk_msg_env {
  me_now : Z;
  me_client : client_view;
  me_register : bool * option (list pollfd)
}.

(** The descriptors the Disconnected branch closes. *)
Definition close_pollfds (fds : list pollfd) : list effect :=
  map (fun p => E_close (fd p)) (filter (fun p => 0 <=? fd p) fds).

(** The [PA_RAOP_INVALID_STATE] / [PA_RAOP_DISCONNECTED] branch. *)
Definition raop_disconnected (u : userdata) : userdata * list effect :=
  let '(u1, eff1) :=
    match rtpoll_item u with
    | Some fds => (set_rtpoll_item u None, close_pollfds fds ++ [E_rtpoll_item_free])
    | None => (u, [])
    end in
  if sink_state_eqb (thread_info_state (sink u1)) PA_SINK_SUSPENDED then
    (set_rtpoll_timer u1 None, eff1)
  else if autoreconnect u1 then
    if negb (sink_state_eqb (thread_info_state (sink u1)) PA_SINK_IDLE) then
      let u2 := if negb (autonull u1) then set_rtpoll_timer u1 None else u1 in
      (u2, eff1 ++ [E_client_authenticate])
    else (u1, eff1)
  else
    if negb (sink_state_eqb (thread_info_state (sink u1)) PA_SINK_IDLE) then
      (u1, eff1 ++ [E_module_unload_request])
    else (u1, eff1).

(** The [PA_RAOP_RECORDING] branch. *)
Definition raop_recording (u : userdata) (now : Z) : userdata * list effect :=
  let u1 := set_write_count u 0 in
  let u2 := set_start u1 now in
  let u3 := set_first u2 true in
  let u4 := set_rtpoll_timer u3 (Some now) in
  if sink_state_eqb (thread_info_state (sink u4)) PA_SINK_SUSPENDED then
    (* Our stream has been suspended so we just flush it... *)
    (set_rtpoll_timer u4 None, [E_client_flush])
  else
    (* Set the initial volume *)
    let '(s', eff) := sink_set_volume_cb (sink u4) in
    (set_sink u4 s', eff ++ [E_sink_process_msg_default]).

(** The [PA_RAOP_AUTHENTICATED] branch. *)
Definition raop_authenticated (u : userdata) (e : msg_env) : userdata * list effect :=
  let eff1 :=
    if negb (is_authenticated (me_client e)) then [E_module_unload_request] else [] in
  if autoreconnect u && sink_state_eqb (state (sink u)) PA_SINK_RUNNING then
    let u1 := set_smoother u (pa_smoother_reset (smoother u) (me_now e)) in
    if negb (is_alive (me_client e)) then
      (* Connecting will trigger a RECORD and start steaming *)
      (u1, eff1 ++ [E_client_announce])
    else (u1, eff1)
  else (u, eff1).

(** The [PA_RAOP_CONNECTED] branch. *)
Definition raop_connected (u : userdata) (e : msg_env) : result (userdata * list effect) :=
  match rtpoll_item u with
  | Some _ => Abort Assert_rtpoll_item_null
  | None =>
      let '(is_oob, item) := me_register e in
      Ok (set_oob (set_rtpoll_item u item) is_oob, [E_client_register_pollfd])
  end.

(** [sink_process_msg].  The third component is what the handler stores
    through [data] for a latency query. *)
Definition sink_process_msg (u : userdata) (m : message) (e : msg_env)
  : result (userdata * list effect * option Z) :=
  match m with
  | PA_SINK_MESSAGE_DISCONNECT_REQUEST =>
      if sink_state_eqb (state (sink u)) PA_SINK_RUNNING then
        (* Disconnect raop client, and restart the whole chain since
           the authentication token might be outdated *)
        Ok (u, [E_client_disconnect; E_client_authenticate], None)
      else Ok (u, [], None)
  | PA_SINK_MESSAGE_GET_LATENCY =>
      let r :=
        if autonull u || can_stream (me_client e)
        then sink_get_latency u (me_now e) else 0 in
      Ok (u, [], Some r)
  | PA_SINK_MESSAGE_SET_RAOP_STATE PA_RAOP_AUTHENTICATED =>
      let '(u', eff) := raop_authenticated u e in Ok (u', eff, None)
  | PA_SINK_MESSAGE_SET_RAOP_STATE PA_RAOP_CONNECTED =>
      match raop_connected u e with
      | Ok (u', eff) => Ok (u', eff, None)
      | Abort f => Abort f
      end
  | PA_SINK_MESSAGE_SET_RAOP_STATE PA_RAOP_RECORDING =>
      let '(u', eff) := raop_recording u (me_now e) in Ok (u', eff, None)
  | PA_SINK_MESSAGE_SET_RAOP_STATE PA_RAOP_INVALID_STATE
  | PA_SINK_MESSAGE_SET_RAOP_STATE PA_RAOP_DISCONNECTED =>
      let '(u', eff) := raop_disconnected u in Ok (u', eff, None)
  | PA_SINK_MESSAGE_OTHER _ => Ok (u, [E_sink_process_msg_default], None)
  end.

(** [sink_set_state_in_io_thread_cb]. *)
Definition sink_set_state_in_io_thread_cb (u : userdata) (new_state : pa_sink_state_t)
    (e : msg_env) : result (userdata * list effect) :=
  (* It may be that only the suspend cause is changing, in which case there's
     nothing to do. *)
  if sink_state_eqb new_state (thread_info_state (sink u)) then Ok (u, [])
  else
    match new_state with
    | PA_SINK_SUSPENDED =>
        if PA_SINK_IS_OPENED (thread_info_state (sink u)) then
          (* Issue a TEARDOWN if we are still connected *)
          if is_alive (me_client e) then Ok (u, [E_client_teardown])
          else Ok (u, [])
        else Abort Assert_sink_opened
    | PA_SINK_IDLE =>
        (* Issue a FLUSH if we're coming from running state *)
        if sink_state_eqb (thread_info_state (sink u)) PA_SINK_RUNNING then
          Ok (set_rtpoll_timer u None, [E_client_flush])
        else Ok (u, [])
    | PA_SINK_RUNNING =>
        let now := me_now e in
        let u1 := set_smoother u (pa_smoother_reset (smoother u) now) in
        (* If autonull is enabled, I/O thread is always eating chunks since
           it is emulating a null sink *)
        let u2 :=
          if autonull u1 then
            set_rtpoll_timer (set_first (set_write_count (set_start u1 now) 0) true)
              (Some now)
          else u1 in
        if negb (is_alive (me_client e)) then
          (* Connecting will trigger a RECORD and start streaming *)
          Ok (u2, [E_client_announce])
        else if negb (is_recording (me_client e)) then
          (* RECORD alredy sent, simply start streaming *)
          Ok (set_start (set_write_count (set_rtpoll_timer u2 (Some now)) 0) now,
                [E_client_stream])
        else Ok (u2, [])
    | PA_SINK_UNLINKED | PA_SINK_INIT | PA_SINK_INVALID_STATE => Ok (u, [])
    end.

End Handlers.

(** ** The I/O thread *)

(** The variables [thread_func] keeps across rounds of its loop. *)
Record locals := mk_locals {
  offset : Z;
  last_timing : Z;
  check_timing_count : Z;
  intvl : Z
}.

(** Their values when the thread starts. *)
Definition locals_init : locals := mk_locals 0 0 1 0.

(** What the environment answers for one descriptor of the out-of-band
    scan: whether the client is alive, what [pa_read] returns, whether the
    descriptor is the timing one, and [pa_rtclock_now()]. *)
Record oob_input := mk_oob_input {
  oi_alive : bool;
  oi_read : Z;
  oi_timing_fd : bool;
  oi_now : Z
}.

(** What [pa_raop_client_send_audio_packet] returns, the [errno] it leaves,
    and the chunk's index and length when it comes back. *)
Record send_outcome := mk_send_outcome {
  so_ret : Z;
  so_errno : Z;
  so_index : Z;
  so_length : Z
}.

(** What the environment answers during one round of the loop. *)
Record iter_env := mk_iter_env {
  ie_poll_ret : Z;                 (* pa_rtpoll_run *)
  ie_rewind_requested : bool;      (* sink->thread_info.rewind_requested *)
  ie_on_timeout : bool;            (* pa_rtpoll_timer_elapsed *)
  ie_revents : list Z;             (* revents as poll left them *)
  ie_oob : list oob_input;         (* one per round of the out-of-band scan *)
  ie_client : client_view;
  ie_now : Z;                      (* pa_rtclock_now() before the watchdog *)
  ie_render_index : Z;             (* index of the rendered chunk *)
  ie_send : send_outcome;
  ie_now_put : Z                   (* pa_rtclock_now() before the smoother put *)
}.

Inductive iter_result :=
| Continue (u : userdata) (l : locals) (eff : list effect)
| Goto_fail (u : userdata) (l : locals) (eff : list effect)
| Goto_finish (u : userdata) (l : locals) (eff : list effect)
| Crash (f : fault).

Definition set_revents (p : pollfd) (r : Z) : pollfd := mk_pollfd (fd p) (events p) r.

(** The descriptors as [pa_rtpoll_run] hands them back. *)
Fixpoint poll_revents (fds : list pollfd) (rs : list Z) : list pollfd :=
  match fds, rs with
  | p :: fds', r :: rs' => set_revents p r :: poll_revents fds' rs'
  | _, _ => fds
  end.

(** Overwrite the [p]-th descriptor. *)
Fixpoint store_pollfd (fds : list pollfd) (p : nat) (v : pollfd) : list pollfd :=
  match fds, p with
  | [], _ => []
  | _ :: fds', O => v :: fds'
  | x :: fds', S p' => x :: store_pollfd fds' p' v
  end.

(** A write through the [pollfd] pointer where it still points at the
    first descriptor. *)
Definition store_first (u : userdata) (ev rev : Z) : option userdata :=
  match rtpoll_item u with
  | Some (p :: fds) => Some (set_rtpoll_item u (Some (mk_pollfd (fd p) ev rev :: fds)))
  | _ => None
  end.

(** The out-of-band scan, [n] rounds left, the pointer at descriptor [p].
    The [continue] of the error branch skips the pointer increment, as in
    the source.  The last component tells whether the scan left through
    [goto fail]. *)
Fixpoint oob_scan (autoreconnect_on : bool) (n : nat) (ois : list oob_input)
    (p : nat) (fds : list pollfd) (l : locals)
  : list pollfd * locals * list effect * bool :=
  match n with
  | O => (fds, l, [], false)
  | S n' =>
      let pf := nth p fds (mk_pollfd (-1) 0 0) in
      let oi := hd (mk_oob_input false 0 false 0) ois in
      if negb (Z.land (revents pf) POLLERR =? 0) then
        if autoreconnect_on && oi_alive oi then
          let '(fds', l', eff, failed) :=
            oob_scan autoreconnect_on n' (tl ois) p (store_pollfd fds p (set_revents pf 0)) l in
          (fds', l', E_post_disconnect_request :: eff, failed)
        else
          (* one of UDP fds is in faulty state, may have been disconnected,
             this is fatal *)
          (fds, l, [], true)
      else if negb (Z.land (revents pf) (events pf) =? 0) then
        let l1 :=
          if oi_timing_fd oi
          then mk_locals (offset l) (oi_now oi) 1 (intvl l)
          else l in
        let '(fds', l', eff, failed) :=
          oob_scan autoreconnect_on n' (tl ois) (S p) (store_pollfd fds p (set_revents pf 0)) l1 in
        (fds', l', E_client_handle_oob_packet (fd pf) (oi_read oi) :: eff, failed)
      else
        oob_scan autoreconnect_on n' (tl ois) (S p) fds l
  end.

Section Thread.

Context (X : externals).

(** The timing watchdog of the loop.  The last component tells whether the
    round ends here ([continue]). *)
Definition watchdog (u : userdata) (l : locals) (on_timeout canstream alive : bool)
    (now : Z) : locals * list effect * bool :=
  if oob u && autoreconnect u && on_timeout then
    if negb canstream then
      (mk_locals (offset l) 0 (check_timing_count l) (intvl l), [], false)
    else if negb (last_timing l =? 0) then
      let since := u64 (now - last_timing l) in
      if u64 ((UDP_TIMING_PACKET_LOSS_MAX / UDP_TIMING_PACKET_DISCONNECT_CYCLE)
              * check_timing_count l) <? since then
        if check_timing_count l <? UDP_TIMING_PACKET_DISCONNECT_CYCLE then
          let since_in_sec := u32 (since / PA_USEC_PER_SEC) in
          (mk_locals (offset l) (last_timing l) (u32 (check_timing_count l + 1)) (intvl l),
           [E_log_timing_warn (check_timing_count l) since_in_sec], false)
        else
          (* Limit reached, then request disconnect *)
          let l' := mk_locals (offset l) 0 1 (intvl l) in
          if alive then (l', [E_log_timing_limit; E_post_disconnect_request], true)
          else (l', [], false)
      else (l, [], false)
    else (l, [], false)
  else (l, [], false).

(** Rendering of a fresh chunk when none is buffered. *)
Definition render (u : userdata) (l : locals) (now render_index : Z)
  : userdata * locals * list effect :=
  if length (memchunk u) <=? 0 then
    if intvl l <? u64 (now + block_usec u) then
      let unref := if memblock (memchunk u) then [E_memblock_unref] else [] in
      (* Grab unencoded audio data from PulseAudio *)
      let chunk := mk_memchunk true render_index (block_size u) in
      (set_memchunk u chunk,
       mk_locals (index chunk) (last_timing l) (check_timing_count l) (intvl l),
       unref ++ [E_sink_render_full (block_size u)])
    else (u, l, [])
  else (u, l, []).

(** What follows an accepted send or a discarded chunk: the smoother is
    fed and the next delivery is scheduled. *)
Definition after_delivery (u : userdata) (l : locals) (canstream on_timeout : bool)
    (now : Z) (eff : list effect) : iter_result :=
  let position := u64 (write_count u - pa_usec_to_bytes X (delay u)) in
  let sample := if USE_SMOOTHER_2 X then position else pa_bytes_to_usec X position in
  let u1 := set_smoother u (pa_smoother_put (smoother u) now sample) in
  if (autonull u1 && negb canstream) || (oob u1 && canstream && on_timeout) then
    (* Sleep until next packet transmission *)
    let t := u64 (start u1 + pa_bytes_to_usec X (write_count u1)) in
    Continue (set_rtpoll_timer u1 (Some t))
      (mk_locals (offset l) (last_timing l) (check_timing_count l) t) eff
  else if negb (oob u1) then
    if 0 <? length (memchunk u1) then
      match store_first u1 POLLOUT 0 with
      | Some u2 => Continue u2 l eff
      | None => Crash Null_pollfd
      end
    else
      let t := u64 (start u1 + pa_bytes_to_usec X (write_count u1)) in
      match store_first (set_rtpoll_timer u1 (Some t)) 0 0 with
      | Some u2 =>
          Continue u2 (mk_locals (offset l) (last_timing l) (check_timing_count l) t) eff
      | None => Crash Null_pollfd
      end
  else Continue u1 l eff.

(** Delivery of the buffered chunk. *)
Definition deliver (u : userdata) (l : locals) (canstream on_timeout : bool)
    (s : send_outcome) (now_put : Z) : iter_result :=
  if 0 <? length (memchunk u) then
    let idx := index (memchunk u) in
    let sendstream := negb (autonull u) || (autonull u && canstream) in
    if sendstream then
      let before := memchunk u in
      let after := mk_memchunk (memblock before) (so_index s) (so_length s) in
      let call := E_client_send_audio_packet before (offset l) (so_ret s) after in
      let u1 := set_memchunk u after in
      if so_ret s <? 0 then
        if so_errno s =? EINTR then
          (* Just try again. *)
          if autoreconnect u1 then Continue u1 l [call; E_post_disconnect_request]
          else Goto_fail u1 l [call]
        else if negb (so_errno s =? EAGAIN) && negb (oob u1) then
          (* Buffer is full, wait for POLLOUT. *)
          match store_first u1 POLLOUT 0 with
          | Some u2 => Continue u2 l [call]
          | None => Crash Null_pollfd
          end
        else
          if autoreconnect u1
          then Continue u1 l [call; E_log_write_failed (so_errno s); E_post_disconnect_request]
          else Goto_fail u1 l [call; E_log_write_failed (so_errno s)]
      else
        let u2 := set_write_count u1 (u64 (write_count u1 + u64 (index after - idx))) in
        after_delivery u2 l canstream on_timeout now_put [call]
    else
      let n := length (memchunk u) in
      let u1 := set_write_count u (u64 (write_count u + n)) in
      let u2 := set_memchunk u1
                  (mk_memchunk (memblock (memchunk u1)) (index (memchunk u1)) 0) in
      after_delivery u2 l canstream on_timeout now_put [E_null_discard n]
  else Continue u l [].

Definition prepend (eff : list effect) (r : iter_result) : iter_result :=
  match r with
  | Continue u l e => Continue u l (eff ++ e)
  | Goto_fail u l e => Goto_fail u l (eff ++ e)
  | Goto_finish u l e => Goto_finish u l (eff ++ e)
  | Crash f => Crash f
  end.

(** The part of a round after the descriptors were looked at;
    [has_pollfd] tells whether [pollfd] is non-NULL. *)
Definition audio_round (u : userdata) (l : locals) (e : iter_env) (has_pollfd : bool)
  : iter_result :=
  if negb (sink_state_eqb (thread_info_state (sink u)) PA_SINK_RUNNING) then
    Continue u l []
  else
    let '(u1, l1) :=
      if first u then (set_first u false, mk_locals (offset l) 0 1 0) else (u, l) in
    let canstream := can_stream (ie_client e) in
    let now := ie_now e in
    let '(l2, effw, stop) :=
      watchdog u1 l1 (ie_on_timeout e) canstream (is_alive (ie_client e)) now in
    if stop then Continue u1 l2 effw
    else if negb (autonull u1) && negb canstream then Continue u1 l2 effw
    else if negb (autonull u1) && negb has_pollfd then Crash Assert_pollfd
    else
      let '(u3, l3, effr) := render u1 l2 now (ie_render_index e) in
      prepend (effw ++ effr)
        (deliver u3 l3 canstream (ie_on_timeout e) (ie_send e) (ie_now_put e)).

(** One round of the [for (;;)] loop of [thread_func]. *)
Definition thread_func_round (u : userdata) (l : locals) (e : iter_env) : iter_result :=
  (* Polling (audio data + control socket + timing socket). *)
  if ie_poll_ret e <? 0 then Goto_fail u l []
  else if ie_poll_ret e =? 0 then Goto_finish u l []
  else
    let eff0 :=
      if PA_SINK_IS_OPENED (thread_info_state (sink u)) && ie_rewind_requested e
      then [E_sink_process_rewind] else [] in
    match rtpoll_item u with
    | Some fds0 =>
        let fds := poll_revents fds0 (ie_revents e) in
        let u0 := set_rtpoll_item u (Some fds) in
        match fds with
        | p0 :: _ =>
            (* If !oob: streaming driven by pollds (POLLOUT) *)
            if negb (oob u0) && (revents p0 =? 0) then
              Continue
                (set_rtpoll_item u0 (Some (map (fun p => mk_pollfd (fd p) POLLOUT 0) fds)))
                l eff0
            (* if oob: streaming managed by timing, pollfd for oob sockets *)
            else if oob u0 && negb (ie_on_timeout e) then
              let '(fds', l', eff, failed) :=
                oob_scan (autoreconnect u0) (List.length fds) (ie_oob e) 0 fds l in
              let u1 := set_rtpoll_item u0 (Some fds') in
              if failed then Goto_fail u1 l' (eff0 ++ eff)
              else Continue u1 l' (eff0 ++ eff)
            else prepend eff0 (audio_round u0 l e true)
        | [] => prepend eff0 (audio_round u0 l e false)
        end
    | None => prepend eff0 (audio_round u l e false)
    end.

End Thread.

(** ** Construction *)

(** [pa_modargs]: the module arguments, key and value. *)
Definition pa_modargs := list (string * string).

(** [pa_modargs_get_value] with a NULL default. *)
Fixpoint pa_modargs_get_value (ma : pa_modargs) (key : string) : option string :=
  match ma with
  | [] => None
  | (k, v) :: ma' => if String.eqb k key then Some v else pa_modargs_get_value ma' key
  end.

(** What the rest of the server answers while a sink is constructed.  The
    two typed getters of pulsecore/modargs.c take the value the field holds
    and give the value it holds afterwards, or [None] for a negative
    return. *)
Record new_env := mk_new_env {
  ne_sample_spec_ok : bool;
  ne_get_value_boolean : pa_modargs -> string -> bool -> option bool;
  ne_get_value_u32 : pa_modargs -> string -> Z -> option Z;
  ne_thread_mq_init_ok : bool;
  ne_smoother : pa_smoother;              (* pa_smoother_new / pa_smoother_2_new *)
  ne_proplist_ok : bool;
  ne_port_ok : bool;
  ne_card_ok : bool;
  ne_sink : option pa_sink;               (* pa_sink_new *)
  ne_client_ok : bool;                    (* pa_raop_client_new *)
  ne_frames_per_block : Z;
  ne_frame_size : Z;
  ne_thread_ok : bool                     (* pa_thread_new *)
}.

Definition parse_protocol (s : string) : option pa_raop_protocol_t :=
  if String.eqb s "TCP" then Some PA_RAOP_PROTOCOL_TCP
  else if String.eqb s "UDP" then Some PA_RAOP_PROTOCOL_UDP
  else None.

Definition parse_encryption (s : option string) : option pa_raop_encryption_t :=
  match s with
  | None => Some PA_RAOP_ENCRYPTION_NONE
  | Some s =>
      if String.eqb s "none" then Some PA_RAOP_ENCRYPTION_NONE
      else if String.eqb s "RSA" then Some PA_RAOP_ENCRYPTION_RSA
      else None
  end.

Definition parse_codec (s : option string) : option pa_raop_codec_t :=
  match s with
  | None => Some PA_RAOP_CODEC_PCM
  | Some s =>
      if String.eqb s "PCM" then Some PA_RAOP_CODEC_PCM
      else if String.eqb s "ALAC" then Some PA_RAOP_CODEC_ALAC
      else None
  end.

Section Construction.

Context (X : externals).

(** [pa_raop_sink_new]: the instance it publishes and the calls it ends
    with, or [None] where it returns NULL. *)
Definition pa_raop_sink_new (ma : pa_modargs) (e : new_env)
  : option (userdata * list effect) :=
  if negb (ne_sample_spec_ok e) then None else
  match pa_modargs_get_value ma "server" with
  | None => None
  | Some server_arg =>
  match pa_modargs_get_value ma "protocol" with
  | None => None
  | Some protocol_arg =>
  let latency0 := RAOP_DEFAULT_LATENCY in
  let autoreconnect0 := false in
  match ne_get_value_boolean e ma "autoreconnect" autoreconnect0 with
  | None => None
  | Some autoreconnect1 =>
  (* Linked for now, potentially ready for additional parameter *)
  let autonull1 := autoreconnect1 in
  match ne_get_value_u32 e ma "latency_msec" latency0 with
  | None => None
  | Some latency1 =>
  if negb (ne_thread_mq_init_ok e) then None else
  match parse_protocol protocol_arg with
  | None => None
  | Some protocol1 =>
  match parse_encryption (pa_modargs_get_value ma "encryption") with
  | None => None
  | Some encryption1 =>
  match parse_codec (pa_modargs_get_value ma "codec") with
  | None => None
  | Some codec1 =>
  if negb (ne_proplist_ok e) then None else
  if negb (ne_port_ok e) then None else
  if negb (ne_card_ok e) then None else
  match ne_sink e with
  | None => None
  | Some sink1 =>
  if negb (ne_client_ok e) then None else
  (* The number of frames per blocks is not negotiable... *)
  let block_size1 := u64 (ne_frames_per_block e * ne_frame_size e) in
  let block_usec1 := pa_bytes_to_usec X block_size1 in
  if negb (ne_thread_ok e) then None else
  Some (mk_userdata sink1 None None true server_arg protocol1 encryption1 codec1
          autoreconnect1 autonull1 block_size1 block_usec1 pa_memchunk_reset
          0 0 (ne_smoother e) 0 latency1 false,
        [E_client_authenticate])
  end end end end end end end end.

End Construction.

(** ** The sink as a system *)

Inductive thread_status := Looping | Failed | Finished.

Record system := mk_system {
  sys_u : userdata;
  sys_l : locals;
  sys_thread : thread_status;
  sys_log : list effect
}.

(** What can happen to a published sink: a message reaches
    [sink_process_msg]; the generic sink code runs the state callback and
    then stores the new I/O-thread state; the host changes the main-thread
    state, the volume or the mute flag (the last two run their callbacks);
    the I/O thread runs one round of its loop. *)
Inductive event :=
| Ev_message (m : message) (e : msg_env)
| Ev_set_state (new_state : pa_sink_state_t) (e : msg_env)
| Ev_host_state (s : pa_sink_state_t)
| Ev_set_volume (v : pa_cvolume)
| Ev_set_mute (b : bool)
| Ev_round (e : iter_env).

Section System.

Context (X : externals).

(** The start of [thread_func], before its loop; [now] is
    [pa_rtclock_now()]. *)
Definition thread_func_start (u : userdata) (now : Z) : userdata :=
  if USE_SMOOTHER_2 X then set_smoother u (pa_smoother_reset (smoother u) now)
  else set_smoother u (pa_smoother_set_time_offset (smoother u) now).

Definition step (s : system) (ev : event) : result system :=
  let u := sys_u s in
  match ev with
  | Ev_message m e =>
      match sink_process_msg X u m e with
      | Ok (u', eff, _) => Ok (mk_system u' (sys_l s) (sys_thread s) (sys_log s ++ eff))
      | Abort f => Abort f
      end
  | Ev_set_state new_state e =>
      match sink_set_state_in_io_thread_cb u new_state e with
      | Ok (u', eff) =>
          Ok (mk_system (set_sink u' (set_thread_info_state (sink u') new_state))
                (sys_l s) (sys_thread s) (sys_log s ++ eff))
      | Abort f => Abort f
      end
  | Ev_host_state st =>
      let sk := sink u in
      Ok (mk_system
            (set_sink u (mk_sink st (thread_info_state sk) (muted sk) (real_volume sk)
                           (soft_volume sk) (channels sk)))
            (sys_l s) (sys_thread s) (sys_log s))
  | Ev_set_volume v =>
      let sk := sink u in
      let '(sk', eff) :=
        sink_set_volume_cb X
          (mk_sink (state sk) (thread_info_state sk) (muted sk) v (soft_volume sk)
             (channels sk)) in
      Ok (mk_system (set_sink u sk') (sys_l s) (sys_thread s) (sys_log s ++ eff))
  | Ev_set_mute b =>
      let sk := sink u in
      let '(sk', eff) :=
        sink_set_mute_cb X
          (mk_sink (state sk) (thread_info_state sk) b (real_volume sk) (soft_volume sk)
             (channels sk)) in
      Ok (mk_system (set_sink u sk') (sys_l s) (sys_thread s) (sys_log s ++ eff))
  | Ev_round e =>
      match sys_thread s with
      | Looping =>
          match thread_func_round X u (sys_l s) e with
          | Continue u' l' eff => Ok (mk_system u' l' Looping (sys_log s ++ eff))
          | Goto_fail u' l' eff =>
              (* If this was no regular exit from the loop we have to continue
                 processing messages until we received PA_MESSAGE_SHUTDOWN *)
              Ok (mk_system u' l' Failed (sys_log s ++ eff ++ [E_post_unload_module]))
          | Goto_finish u' l' eff => Ok (mk_system u' l' Finished (sys_log s ++ eff))
          | Crash f => Abort f
          end
      | _ => Ok s
      end
  end.

Fixpoint run (s : system) (evs : list event) : result system :=
  match evs with
  | [] => Ok s
  | ev :: evs' =>
      match step s ev with
      | Ok s' => run s' evs'
      | Abort f => Abort f
      end
  end.

(** A sink as [pa_raop_sink_new] publishes it, its thread started. *)
Definition boot (ma : pa_modargs) (e : new_env) (now : Z) : option system :=
  match pa_raop_sink_new X ma e with
  | Some (u, eff) => Some (mk_system (thread_func_start u now) locals_init Looping eff)
  | None => None
  end.

End System.

(** ** The specification's wording *)

Section Wording.

Context (X : externals).

(** The estimate the Position Smoother gives for the current time and
    cursor, in either build. *)
Definition smoother_estimate (u : userdata) (now : Z) : Z :=
  if USE_SMOOTHER_2 X
  then pa_smoother_2_get_delay X (smoother u) now (write_count u)
  else s64 (pa_bytes_to_usec X (write_count u) - pa_smoother_get X (smoother u) now).

(** [getLatency()] as the specification words it, the sum taken in
    [int64_t]. *)
Definition getLatency_spec (u : userdata) (canstream : bool) (now : Z) : Z :=
  if negb canstream && negb (autonull u) then 0
  else s64 (smoother_estimate u now + latency u * PA_USEC_PER_MSEC).

(** "Close and release any registered poll handles": what that logs, as
    the specification words it.  One close for each registered handle
    that is open (its descriptor not negative), in the order of
    registration, then the release of the item; nothing when no item is
    registered. *)
Fixpoint closes_of (fds : list pollfd) : list effect :=
  match fds with
  | [] => []
  | p :: fds' =>
      if fd p <? 0 then closes_of fds' else E_close (fd p) :: closes_of fds'
  end.

Definition release_poll_handles (u : userdata) : list effect :=
  match rtpoll_item u with
  | Some fds => closes_of fds ++ [E_rtpoll_item_free]
  | None => []
  end.

(** The Recording transition as the specification words it: cursor and
    start time reset, and the smoother's history discarded. *)
Definition recording_discards_history (u : userdata) (e : msg_env) : Prop :=
  forall u' eff d,
    sink_process_msg X u (PA_SINK_MESSAGE_SET_RAOP_STATE PA_RAOP_RECORDING) e
      = Ok (u', eff, d) ->
    write_count u' = 0 /\ start u' = me_now e /\ history (smoother u') = [].

(** The escalation of the timing watchdog at a timer deadline, as the
    specification words it: below the final cycle a warning and the next
    level; at the final cycle a reset, and a disconnect request exactly
    when the connection is alive. *)
Definition watchdog_escalates (u : userdata) (l : locals) (canstream alive : bool)
    (now : Z) : Prop :=
  oob u = true -> autoreconnect u = true ->
  last_timing l <> 0 ->
  (UDP_TIMING_PACKET_LOSS_MAX / UDP_TIMING_PACKET_DISCONNECT_CYCLE)
    * check_timing_count l < u64 (now - last_timing l) ->
  let '(l', eff, _) := watchdog u l true canstream alive now in
  if check_timing_count l <? UDP_TIMING_PACKET_DISCONNECT_CYCLE then
    (exists secs, eff = [E_log_timing_warn (check_timing_count l) secs])
    /\ check_timing_count l' = check_timing_count l + 1
    /\ last_timing l' = last_timing l
  else
    check_timing_count l' = 1 /\ last_timing l' = 0
    /\ (In E_post_disconnect_request eff <-> alive = true).

End Wording.


(** ** Counting the bytes of the cursor *)

(** Bytes the network layer accepted in one logged call: the advance of
    the chunk index over a send that did not fail. *)
Definition accepted_bytes_of (ev : effect) : Z :=
  match ev with
  | E_client_send_audio_packet before _ ret after =>
      if ret <? 0 then 0 else u64 (index after - index before)
  | _ => 0
  end.

(** Bytes dropped without a send (null-sink emulation). *)
Definition discarded_bytes_of (ev : effect) : Z :=
  match ev with
  | E_null_discard n => n
  | _ => 0
  end.

Definition accepted_bytes (log : list effect) : Z :=
  fold_right (fun ev acc => accepted_bytes_of ev + acc) 0 log.

Definition discarded_bytes (log : list effect) : Z :=
  fold_right (fun ev acc => discarded_bytes_of ev + acc) 0 log.

(** Events other than the two that restart the cursor: the Recording
    transition and the sink's transition to Running. *)
Definition keeps_cursor (ev : event) : bool :=
  match ev with
  | Ev_message (PA_SINK_MESSAGE_SET_RAOP_STATE PA_RAOP_RECORDING) _ => false
  | Ev_set_state PA_SINK_RUNNING _ => false
  | _ => true
  end.

(** ** The order of the client's notifications *)

(** Modelled from the spec: what the Streaming Client (raop-client.c, not
    among the sources) is taken to guarantee about its notifications.
    "At most one live connection attempt exists at a time": once it has
    reported Connected it reports Connected again only after it reported
    the loss of that connection (Disconnected or Invalid).  Nothing else
    is assumed: Connected may follow Authenticated or come directly after
    a loss (the sink's resume path announces without authenticating), and
    Authenticated and Recording may be reported at any point.
    [connected] tells whether Connected was reported since the last
    loss. *)
Fixpoint follows_protocol (connected : bool) (evs : list event) : bool :=
  match evs with
  | [] => true
  | Ev_message (PA_SINK_MESSAGE_SET_RAOP_STATE st) _ :: evs' =>
      match st with
      | PA_RAOP_CONNECTED => negb connected && follows_protocol true evs'
      | PA_RAOP_DISCONNECTED | PA_RAOP_INVALID_STATE => follows_protocol false evs'
      | PA_RAOP_AUTHENTICATED | PA_RAOP_RECORDING => follows_protocol connected evs'
      end
  | _ :: evs' => follows_protocol connected evs'
  end.

(** Whether, after [evs], Connected was reported since the last loss. *)
Fixpoint connection_up (connected : bool) (evs : list event) : bool :=
  match evs with
  | [] => connected
  | Ev_message (PA_SINK_MESSAGE_SET_RAOP_STATE st) _ :: evs' =>
      match st with
      | PA_RAOP_CONNECTED => connection_up true evs'
      | PA_RAOP_DISCONNECTED | PA_RAOP_INVALID_STATE => connection_up false evs'
      | PA_RAOP_AUTHENTICATED | PA_RAOP_RECORDING => connection_up connected evs'
      end
  | _ :: evs' => connection_up connected evs'
  end.

(** ** Vocabulary of the proofs *)

(** A logged step that neither sends nor drops audio. *)
Definition quiet (ev : effect) : Prop :=
  accepted_bytes_of ev = 0 /\ discarded_bytes_of ev = 0.

(** What a step may do to the cursor: advance it by the bytes its log
    counts, modulo 2^64, and leave the auto-null flag alone. *)
Definition advances (u u' : userdata) (eff : list effect) : Prop :=
  write_count u' = u64 (write_count u + accepted_bytes eff + discarded_bytes eff)
  /\ autonull u' = autonull u
  /\ 0 <= discarded_bytes eff
  /\ (autonull u = false -> discarded_bytes eff = 0).

(** What a round of the loop may do to the cursor. *)
Definition round_advances (u : userdata) (r : iter_result) : Prop :=
  match r with
  | Continue u' _ eff | Goto_fail u' _ eff | Goto_finish u' _ eff => advances u u' eff
  | Crash _ => True
  end.

(** The two configuration flags stay, and a null poll item stays null.
    A round that aborts does so on the loop's own assertion or on a null
    [pollfd], not on the assertion of the Connected transition. *)
Definition stable (u u' : userdata) : Prop :=
  autonull u' = autonull u
  /\ autoreconnect u' = autoreconnect u
  /\ (rtpoll_item u = None -> rtpoll_item u' = None).

Definition round_stable (u : userdata) (r : iter_result) : Prop :=
  match r with
  | Continue u' _ _ | Goto_fail u' _ _ | Goto_finish u' _ _ => stable u u'
  | Crash f => f <> Assert_rtpoll_item_null
  end.

(** Case analysis on every test of a goal. *)
Ltac split_branches :=
  repeat match goal with
         | |- context [if ?b then _ else _] => destruct b eqn:?
         | |- context [match rtpoll_item ?v with _ => _ end] =>
             let E := fresh "Ei" in destruct (rtpoll_item v) as [[| ? ?] |] eqn:E
         end.

(** Goals about [stable] after the updates are unfolded. *)
Ltac stable_tac :=
  unfold stable in *; simpl in *; repeat split; intros; try congruence; intuition congruence.

(** ** Concrete inputs *)

Module Sample.

(** 44.1 kHz, 16 bit, stereo: four bytes per frame.  The smoother's
    estimate is the distance from the newest observation. *)
Definition X0 : externals :=
  mk_externals true
    (fun b => b / 4 * PA_USEC_PER_SEC / 44100)
    (fun t => t * 44100 / PA_USEC_PER_SEC * 4)
    (fun s now => now - time_offset s)
    (fun s now written =>
       match history s with
       | [] => 0
       | (_, pos) :: _ => (written - pos) / 4 * PA_USEC_PER_SEC / 44100
       end)
    (fun v => v)
    (fun a b => if b =? 0 then 0 else a * 65536 / b).

Definition sink0 : pa_sink :=
  mk_sink PA_SINK_RUNNING PA_SINK_RUNNING false [65536; 32768] [65536; 65536] 2.

(** A UDP sink with auto-reconnect, two out-of-band descriptors. *)
Definition u_udp : userdata :=
  mk_userdata sink0 (Some 0) (Some [mk_pollfd 7 1 0; mk_pollfd 8 1 0]) true
    "10.0.0.2" PA_RAOP_PROTOCOL_UDP PA_RAOP_ENCRYPTION_NONE PA_RAOP_CODEC_PCM
    true true 1408 7981 (mk_memchunk true 0 1408) 0 0 (mk_smoother 0 []) 0 200 false.

(** A TCP sink without auto-reconnect, a chunk buffered. *)
Definition u_tcp : userdata :=
  mk_userdata sink0 (Some 0) (Some [mk_pollfd 5 4 4]) false
    "10.0.0.2" PA_RAOP_PROTOCOL_TCP PA_RAOP_ENCRYPTION_NONE PA_RAOP_CODEC_PCM
    false false 4096 23219 (mk_memchunk true 0 4096) 0 0 (mk_smoother 0 []) 0 200 false.

Definition client_up : client_view := mk_client true true true true.
Definition client_down : client_view := mk_client false false false false.

Definition e_up : msg_env := mk_msg_env 1000 client_up (false, Some [mk_pollfd 5 0 0]).
Definition e_down : msg_env := mk_msg_env 1000 client_down (false, Some [mk_pollfd 5 0 0]).

(** The UDP sink after an earlier stream: observations in the smoother. *)
Definition u_stale : userdata :=
  set_write_count (set_smoother u_udp (mk_smoother 0 [(500, 4096)])) 8192.

(** Loop variables of a thread that saw a timing packet at time 5. *)
Definition l_timed : locals := mk_locals 0 5 1 0.

Definition send_eagain : send_outcome := mk_send_outcome (-1) EAGAIN 0 4096.
Definition send_epipe : send_outcome := mk_send_outcome (-1) 32 0 4096.
Definition send_all : send_outcome := mk_send_outcome 4096 0 4096 0.

Definition s_tcp : system := mk_system u_tcp locals_init Looping [].

(** A round in which poll reports POLLOUT and the client takes the whole
    chunk. *)
Definition round_send_all : iter_env :=
  mk_iter_env 1 false false [4] [] client_up 100 0 send_all 200.

(** Module arguments asking for UDP with auto-reconnect, and a server in
    which every construction step succeeds. *)
Definition ma0 : pa_modargs :=
  [("server", "10.0.0.2"); ("protocol", "UDP"); ("autoreconnect", "yes")]%string.

Definition ne0 : new_env :=
  mk_new_env true
    (fun ma key held =>
       match pa_modargs_get_value ma key with
       | None => Some held
       | Some v =>
           if String.eqb v "yes" then Some true
           else if String.eqb v "no" then Some false else None
       end)
    (fun ma key held =>
       match pa_modargs_get_value ma key with
       | None => Some held
       | Some _ => None
       end)
    true (mk_smoother 0 []) true true true
    (Some (mk_sink PA_SINK_INIT PA_SINK_INIT false [65536; 65536] [65536; 65536] 2))
    true 352 4 true.

Definition s_boot : system :=
  match boot X0 ma0 ne0 0 with
  | Some s => s
  | None => s_tcp
  end.

(** The sink starts running, the connection comes up, is lost and comes
    up again. *)
Definition reconnect_cycle : list event :=
  [Ev_host_state PA_SINK_RUNNING;
   Ev_set_state PA_SINK_IDLE e_down;
   Ev_set_state PA_SINK_RUNNING e_down;
   Ev_message (PA_SINK_MESSAGE_SET_RAOP_STATE PA_RAOP_AUTHENTICATED) e_down;
   Ev_message (PA_SINK_MESSAGE_SET_RAOP_STATE PA_RAOP_CONNECTED) e_down;
   Ev_message (PA_SINK_MESSAGE_SET_RAOP_STATE PA_RAOP_RECORDING) e_up;
   Ev_message (PA_SINK_MESSAGE_SET_RAOP_STATE PA_RAOP_DISCONNECTED) e_down;
   Ev_message (PA_SINK_MESSAGE_SET_RAOP_STATE PA_RAOP_AUTHENTICATED) e_down;
   Ev_message (PA_SINK_MESSAGE_SET_RAOP_STATE PA_RAOP_CONNECTED) e_down;
   Ev_message (PA_SINK_MESSAGE_SET_RAOP_STATE PA_RAOP_INVALID_STATE) e_down].

(** The sink starts running and streams, is suspended (the teardown makes
    the client report the loss), and is resumed: the announcement brings
    Connected and Recording back without a new Authenticated. *)
Definition suspend_resume : list event :=
  [Ev_host_state PA_SINK_RUNNING;
   Ev_set_state PA_SINK_IDLE e_down;
   Ev_set_state PA_SINK_RUNNING e_down;
   Ev_message (PA_SINK_MESSAGE_SET_RAOP_STATE PA_RAOP_AUTHENTICATED) e_down;
   Ev_message (PA_SINK_MESSAGE_SET_RAOP_STATE PA_RAOP_CONNECTED) e_down;
   Ev_message (PA_SINK_MESSAGE_SET_RAOP_STATE PA_RAOP_RECORDING) e_up;
   Ev_host_state PA_SINK_SUSPENDED;
   Ev_set_state PA_SINK_SUSPENDED e_up;
   Ev_message (PA_SINK_MESSAGE_SET_RAOP_STATE PA_RAOP_DISCONNECTED) e_down;
   Ev_host_state PA_SINK_RUNNING;
   Ev_set_state PA_SINK_RUNNING e_down;
   Ev_message (PA_SINK_MESSAGE_SET_RAOP_STATE PA_RAOP_CONNECTED) e_down;
   Ev_message (PA_SINK_MESSAGE_SET_RAOP_STATE PA_RAOP_RECORDING) e_up].

(** The TCP sink while idle. *)
Definition u_idle : userdata :=
  set_sink u_tcp (set_thread_info_state sink0 PA_SINK_IDLE).

(** An overdue deadline on UDP at which the client cannot stream. *)
Definition round_overdue_first : iter_env :=
  mk_iter_env 1 false true [0; 0] [] client_down 40000000 0 send_all 40000001.

End Sample.


(** ** Vocabulary of the further properties *)

(** What a round of the I/O loop can log: the rewind, the out-of-band
    packets, the requests it posts, its log lines and the audio path. *)
Definition loop_effect (ev : effect) : bool :=
  match ev with
  | E_sink_process_rewind | E_client_handle_oob_packet _ _
  | E_post_disconnect_request | E_log_timing_warn _ _ | E_log_timing_limit
  | E_memblock_unref | E_sink_render_full _ | E_client_send_audio_packet _ _ _ _
  | E_log_write_failed _ | E_null_discard _ => true
  | _ => false
  end.

(** The audio path: rendering, sending, dropping. *)
Definition audio_effect (ev : effect) : bool :=
  match ev with
  | E_memblock_unref | E_sink_render_full _ | E_client_send_audio_packet _ _ _ _
  | E_log_write_failed _ | E_null_discard _ => true
  | _ => false
  end.

(** The log lines of the timing watchdog. *)
Definition timing_log (ev : effect) : bool :=
  match ev with
  | E_log_timing_warn _ _ | E_log_timing_limit => true
  | _ => false
  end.

Definition is_disconnect_request (ev : effect) : bool :=
  match ev with
  | E_post_disconnect_request => true
  | _ => false
  end.

Definition is_send (ev : effect) : bool :=
  match ev with
  | E_client_send_audio_packet _ _ _ _ => true
  | _ => false
  end.

Definition is_render (ev : effect) : bool :=
  match ev with
  | E_sink_render_full _ => true
  | _ => false
  end.

(** A send that carries at least one byte. *)
Definition send_nonempty (ev : effect) : bool :=
  match ev with
  | E_client_send_audio_packet before _ _ _ => 0 <? length before
  | _ => true
  end.

(** A descriptor in error, and a descriptor with nothing left to read. *)
Definition has_pollerr (p : pollfd) : bool := negb (Z.land (revents p) POLLERR =? 0).
Definition serviced (p : pollfd) : bool := Z.land (revents p) (events p) =? 0.

(** The descriptor numbers of the registered poll item. *)
Definition registered_fds (u : userdata) : option (list Z) :=
  option_map (map fd) (rtpoll_item u).

(** The start of the audio part of a round: the first-round reset. *)
Definition first_round (u : userdata) (l : locals) : userdata * locals :=
  if first u then (set_first u false, mk_locals (offset l) 0 1 0) else (u, l).

(** The result of a round without its log, [None] for an abort. *)
Definition round_state (r : iter_result) : option (userdata * locals) :=
  match r with
  | Continue u l _ | Goto_fail u l _ | Goto_finish u l _ => Some (u, l)
  | Crash _ => None
  end.

(** The log of a round, empty for an abort. *)
Definition round_log (r : iter_result) : list effect :=
  match r with
  | Continue _ _ eff | Goto_fail _ _ eff | Goto_finish _ _ eff => eff
  | Crash _ => []
  end.

(** What the out-of-band scan can log, [ar] being the auto-reconnect flag. *)
Definition scan_effect (ar : bool) (ev : effect) : bool :=
  match ev with
  | E_client_handle_oob_packet _ _ => true
  | E_post_disconnect_request => ar
  | _ => false
  end.

(** The conditions under which the watchdog looks at the clock. *)
Definition watchdog_armed (u : userdata) (l : locals) (on_timeout canstream : bool) : bool :=
  oob u && autoreconnect u && on_timeout && canstream && negb (last_timing l =? 0).

(** What the watchdog can log. *)
Definition watchdog_effect (u : userdata) (l : locals) (on_timeout canstream alive : bool)
    (ev : effect) : bool :=
  match ev with
  | E_log_timing_warn k _ =>
      watchdog_armed u l on_timeout canstream
      && (k =? check_timing_count l)
      && (check_timing_count l <? UDP_TIMING_PACKET_DISCONNECT_CYCLE)
  | E_log_timing_limit | E_post_disconnect_request =>
      watchdog_armed u l on_timeout canstream && alive
      && negb (check_timing_count l <? UDP_TIMING_PACKET_DISCONNECT_CYCLE)
  | _ => false
  end.

(** What rendering can log. *)
Definition render_effect (u : userdata) (ev : effect) : bool :=
  match ev with
  | E_memblock_unref => memblock (memchunk u) && (length (memchunk u) <=? 0)
  | E_sink_render_full n => (n =? block_size u) && (length (memchunk u) <=? 0)
  | _ => false
  end.

(** What the delivery of the buffered chunk can log. *)
Definition deliver_effect (u : userdata) (canstream : bool) (ev : effect) : bool :=
  match ev with
  | E_client_send_audio_packet before _ _ _ =>
      (0 <? length before) && (negb (autonull u) || canstream)
  | E_log_write_failed _ => true
  | E_post_disconnect_request => autoreconnect u
  | E_null_discard n => autonull u && negb canstream && (0 <? n)
  | _ => false
  end.

(** What no round of the loop writes: the sink, the configuration, the
    stream start, and which descriptors are registered. *)
Definition loop_frame (u u' : userdata) : Prop :=
  sink u' = sink u /\ oob u' = oob u /\ server u' = server u
  /\ protocol u' = protocol u /\ encryption u' = encryption u /\ codec u' = codec u
  /\ autoreconnect u' = autoreconnect u /\ autonull u' = autonull u
  /\ block_size u' = block_size u /\ block_usec u' = block_usec u
  /\ delay u' = delay u /\ start u' = start u /\ latency u' = latency u
  /\ registered_fds u' = registered_fds u.

(** A round that ended before the delivery: besides the frame, the timer,
    the chunk, the smoother and the cursor are as they were. *)
Definition untouched (u u' : userdata) : Prop :=
  loop_frame u u'
  /\ rtpoll_timer u' = rtpoll_timer u /\ memchunk u' = memchunk u
  /\ smoother u' = smoother u /\ write_count u' = write_count u.

(** The state a delivery starts from: as [untouched], except that an empty
    chunk may have been replaced by a freshly rendered one of the block
    size. *)
Definition ready (ri : Z) (u u3 : userdata) : Prop :=
  loop_frame u u3
  /\ rtpoll_timer u3 = rtpoll_timer u
  /\ smoother u3 = smoother u /\ write_count u3 = write_count u
  /\ (memchunk u3 = memchunk u
      \/ (length (memchunk u) <= 0 /\ memchunk u3 = mk_memchunk true ri (block_size u))).

(** The observation a delivery feeds the smoother: the cursor less the
    bytes of the device delay, as bytes or as a duration by the build. *)
Definition smoother_sample (X : externals) (u : userdata) : Z :=
  let position := u64 (write_count u - pa_usec_to_bytes X (delay u)) in
  if USE_SMOOTHER_2 X then position else pa_bytes_to_usec X position.

(** The deadline of the next delivery: stream start plus the duration of
    the bytes written so far. *)
Definition next_deadline (X : externals) (u : userdata) : Z :=
  u64 (start u + pa_bytes_to_usec X (write_count u)).

(** The warning level within its range. *)
Definition level_in_range (l : locals) : Prop :=
  1 <= check_timing_count l <= UDP_TIMING_PACKET_DISCONNECT_CYCLE.

(** What a message handler or a state callback can log: calls into the
    client and the server core, and the release of the poll handles. *)
Definition handler_effect (ev : effect) : bool :=
  match ev with
  | E_client_disconnect | E_client_authenticate | E_client_announce
  | E_client_teardown | E_client_flush | E_client_stream | E_client_set_volume _
  | E_client_register_pollfd | E_module_unload_request | E_close _
  | E_rtpoll_item_free | E_sink_process_msg_default => true
  | _ => false
  end.

(** A timing warning numbered within 1 .. cycles - 1. *)
Definition warning_numbered (ev : effect) : bool :=
  match ev with
  | E_log_timing_warn k _ => (1 <=? k) && (k <? UDP_TIMING_PACKET_DISCONNECT_CYCLE)
  | _ => true
  end.

Definition is_unload_post (ev : effect) : bool :=
  match ev with
  | E_post_unload_module => true
  | _ => false
  end.

(** What a delivery does to the state it starts from. *)
Definition delivered (X : externals) (now_put : Z) (u3 : userdata) (l3 : locals)
    (u' : userdata) (l' : locals) : Prop :=
  loop_frame u3 u'
  /\ offset l' = offset l3 /\ last_timing l' = last_timing l3
  /\ check_timing_count l' = check_timing_count l3
  /\ ((rtpoll_timer u' = rtpoll_timer u3 /\ intvl l' = intvl l3)
      \/ (rtpoll_timer u' = Some (next_deadline X u') /\ intvl l' = next_deadline X u'))
  /\ ((smoother u' = smoother u3 /\ write_count u' = write_count u3)
      \/ smoother u' = pa_smoother_put (smoother u3) now_put (smoother_sample X u'))
  /\ first u' = first u3.

(** A render request of the block size, made while no chunk is buffered. *)
Definition render_of_empty (u : userdata) (ev : effect) : bool :=
  match ev with
  | E_sink_render_full n => (n =? block_size u) && (length (memchunk u) <=? 0)
  | _ => true
  end.

Definition not_audio (ev : effect) : bool := negb (audio_effect ev).
Definition not_timing_log (ev : effect) : bool := negb (timing_log ev).
Definition not_disconnect_request (ev : effect) : bool := negb (is_disconnect_request ev).

Definition is_goto_fail (r : iter_result) : bool :=
  match r with
  | Goto_fail _ _ _ => true
  | _ => false
  end.

Definition not_unload_post (ev : effect) : bool := negb (is_unload_post ev).

(** The number of module unloads the I/O thread has asked for. *)
Definition unload_posts (log : list effect) : nat :=
  List.length (filter is_unload_post log).

(** A volume push that carries the mute sentinel, or no volume push. *)
Definition mute_or_no_volume (ev : effect) : bool :=
  match ev with
  | E_client_set_volume v => v =? PA_VOLUME_MUTED
  | _ => true
  end.

(** ** Teardown *)

(** The pointers of [struct userdata] the model of the handlers does not
    carry: whether each is non-NULL; and whether the embedded [thread_mq]
    was initialised ([pa_thread_mq_init] has run). *)
Record pointers := mk_pointers {
  has_sink : bool;
  has_thread : bool;
  has_thread_mq : bool;
  has_rtpoll : bool;
  has_raop : bool;
  has_smoother : bool;
  has_card : bool;
  has_server : bool
}.

(** The calls of [userdata_free]. *)
Inductive release :=
| R_sink_unlink            (* pa_sink_unlink *)
| R_send_shutdown          (* pa_asyncmsgq_send of PA_MESSAGE_SHUTDOWN *)
| R_thread_free            (* pa_thread_free *)
| R_thread_mq_done         (* pa_thread_mq_done *)
| R_sink_unref             (* pa_sink_unref *)
| R_rtpoll_item_free       (* pa_rtpoll_item_free *)
| R_rtpoll_free            (* pa_rtpoll_free *)
| R_memblock_unref         (* pa_memblock_unref *)
| R_raop_client_free       (* pa_raop_client_free *)
| R_smoother_free          (* pa_smoother_free / pa_smoother_2_free *)
| R_card_free              (* pa_card_free *)
| R_server_free            (* pa_xfree(u->server) *)
| R_userdata_xfree.        (* pa_xfree(u) *)

Definition release_eqb (a b : release) : bool :=
  match a, b with
  | R_sink_unlink, R_sink_unlink | R_send_shutdown, R_send_shutdown
  | R_thread_free, R_thread_free | R_thread_mq_done, R_thread_mq_done
  | R_sink_unref, R_sink_unref | R_rtpoll_item_free, R_rtpoll_item_free
  | R_rtpoll_free, R_rtpoll_free | R_memblock_unref, R_memblock_unref
  | R_raop_client_free, R_raop_client_free | R_smoother_free, R_smoother_free
  | R_card_free, R_card_free | R_server_free, R_server_free
  | R_userdata_xfree, R_userdata_xfree => true
  | _, _ => false
  end.

Definition when (b : bool) (rs : list release) : list release := if b then rs else [].

(** [userdata_free]: the calls it makes, in order, for an instance whose
    poll item and chunk are those of [u] and whose other pointers are [p].
    [pa_thread_mq_done] is not guarded. *)
Definition userdata_free (u : userdata) (p : pointers) : list release :=
  when (has_sink p) [R_sink_unlink]
  ++ when (has_thread p) [R_send_shutdown; R_thread_free]
  ++ [R_thread_mq_done]
  ++ when (has_sink p) [R_sink_unref]
  ++ when (match rtpoll_item u with Some _ => true | None => false end) [R_rtpoll_item_free]
  ++ when (has_rtpoll p) [R_rtpoll_free]
  ++ when (memblock (memchunk u)) [R_memblock_unref]
  ++ when (has_raop p) [R_raop_client_free]
  ++ when (has_smoother p) [R_smoother_free]
  ++ when (has_card p) [R_card_free]
  ++ when (has_server p) [R_server_free]
  ++ [R_userdata_xfree].

(** Whether [r] occurs in a list of releases, and how often. *)
Definition released (r : release) (rs : list release) : bool := existsb (release_eqb r) rs.
Definition release_count (r : release) (rs : list release) : nat :=
  List.length (filter (release_eqb r) rs).

(** The releases made before the thread is joined. *)
Fixpoint before_thread_free (rs : list release) : list release :=
  match rs with
  | [] => []
  | R_thread_free :: _ => []
  | r :: rs' => r :: before_thread_free rs'
  end.

(** What [userdata_free] may do while the I/O thread can still run: unlink
    the sink and send the shutdown message. *)
Definition harmless_before_join (r : release) : bool :=
  match r with
  | R_sink_unlink | R_send_shutdown => true
  | _ => false
  end.

(** Whether the resource a release frees exists. *)
Definition exists_for (u : userdata) (p : pointers) (r : release) : bool :=
  match r with
  | R_sink_unlink | R_sink_unref => has_sink p
  | R_send_shutdown | R_thread_free => has_thread p
  | R_thread_mq_done => has_thread_mq p
  | R_userdata_xfree => true
  | R_rtpoll_item_free => match rtpoll_item u with Some _ => true | None => false end
  | R_rtpoll_free => has_rtpoll p
  | R_memblock_unref => memblock (memchunk u)
  | R_raop_client_free => has_raop p
  | R_smoother_free => has_smoother p
  | R_card_free => has_card p
  | R_server_free => has_server p
  end.

(** ** Further concrete inputs *)

Module Scenario.

Import Sample.

(** A round in which poll fails. *)
Definition round_poll_error : iter_env :=
  mk_iter_env (-1) false false [] [] client_down 300 0 send_all 300.

(** The reconnect cycle, then the I/O thread's poll fails and a further
    round is asked of the stopped thread. *)
Definition failing_run : list event :=
  reconnect_cycle ++ [Ev_round round_poll_error; Ev_round round_send_all].

(** A timer deadline 10000001 microseconds after the timing packet of
    [l_timed], the client streaming and taking the whole chunk. *)
Definition round_overdue : iter_env :=
  mk_iter_env 1 false true [0; 0] [] client_up 10000006 0 send_all 10000007.

(** One answer of the out-of-band scan: a timing packet read at time 77. *)
Definition oi_timing : oob_input := mk_oob_input true 32 true 77.

(** Descriptors after a poll without errors, and after one that reports an
    error on the first. *)
Definition fds_clean : list pollfd := [mk_pollfd 7 1 1; mk_pollfd 8 1 0].
Definition fd_error : pollfd := mk_pollfd 7 1 POLLERR.
Definition fd_pending : pollfd := mk_pollfd 8 1 1.

(** A stream start followed by two rounds that deliver a chunk each. *)
Definition stream_rounds : list event :=
  [Ev_round round_send_all; Ev_round round_send_all].

(** An instance torn down while streaming: everything exists. *)
Definition p_full : pointers := mk_pointers true true true true true true true true.

(** An instance whose construction failed at the "autoreconnect" argument:
    only the poll set and the server name exist. *)
Definition p_early : pointers := mk_pointers false false false true false false false true.

End Scenario.
(** * Properties *)

(** ** Integer and state lemmas *)

Lemma u64_range z : in_u64 (u64 z).
Proof. unfold in_u64, u64, modulus64. apply Z.mod_pos_bound. lia. Qed.

Lemma u64_small z : in_u64 z -> u64 z = z.
Proof. unfold in_u64, u64. intros H. apply Z.mod_small. exact H. Qed.

Lemma u64_add_l a b : u64 (u64 a + b) = u64 (a + b).
Proof. unfold u64, modulus64. apply Zplus_mod_idemp_l. Qed.

Lemma s64_small z : - 2 ^ 63 <= z < 2 ^ 63 -> s64 z = z.
Proof.
  unfold s64, modulus64. intros H.
  rewrite Z.mod_small; lia.
Qed.

Lemma sink_state_eqb_eq a b : sink_state_eqb a b = true <-> a = b.
Proof. destruct a, b; simpl; split; intros H; congruence. Qed.


Section MessageProperties.

Context (X : externals).

(** ** The disconnect request *)

(** C10. A disconnect request acts only when the main-thread sink state is
    Running: then the client is disconnected and re-authenticated; in every
    other state the handler returns 0 with no call to the client and the
    sink's data untouched. *)
Theorem disconnect_request_only_when_running (u : userdata) (e : msg_env) :
  (state (sink u) = PA_SINK_RUNNING ->
   sink_process_msg X u PA_SINK_MESSAGE_DISCONNECT_REQUEST e
     = Ok (u, [E_client_disconnect; E_client_authenticate], None))
  /\ (state (sink u) <> PA_SINK_RUNNING ->
      sink_process_msg X u PA_SINK_MESSAGE_DISCONNECT_REQUEST e = Ok (u, [], None)).
Proof.
  split; intros H; simpl.
  - rewrite H. reflexivity.
  - destruct (sink_state_eqb (state (sink u)) PA_SINK_RUNNING) eqn:E.
    + apply sink_state_eqb_eq in E. contradiction.
    + reflexivity.
Qed.

(** ** The latency query *)

(** C5. The latency query stores 0 when the client cannot stream and
    auto-null is off; otherwise it stores the smoother's estimate for the
    current time and cursor plus the configured latency times 1000 (an
    [int64_t] sum, exact whenever it fits).  The sink is left as it was. *)
Theorem get_latency_reply (u : userdata) (e : msg_env) :
  sink_process_msg X u PA_SINK_MESSAGE_GET_LATENCY e
    = Ok (u, [], Some (getLatency_spec X u (can_stream (me_client e)) (me_now e)))
  /\ (can_stream (me_client e) = false -> autonull u = false ->
      getLatency_spec X u (can_stream (me_client e)) (me_now e) = 0)
  /\ (can_stream (me_client e) = true \/ autonull u = true ->
      - 2 ^ 63 <= smoother_estimate X u (me_now e) + latency u * 1000 < 2 ^ 63 ->
      getLatency_spec X u (can_stream (me_client e)) (me_now e)
        = smoother_estimate X u (me_now e) + latency u * 1000).
Proof.
  unfold getLatency_spec, smoother_estimate. simpl. unfold sink_get_latency.
  destruct (can_stream (me_client e)), (autonull u); simpl;
    (split; [reflexivity | split; intros H1 H2; try discriminate; try reflexivity;
       try (apply s64_small; exact H2); destruct H1; discriminate]).
Qed.

(** ** The volume setter *)

Lemma pa_sw_cvolume_divide_repeat (a : pa_cvolume) (n : nat) (v : Z) :
  pa_sw_cvolume_divide X a (repeat v n)
    = map (fun r => pa_sw_volume_divide X r v) (firstn n a).
Proof.
  revert n. induction a as [| r a IH]; intros [| n]; simpl; try reflexivity.
  rewrite IH. reflexivity.
Qed.

Lemma pa_cvolume_max_upper (a : pa_cvolume) :
  Forall (fun r => r <= pa_cvolume_max a) a.
Proof.
  induction a as [| r a IH]; constructor.
  - simpl. apply Z.le_max_l.
  - eapply Forall_impl; [| exact IH]. intros x Hx. simpl.
    etransitivity; [exact Hx | apply Z.le_max_r].
Qed.

Lemma pa_cvolume_max_attained (a : pa_cvolume) :
  In (pa_cvolume_max a) a \/ pa_cvolume_max a = PA_VOLUME_MUTED.
Proof.
  induction a as [| r a IH]; simpl.
  - right. reflexivity.
  - destruct (Z.max_spec r (fold_right Z.max PA_VOLUME_MUTED a)) as [[_ E] | [_ E]];
      fold (pa_cvolume_max a) in *; rewrite E.
    + destruct IH as [IH | IH]; [left; right; exact IH | right; exact IH].
    + left. left. reflexivity.
Qed.

(** C7. While the sink is muted the volume setter changes nothing and
    pushes nothing.  Otherwise the hardware volume is the largest channel
    volume put through the client's adjustment; the sink it leaves has,
    as software volume, for every channel the quotient of its requested
    volume by that hardware volume, and every other field as before; and
    the adjusted scalar is the one value pushed to the client. *)
Theorem set_volume_cb_behaviour (s : pa_sink) :
  (muted s = true -> sink_set_volume_cb X s = (s, []))
  /\ (muted s = false ->
      let v := pa_raop_client_adjust_volume X (pa_cvolume_max (real_volume s)) in
      sink_set_volume_cb X s
        = (mk_sink (state s) (thread_info_state s) (muted s) (real_volume s)
             (map (fun r => pa_sw_volume_divide X r v)
                (firstn (channels s) (real_volume s)))
             (channels s),
           [E_client_set_volume v])
      /\ soft_volume (fst (sink_set_volume_cb X s))
         = map (fun r => pa_sw_volume_divide X r v) (firstn (channels s) (real_volume s))
      /\ Forall (fun r => r <= pa_cvolume_max (real_volume s)) (real_volume s)
      /\ (In (pa_cvolume_max (real_volume s)) (real_volume s)
          \/ pa_cvolume_max (real_volume s) = PA_VOLUME_MUTED)).
Proof.
  unfold sink_set_volume_cb, set_soft_volume. split; intros H; rewrite H.
  - reflexivity.
  - cbv zeta. unfold pa_cvolume_set. rewrite pa_sw_cvolume_divide_repeat.
    split; [reflexivity | split; [reflexivity | split]].
    + apply pa_cvolume_max_upper.
    + apply pa_cvolume_max_attained.
Qed.

(** ** Loss of the connection *)

Lemma close_pollfds_closes (fds : list pollfd) : close_pollfds fds = closes_of fds.
Proof.
  unfold close_pollfds. induction fds as [| p fds IH]; simpl; [reflexivity |].
  destruct (0 <=? fd p) eqn:E.
  - apply Z.leb_le in E. destruct (fd p <? 0) eqn:E'; [apply Z.ltb_lt in E'; lia |].
    simpl. rewrite IH. reflexivity.
  - apply Z.leb_gt in E. apply Z.ltb_lt in E. rewrite E. exact IH.
Qed.

(** C6. On a transition to Disconnected or Invalid every registered poll
    handle that is open is closed, the item is released and becomes null,
    before anything else is logged.  Then: a suspended sink has its timer
    disabled and nothing else happens; with auto-reconnect and a sink that
    is not idle the timer is disabled unless auto-null is on, and
    authentication is started again; without auto-reconnect and a sink
    that is not idle a module unload is requested and the timer is kept;
    an idle sink gets no further action.  No other field changes. *)
Theorem disconnected_transition (u : userdata) (st : pa_raop_state_t) (e : msg_env) :
  st = PA_RAOP_DISCONNECTED \/ st = PA_RAOP_INVALID_STATE ->
  exists timer action,
    sink_process_msg X u (PA_SINK_MESSAGE_SET_RAOP_STATE st) e
      = Ok (mk_userdata (sink u) timer None (oob u) (server u) (protocol u)
              (encryption u) (codec u) (autoreconnect u) (autonull u) (block_size u)
              (block_usec u) (memchunk u) (delay u) (start u) (smoother u)
              (write_count u) (latency u) (first u),
            release_poll_handles u ++ action, None)
    /\ (thread_info_state (sink u) = PA_SINK_SUSPENDED ->
        timer = None /\ action = [])
    /\ (thread_info_state (sink u) <> PA_SINK_SUSPENDED ->
        thread_info_state (sink u) <> PA_SINK_IDLE ->
        autoreconnect u = true ->
        timer = (if autonull u then rtpoll_timer u else None)
        /\ action = [E_client_authenticate])
    /\ (thread_info_state (sink u) <> PA_SINK_SUSPENDED ->
        thread_info_state (sink u) <> PA_SINK_IDLE ->
        autoreconnect u = false ->
        timer = rtpoll_timer u /\ action = [E_module_unload_request])
    /\ (thread_info_state (sink u) = PA_SINK_IDLE ->
        timer = rtpoll_timer u /\ action = []).
Proof.
  intros Hst.
  assert (E : sink_process_msg X u (PA_SINK_MESSAGE_SET_RAOP_STATE st) e
              = let '(u', eff) := raop_disconnected u in Ok (u', eff, None)).
  { destruct Hst; subst st; reflexivity. }
  rewrite E. clear E Hst.
  destruct u as [sk tm it ob sv pr en cd ar an bs bu mc dl sr sm wc lt fr].
  unfold raop_disconnected, release_poll_handles. simpl.
  unfold set_rtpoll_timer, set_rtpoll_item. rewrite <- ?close_pollfds_closes.
  destruct it as [fds |]; simpl; rewrite <- ?close_pollfds_closes;
    destruct (thread_info_state sk) eqn:Et; simpl;
    destruct ar; simpl; destruct an; simpl;
    first
      [ exists None, (@nil effect); split; [rewrite ?app_nil_r; reflexivity |]
      | exists tm, (@nil effect); split; [rewrite ?app_nil_r; reflexivity |]
      | exists None, [E_client_authenticate]; split; [reflexivity |]
      | exists tm, [E_client_authenticate]; split; [reflexivity |]
      | exists tm, [E_module_unload_request]; split; [reflexivity |] ];
    repeat split; intros; try congruence; try reflexivity.
Qed.

(** ** Entry into Recording *)

(** C3, as amended. Every entry into Recording sets the cursor to zero,
    the stream start to the current time and the first-round flag, and
    leaves the Position Smoother exactly as it was: it discards none of
    the smoother's history. *)
Theorem recording_resets_cursor_not_smoother (u : userdata) (e : msg_env) :
  exists u' eff,
    sink_process_msg X u (PA_SINK_MESSAGE_SET_RAOP_STATE PA_RAOP_RECORDING) e
      = Ok (u', eff, None)
    /\ write_count u' = 0
    /\ start u' = me_now e
    /\ first u' = true
    /\ smoother u' = smoother u.
Proof.
  simpl. unfold raop_recording.
  destruct (sink_state_eqb _ PA_SINK_SUSPENDED).
  - eexists; eexists; split; [reflexivity |]. simpl. auto.
  - destruct (sink_set_volume_cb X _) as [s' eff] eqn:E.
    eexists; eexists; split; [reflexivity |]. simpl. auto.
Qed.

(** Where the smoother is reset instead: when the sink enters Running ... *)
Lemma running_resets_smoother (u u' : userdata) (e : msg_env) (eff : list effect) :
  thread_info_state (sink u) <> PA_SINK_RUNNING ->
  sink_set_state_in_io_thread_cb u PA_SINK_RUNNING e = Ok (u', eff) ->
  smoother u' = pa_smoother_reset (smoother u) (me_now e).
Proof.
  intros Hne. unfold sink_set_state_in_io_thread_cb.
  destruct (sink_state_eqb PA_SINK_RUNNING (thread_info_state (sink u))) eqn:E.
  - apply sink_state_eqb_eq in E. congruence.
  - destruct (autonull _), (is_alive _), (is_recording _); simpl;
      intros H; inversion H; reflexivity.
Qed.

(** ... and on Authenticated, with auto-reconnect and a running sink. *)
Lemma authenticated_resets_smoother (u : userdata) (e : msg_env) :
  autoreconnect u = true -> state (sink u) = PA_SINK_RUNNING ->
  smoother (fst (raop_authenticated u e)) = pa_smoother_reset (smoother u) (me_now e).
Proof.
  intros Ha Hs. unfold raop_authenticated. rewrite Ha, Hs. simpl.
  destruct (is_alive _); reflexivity.
Qed.

End MessageProperties.

Import Sample.

Lemma disconnect_request_only_when_running_witness :
  sink_process_msg X0 u_tcp PA_SINK_MESSAGE_DISCONNECT_REQUEST e_up
    = Ok (u_tcp, [E_client_disconnect; E_client_authenticate], None).
Proof.
  apply (proj1 (disconnect_request_only_when_running X0 u_tcp e_up)).
  reflexivity.
Defined.

Lemma get_latency_reply_witness :
  getLatency_spec X0 u_udp (can_stream (me_client e_up)) (me_now e_up)
    = smoother_estimate X0 u_udp (me_now e_up) + latency u_udp * 1000.
Proof.
  apply (proj2 (proj2 (get_latency_reply X0 u_udp e_up))).
  - left. reflexivity.
  - vm_compute. split; [discriminate | reflexivity].
Defined.

Lemma set_volume_cb_behaviour_witness :
  sink_set_volume_cb X0 sink0
    = (mk_sink PA_SINK_RUNNING PA_SINK_RUNNING false [65536; 32768] [65536; 32768] 2,
       [E_client_set_volume 65536])
  /\ soft_volume (fst (sink_set_volume_cb X0 sink0)) = [65536; 32768].
Proof.
  destruct (proj2 (set_volume_cb_behaviour X0 sink0) eq_refl) as (H1 & H2 & _).
  split; [exact H1 | exact H2].
Defined.

Lemma disconnected_transition_witness :
  exists u',
    sink_process_msg X0 u_udp (PA_SINK_MESSAGE_SET_RAOP_STATE PA_RAOP_DISCONNECTED) e_down
      = Ok (u', [E_close 7; E_close 8; E_rtpoll_item_free; E_client_authenticate], None)
    /\ rtpoll_item u' = None /\ rtpoll_timer u' = Some 0.
Proof.
  destruct (disconnected_transition X0 u_udp PA_RAOP_DISCONNECTED e_down (or_introl eq_refl))
    as (timer & action & E & _ & H & _).
  destruct H as [Ht Ha]; [discriminate | discriminate | reflexivity |].
  subst timer action. eexists. split; [exact E |]. split; reflexivity.
Defined.

(** C3, the claim as worded, fails: a sink whose smoother holds the
    observation (500, 4096) of an earlier stream still holds it after the
    Recording transition. *)
Lemma recording_keeps_stale_history : ~ recording_discards_history X0 u_stale e_up.
Proof.
  intros H.
  destruct (H _ _ _ eq_refl) as (_ & _ & Hh).
  vm_compute in Hh. discriminate.
Qed.

(** ** The timing watchdog *)

(** C2, the claim as worded, fails: with no streamable connection the
    deadline 10000001 microseconds after the timing packet of time 5, at
    level 1, logs nothing and disarms the watchdog. *)
Lemma watchdog_silent_when_not_streamable :
  ~ watchdog_escalates u_udp l_timed false true 10000006.
Proof.
  unfold watchdog_escalates. intros H.
  assert (G := H eq_refl eq_refl).
  vm_compute in G.
  destruct G as [[secs G] _]; [discriminate | reflexivity | discriminate].
Qed.

(** The watchdog at an overdue deadline, the client streamable. *)
Lemma watchdog_overdue (u : userdata) (l : locals) (alive : bool) (now : Z) :
  oob u = true -> autoreconnect u = true ->
  0 <= check_timing_count l ->
  last_timing l <> 0 ->
  (UDP_TIMING_PACKET_LOSS_MAX / UDP_TIMING_PACKET_DISCONNECT_CYCLE)
    * check_timing_count l < u64 (now - last_timing l) ->
  watchdog u l true true alive now =
    if check_timing_count l <? UDP_TIMING_PACKET_DISCONNECT_CYCLE then
      (mk_locals (offset l) (last_timing l) (check_timing_count l + 1) (intvl l),
       [E_log_timing_warn (check_timing_count l)
          (u32 (u64 (now - last_timing l) / PA_USEC_PER_SEC))],
       false)
    else
      (mk_locals (offset l) 0 1 (intvl l),
       if alive then [E_log_timing_limit; E_post_disconnect_request] else [],
       alive).
Proof.
  intros Hoob Hauto Hk Hlast Hsince.
  unfold watchdog. rewrite Hoob, Hauto. cbn [andb negb].
  apply Z.eqb_neq in Hlast. rewrite Hlast. cbn [negb].
  assert (Hthr : u64 (UDP_TIMING_PACKET_LOSS_MAX / UDP_TIMING_PACKET_DISCONNECT_CYCLE
                      * check_timing_count l)
                 = UDP_TIMING_PACKET_LOSS_MAX / UDP_TIMING_PACKET_DISCONNECT_CYCLE
                   * check_timing_count l).
  { apply u64_small. pose proof (u64_range (now - last_timing l)) as Hr.
    unfold in_u64 in *.
    change (UDP_TIMING_PACKET_LOSS_MAX / UDP_TIMING_PACKET_DISCONNECT_CYCLE)
      with 10000000 in *. lia. }
  rewrite Hthr.
  apply Z.ltb_lt in Hsince. rewrite Hsince.
  destruct (check_timing_count l <? UDP_TIMING_PACKET_DISCONNECT_CYCLE) eqn:Ek.
  - apply Z.ltb_lt in Ek. unfold UDP_TIMING_PACKET_DISCONNECT_CYCLE in Ek.
    assert (E32 : u32 (check_timing_count l + 1) = check_timing_count l + 1).
    { unfold u32, modulus32. apply Z.mod_small. lia. }
    rewrite E32. reflexivity.
  - destruct alive; reflexivity.
Qed.

(** Three overdue deadlines in a row, from level 1: two warnings, then
    the reset, with a disconnect request when the connection is alive. *)
Lemma watchdog_three_deadlines (u : userdata) (l : locals) (alive : bool) (t1 t2 t3 : Z) :
  oob u = true -> autoreconnect u = true ->
  last_timing l <> 0 -> check_timing_count l = 1 ->
  10000000 < u64 (t1 - last_timing l) ->
  20000000 < u64 (t2 - last_timing l) ->
  30000000 < u64 (t3 - last_timing l) ->
  let '(l1, e1, _) := watchdog u l true true alive t1 in
  let '(l2, e2, _) := watchdog u l1 true true alive t2 in
  let '(l3, e3, stop) := watchdog u l2 true true alive t3 in
  (exists secs, e1 = [E_log_timing_warn 1 secs])
  /\ (exists secs, e2 = [E_log_timing_warn 2 secs])
  /\ e3 = (if alive then [E_log_timing_limit; E_post_disconnect_request] else [])
  /\ stop = alive
  /\ check_timing_count l3 = 1 /\ last_timing l3 = 0.
Proof.
  intros Hoob Hauto Hlast Hk H1 H2 H3.
  rewrite (watchdog_overdue u l alive t1 Hoob Hauto) by (rewrite ?Hk; assumption || lia).
  rewrite Hk. cbn [Z.ltb Z.compare Pos.compare Pos.compare_cont
                   UDP_TIMING_PACKET_DISCONNECT_CYCLE].
  rewrite (watchdog_overdue u _ alive t2 Hoob Hauto)
    by (cbn [check_timing_count last_timing]; assumption || lia).
  cbn [check_timing_count last_timing offset intvl].
  change (1 + 1 <? UDP_TIMING_PACKET_DISCONNECT_CYCLE) with true. cbv iota.
  rewrite (watchdog_overdue u _ alive t3 Hoob Hauto)
    by (cbn [check_timing_count last_timing]; assumption || lia).
  cbn [check_timing_count last_timing offset intvl].
  change (1 + 1 + 1 <? UDP_TIMING_PACKET_DISCONNECT_CYCLE) with false. cbv iota.
  cbn [check_timing_count last_timing].
  repeat split; try reflexivity; eexists; reflexivity.
Qed.

Section DeliveryProperties.

Context (X : externals).

(** ** Failed sends *)

(** C1, what the code does where the claim fails.  On the TCP transport
    (not out-of-band) a send that fails with EAGAIN is not waited out:
    POLLOUT is not armed, and the failure is logged and answered with a
    disconnect request (auto-reconnect) or is fatal.  A send that fails
    with an errno other than EINTR and EAGAIN is the one that arms
    POLLOUT and keeps the chunk. *)
Theorem would_block_on_tcp_takes_error_branch
    (u : userdata) (l : locals) (canstream on_timeout : bool) (s : send_outcome)
    (now_put : Z) (p : pollfd) (fds : list pollfd) :
  0 < length (memchunk u) ->
  autonull u = false \/ canstream = true ->
  oob u = false ->
  rtpoll_item u = Some (p :: fds) ->
  so_ret s < 0 ->
  so_errno s <> EINTR ->
  let after := mk_memchunk (memblock (memchunk u)) (so_index s) (so_length s) in
  let call := E_client_send_audio_packet (memchunk u) (offset l) (so_ret s) after in
  let u1 := set_memchunk u after in
  deliver X u l canstream on_timeout s now_put =
    if so_errno s =? EAGAIN then
      if autoreconnect u
      then Continue u1 l [call; E_log_write_failed EAGAIN; E_post_disconnect_request]
      else Goto_fail u1 l [call; E_log_write_failed EAGAIN]
    else
      Continue (set_rtpoll_item u1 (Some (mk_pollfd (fd p) POLLOUT 0 :: fds))) l [call].
Proof.
  intros Hlen Hsend Hoob Hitem Hret Herr after call u1.
  unfold deliver.
  apply Z.ltb_lt in Hlen. rewrite Hlen.
  assert (Hs : negb (autonull u) || autonull u && canstream = true).
  { destruct Hsend as [H | H]; rewrite H; [reflexivity | destruct (autonull u); reflexivity]. }
  rewrite Hs.
  apply Z.ltb_lt in Hret. rewrite Hret.
  apply Z.eqb_neq in Herr. rewrite Herr.
  fold after. fold u1. fold call.
  assert (Hoob1 : oob u1 = false) by exact Hoob.
  rewrite Hoob1.
  destruct (so_errno s =? EAGAIN) eqn:Ea; simpl.
  - apply Z.eqb_eq in Ea. rewrite Ea. reflexivity.
  - unfold store_first. assert (Hi : rtpoll_item u1 = Some (p :: fds)) by exact Hitem.
    rewrite Hi. reflexivity.
Qed.

(** A send interrupted by a signal: a disconnect request with
    auto-reconnect, fatal without. *)
Lemma send_interrupted
    (u : userdata) (l : locals) (canstream on_timeout : bool) (s : send_outcome)
    (now_put : Z) :
  0 < length (memchunk u) ->
  autonull u = false \/ canstream = true ->
  so_ret s < 0 ->
  so_errno s = EINTR ->
  let after := mk_memchunk (memblock (memchunk u)) (so_index s) (so_length s) in
  let call := E_client_send_audio_packet (memchunk u) (offset l) (so_ret s) after in
  deliver X u l canstream on_timeout s now_put =
    if autoreconnect u
    then Continue (set_memchunk u after) l [call; E_post_disconnect_request]
    else Goto_fail (set_memchunk u after) l [call].
Proof.
  intros Hlen Hsend Hret Herr after call.
  unfold deliver.
  apply Z.ltb_lt in Hlen. rewrite Hlen.
  assert (Hs : negb (autonull u) || autonull u && canstream = true).
  { destruct Hsend as [H | H]; rewrite H; [reflexivity | destruct (autonull u); reflexivity]. }
  rewrite Hs.
  apply Z.ltb_lt in Hret. rewrite Hret, Herr. reflexivity.
Qed.

End DeliveryProperties.

Lemma would_block_on_tcp_takes_error_branch_witness :
  deliver X0 u_tcp locals_init true false send_eagain 0
    = Goto_fail u_tcp locals_init
        [E_client_send_audio_packet (memchunk u_tcp) 0 (-1) (memchunk u_tcp);
         E_log_write_failed EAGAIN].
Proof.
  apply (would_block_on_tcp_takes_error_branch X0 u_tcp locals_init true false
           send_eagain 0 (mk_pollfd 5 4 4) []);
    first [reflexivity | left; reflexivity | discriminate].
Defined.

(** On TCP it is a failure such as EPIPE that arms POLLOUT and waits. *)
Example broken_pipe_on_tcp_waits_for_pollout :
  deliver X0 u_tcp locals_init true false send_epipe 0
    = Continue (set_rtpoll_item u_tcp (Some [mk_pollfd 5 POLLOUT 0])) locals_init
        [E_client_send_audio_packet (memchunk u_tcp) 0 (-1) (memchunk u_tcp)].
Proof. reflexivity. Qed.

(** ** The audio cursor *)


Lemma accepted_bytes_app (a b : list effect) :
  accepted_bytes (a ++ b) = accepted_bytes a + accepted_bytes b.
Proof. induction a as [| x a IH]; simpl; [reflexivity | rewrite IH; lia]. Qed.

Lemma discarded_bytes_app (a b : list effect) :
  discarded_bytes (a ++ b) = discarded_bytes a + discarded_bytes b.
Proof. induction a as [| x a IH]; simpl; [reflexivity | rewrite IH; lia]. Qed.

Lemma accepted_bytes_nonneg (a : list effect) : 0 <= accepted_bytes a.
Proof.
  induction a as [| x a IH]; simpl; [lia |].
  assert (0 <= accepted_bytes_of x); [| lia].
  destruct x; simpl; try lia.
  destruct (ret <? 0); [lia |].
  pose proof (u64_range (index after - index before)) as H. unfold in_u64 in H. lia.
Qed.

Lemma quiet_bytes (a : list effect) :
  Forall quiet a -> accepted_bytes a = 0 /\ discarded_bytes a = 0.
Proof.
  induction 1 as [| x a [Hx1 Hx2] _ [IH1 IH2]]; simpl; [split; reflexivity |].
  rewrite Hx1, Hx2, IH1, IH2. split; reflexivity.
Qed.

Lemma quiet_close_pollfds (fds : list pollfd) : Forall quiet (close_pollfds fds).
Proof.
  unfold close_pollfds. induction fds as [| p fds IH]; simpl; [constructor |].
  destruct (0 <=? fd p); [constructor; [split; reflexivity | exact IH] | exact IH].
Qed.

Create HintDb cursor.

#[local] Hint Resolve quiet_close_pollfds : cursor.
#[local] Hint Extern 1 (quiet _) => split; reflexivity : cursor.
#[local] Hint Constructors Forall : cursor.

Lemma Forall_quiet_app (a b : list effect) :
  Forall quiet a -> Forall quiet b -> Forall quiet (a ++ b).
Proof. intros Ha Hb. apply Forall_app. split; assumption. Qed.

#[local] Hint Resolve Forall_quiet_app : cursor.


Lemma advances_quiet (u u' : userdata) (eff : list effect) :
  in_u64 (write_count u) ->
  write_count u' = write_count u -> autonull u' = autonull u ->
  Forall quiet eff -> advances u u' eff.
Proof.
  intros Hr Hw Ha Hq. destruct (quiet_bytes _ Hq) as [E1 E2].
  unfold advances. rewrite E1, E2, Hw, Ha, !Z.add_0_r, u64_small by exact Hr.
  repeat split; lia.
Qed.

Section CursorProperties.

Context (X : externals).

Lemma sink_set_volume_cb_quiet (s s' : pa_sink) (eff : list effect) :
  sink_set_volume_cb X s = (s', eff) -> Forall quiet eff.
Proof.
  unfold sink_set_volume_cb. destruct (muted s); intros H; inversion H; auto with cursor.
Qed.

Lemma sink_set_mute_cb_quiet (s s' : pa_sink) (eff : list effect) :
  sink_set_mute_cb X s = (s', eff) -> Forall quiet eff.
Proof.
  unfold sink_set_mute_cb. destruct (muted s).
  - intros H; inversion H; auto with cursor.
  - apply sink_set_volume_cb_quiet.
Qed.

Lemma raop_disconnected_cursor (u u' : userdata) (eff : list effect) :
  raop_disconnected u = (u', eff) ->
  write_count u' = write_count u /\ autonull u' = autonull u /\ Forall quiet eff.
Proof.
  unfold raop_disconnected.
  destruct (rtpoll_item u) as [fds |]; simpl;
    repeat match goal with
           | |- context [if ?b then _ else _] => destruct b
           end;
    intros H; inversion H; subst; simpl; auto 6 with cursor.
Qed.

Lemma raop_authenticated_cursor (u u' : userdata) (e : msg_env) (eff : list effect) :
  raop_authenticated u e = (u', eff) ->
  write_count u' = write_count u /\ autonull u' = autonull u /\ Forall quiet eff.
Proof.
  unfold raop_authenticated.
  repeat match goal with
         | |- context [if ?b then _ else _] => destruct b
         end;
    intros H; inversion H; subst; simpl; auto 6 with cursor.
Qed.

Lemma sink_process_msg_cursor (u u' : userdata) (m : message) (e : msg_env)
    (eff : list effect) (d : option Z) :
  keeps_cursor (Ev_message m e) = true ->
  sink_process_msg X u m e = Ok (u', eff, d) ->
  write_count u' = write_count u /\ autonull u' = autonull u /\ Forall quiet eff.
Proof.
  intros Hk. destruct m as [| | st | code]; simpl.
  - destruct (sink_state_eqb _ _); intros H; inversion H; subst; auto 6 with cursor.
  - intros H; inversion H; subst; auto with cursor.
  - destruct st; simpl in Hk; try discriminate.
    + destruct (raop_disconnected u) as [u1 eff1] eqn:E. intros H; inversion H; subst.
      eapply raop_disconnected_cursor; eassumption.
    + destruct (raop_authenticated u e) as [u1 eff1] eqn:E. intros H; inversion H; subst.
      eapply raop_authenticated_cursor; eassumption.
    + unfold raop_connected. destruct (rtpoll_item u); [discriminate |].
      destruct (me_register e). intros H; inversion H; subst; simpl. auto with cursor.
    + destruct (raop_disconnected u) as [u1 eff1] eqn:E. intros H; inversion H; subst.
      eapply raop_disconnected_cursor; eassumption.
  - intros H; inversion H; subst; auto with cursor.
Qed.

Lemma sink_set_state_cursor (u u' : userdata) (st : pa_sink_state_t) (e : msg_env)
    (eff : list effect) :
  keeps_cursor (Ev_set_state st e) = true ->
  sink_set_state_in_io_thread_cb u st e = Ok (u', eff) ->
  write_count u' = write_count u /\ autonull u' = autonull u /\ Forall quiet eff.
Proof.
  intros Hk. unfold sink_set_state_in_io_thread_cb.
  destruct (sink_state_eqb st _).
  - intros H; inversion H; subst; auto with cursor.
  - destruct st; simpl in Hk; try discriminate;
      repeat match goal with
             | |- context [if ?b then _ else _] => destruct b
             end;
      intros H; inversion H; subst; simpl; auto with cursor.
Qed.


Lemma advances_from (u u1 u' : userdata) (eff : list effect) :
  write_count u1 = write_count u -> autonull u1 = autonull u ->
  advances u1 u' eff -> advances u u' eff.
Proof. unfold advances. intros -> ->. exact (fun H => H). Qed.

Lemma round_advances_from (u u1 : userdata) (r : iter_result) :
  write_count u1 = write_count u -> autonull u1 = autonull u ->
  round_advances u1 r -> round_advances u r.
Proof.
  intros Hw Ha. destruct r; simpl; try exact (fun H => H);
    apply advances_from; assumption.
Qed.

Lemma round_advances_prepend (u : userdata) (eff0 : list effect) (r : iter_result) :
  Forall quiet eff0 -> round_advances u r -> round_advances u (prepend eff0 r).
Proof.
  intros Hq. destruct (quiet_bytes _ Hq) as [E1 E2].
  destruct r; simpl; try exact (fun H => H);
    unfold advances; rewrite accepted_bytes_app, discarded_bytes_app, E1, E2;
    exact (fun H => H).
Qed.

Lemma after_delivery_cursor (u0 u : userdata) (l : locals) (canstream on_timeout : bool)
    (now : Z) (eff : list effect) :
  advances u0 u eff ->
  round_advances u0 (after_delivery X u l canstream on_timeout now eff).
Proof.
  intros H. unfold after_delivery, store_first.
  repeat match goal with
         | |- context [if ?b then _ else _] => destruct b
         | |- context [match rtpoll_item ?v with _ => _ end] =>
             destruct (rtpoll_item v) as [[| ? ?] |]
         end; simpl; try exact I; exact H.
Qed.

Lemma deliver_cursor (u : userdata) (l : locals) (canstream on_timeout : bool)
    (s : send_outcome) (now_put : Z) :
  in_u64 (write_count u) ->
  round_advances u (deliver X u l canstream on_timeout s now_put).
Proof.
  intros Hr. unfold deliver.
  destruct (0 <? length (memchunk u)) eqn:Hlen;
    [| simpl; apply advances_quiet; auto with cursor].
  destruct (negb (autonull u) || autonull u && canstream) eqn:Hs.
  - destruct (so_ret s <? 0) eqn:Hret.
    + assert (Hq : quiet (E_client_send_audio_packet (memchunk u) (offset l) (so_ret s)
                            (mk_memchunk (memblock (memchunk u)) (so_index s) (so_length s)))).
      { split; simpl; [rewrite Hret |]; reflexivity. }
      unfold store_first.
      repeat match goal with
             | |- context [if ?b then _ else _] => destruct b
             | |- context [match rtpoll_item ?v with _ => _ end] =>
                 destruct (rtpoll_item v) as [[| ? ?] |]
             end; simpl; try exact I;
        apply advances_quiet; auto with cursor.
    + apply after_delivery_cursor. unfold advances. simpl. rewrite Hret.
      rewrite !Z.add_0_r. repeat split; try reflexivity; lia.
  - apply after_delivery_cursor. unfold advances. simpl.
    apply Z.ltb_lt in Hlen. rewrite !Z.add_0_r.
    repeat split; try reflexivity; try lia.
    intros Ha. rewrite Ha in Hs. discriminate.
Qed.

Lemma watchdog_quiet (u : userdata) (l l' : locals) (on_timeout canstream alive : bool)
    (now : Z) (eff : list effect) (stop : bool) :
  watchdog u l on_timeout canstream alive now = (l', eff, stop) -> Forall quiet eff.
Proof.
  unfold watchdog.
  repeat match goal with
         | |- context [if ?b then _ else _] => destruct b
         end;
    intros H; inversion H; subst; auto with cursor.
Qed.

Lemma render_cursor (u u' : userdata) (l l' : locals) (now ri : Z) (eff : list effect) :
  render u l now ri = (u', l', eff) ->
  write_count u' = write_count u /\ autonull u' = autonull u /\ Forall quiet eff.
Proof.
  unfold render.
  repeat match goal with
         | |- context [if ?b then _ else _] => destruct b
         end;
    intros H; inversion H; subst; simpl; auto 6 with cursor.
Qed.

Lemma oob_scan_quiet (ar : bool) (n : nat) (ois : list oob_input) (p : nat)
    (fds fds' : list pollfd) (l l' : locals) (eff : list effect) (failed : bool) :
  oob_scan ar n ois p fds l = (fds', l', eff, failed) -> Forall quiet eff.
Proof.
  revert ois p fds l fds' l' eff failed.
  induction n as [| n IH]; intros ois p fds l fds' l' eff failed; simpl.
  - intros H; inversion H; constructor.
  - destruct (negb (Z.land _ POLLERR =? 0)).
    + destruct (ar && _).
      * destruct (oob_scan ar n _ p _ l) as [[[f1 l1] e1] b1] eqn:E.
        intros H; inversion H; subst. constructor; [split; reflexivity |].
        eapply IH; eassumption.
      * intros H; inversion H; constructor.
    + destruct (negb (Z.land _ _ =? 0)).
      * destruct (oob_scan ar n _ (S p) _ _) as [[[f1 l1] e1] b1] eqn:E.
        intros H; inversion H; subst. constructor; [split; reflexivity |].
        eapply IH; eassumption.
      * apply IH.
Qed.

Lemma audio_round_cursor (u : userdata) (l : locals) (e : iter_env) (has_pollfd : bool) :
  in_u64 (write_count u) ->
  round_advances u (audio_round X u l e has_pollfd).
Proof.
  intros Hr. unfold audio_round.
  destruct (negb (sink_state_eqb _ PA_SINK_RUNNING));
    [simpl; apply advances_quiet; auto with cursor |].
  set (p := if first u then _ else _).
  assert (Hp : write_count (fst p) = write_count u /\ autonull (fst p) = autonull u).
  { subst p. destruct (first u); simpl; split; reflexivity. }
  destruct p as [u1 l1]. simpl in Hp. destruct Hp as [Hw Ha].
  destruct (watchdog u1 l1 _ _ _ _) as [[l2 effw] stop] eqn:Ew.
  pose proof (watchdog_quiet _ _ _ _ _ _ _ _ _ Ew) as Hqw.
  destruct stop; [simpl; apply advances_quiet; auto with cursor |].
  destruct (negb (autonull u1) && negb _);
    [simpl; apply advances_quiet; auto with cursor |].
  destruct (negb (autonull u1) && negb has_pollfd); [exact I |].
  destruct (render u1 l2 _ _) as [[u3 l3] effr] eqn:Er.
  destruct (render_cursor _ _ _ _ _ _ _ Er) as (Hw3 & Ha3 & Hqr).
  apply round_advances_prepend; [auto with cursor |].
  apply (round_advances_from u u3); [congruence | congruence |].
  apply deliver_cursor. rewrite Hw3, Hw. exact Hr.
Qed.

Lemma thread_func_round_cursor (u : userdata) (l : locals) (e : iter_env) :
  in_u64 (write_count u) ->
  round_advances u (thread_func_round X u l e).
Proof.
  intros Hr. unfold thread_func_round.
  destruct (ie_poll_ret e <? 0); [simpl; apply advances_quiet; auto with cursor |].
  destruct (ie_poll_ret e =? 0); [simpl; apply advances_quiet; auto with cursor |].
  set (eff0 := if _ && _ then _ else _).
  assert (Hq0 : Forall quiet eff0).
  { subst eff0. destruct (_ && _); auto with cursor. }
  destruct (rtpoll_item u) as [fds0 |].
  - destruct (poll_revents fds0 (ie_revents e)) as [| p0 fds] eqn:Ep.
    + apply round_advances_prepend; [exact Hq0 |].
      apply (round_advances_from u (set_rtpoll_item u (Some []))); try reflexivity.
      apply audio_round_cursor. exact Hr.
    + destruct (negb _ && (revents p0 =? 0));
        [simpl; apply advances_quiet; auto with cursor |].
      destruct (oob _ && negb _).
      * destruct (oob_scan _ _ _ _ _ _) as [[[fds' l'] eff] failed] eqn:Es.
        pose proof (oob_scan_quiet _ _ _ _ _ _ _ _ _ _ Es) as Hqs.
        destruct failed; simpl; apply advances_quiet; auto with cursor.
      * apply round_advances_prepend; [exact Hq0 |].
        apply (round_advances_from u (set_rtpoll_item u (Some (p0 :: fds))));
          try reflexivity.
        apply audio_round_cursor. exact Hr.
  - apply round_advances_prepend; [exact Hq0 |].
    apply audio_round_cursor. exact Hr.
Qed.

End CursorProperties.

Section CursorTheorem.

Context (X : externals).

Lemma advances_trans (u u1 u2 : userdata) (d1 d2 : list effect) :
  advances u u1 d1 -> advances u1 u2 d2 -> advances u u2 (d1 ++ d2).
Proof.
  unfold advances. intros (Hw1 & Ha1 & Hd1 & Hn1) (Hw2 & Ha2 & Hd2 & Hn2).
  rewrite accepted_bytes_app, discarded_bytes_app.
  repeat split.
  - rewrite Hw2, Hw1.
    replace (u64 (write_count u + accepted_bytes d1 + discarded_bytes d1)
             + accepted_bytes d2 + discarded_bytes d2)
      with (u64 (write_count u + accepted_bytes d1 + discarded_bytes d1)
            + (accepted_bytes d2 + discarded_bytes d2)) by lia.
    rewrite u64_add_l. f_equal. lia.
  - congruence.
  - lia.
  - intros H. rewrite Hn1 by exact H. rewrite Hn2 by congruence. reflexivity.
Qed.

Lemma step_cursor (s s' : system) (ev : event) :
  in_u64 (write_count (sys_u s)) ->
  keeps_cursor ev = true ->
  step X s ev = Ok s' ->
  exists delta, sys_log s' = sys_log s ++ delta /\ advances (sys_u s) (sys_u s') delta.
Proof.
  intros Hr Hk. destruct ev as [m e | st e | st | v | b | e]; simpl.
  - destruct (sink_process_msg X (sys_u s) m e) as [[[u' eff] d] | f] eqn:E;
      [| discriminate].
    intros H; inversion H; subst; simpl. exists eff. split; [reflexivity |].
    destruct (sink_process_msg_cursor X _ _ _ _ _ _ Hk E) as (Hw & Ha & Hq).
    apply advances_quiet; assumption.
  - destruct (sink_set_state_in_io_thread_cb (sys_u s) st e) as [[u' eff] | f] eqn:E;
      [| discriminate].
    intros H; inversion H; subst; simpl. exists eff. split; [reflexivity |].
    destruct (sink_set_state_cursor _ _ _ _ _ Hk E) as (Hw & Ha & Hq).
    apply advances_quiet; assumption.
  - intros H; inversion H; subst; simpl. exists []. split; [symmetry; apply app_nil_r |].
    apply advances_quiet; auto with cursor.
  - destruct (sink_set_volume_cb X _) as [sk' eff] eqn:E.
    intros H; inversion H; subst; simpl. exists eff. split; [reflexivity |].
    apply advances_quiet; auto with cursor.
    eapply sink_set_volume_cb_quiet; eassumption.
  - destruct (sink_set_mute_cb X _) as [sk' eff] eqn:E.
    intros H; inversion H; subst; simpl. exists eff. split; [reflexivity |].
    apply advances_quiet; auto with cursor.
    eapply sink_set_mute_cb_quiet; eassumption.
  - destruct (sys_thread s).
    + pose proof (thread_func_round_cursor X (sys_u s) (sys_l s) e Hr) as Hround.
      destruct (thread_func_round X (sys_u s) (sys_l s) e) as [u' l' eff | u' l' eff | u' l' eff | f];
        simpl in Hround; try discriminate;
        intros H; inversion H; subst; simpl.
      * exists eff. split; [reflexivity | exact Hround].
      * exists (eff ++ [E_post_unload_module]). split; [reflexivity |].
        eapply advances_trans; [exact Hround |].
        apply advances_quiet; auto with cursor.
        destruct Hround as [Hw _]. rewrite Hw. apply u64_range.
      * exists eff. split; [reflexivity | exact Hround].
    + intros H; inversion H; subst. exists []. split; [symmetry; apply app_nil_r |].
      apply advances_quiet; auto with cursor.
    + intros H; inversion H; subst. exists []. split; [symmetry; apply app_nil_r |].
      apply advances_quiet; auto with cursor.
Qed.

Lemma run_cursor (evs : list event) (s s' : system) :
  in_u64 (write_count (sys_u s)) ->
  forallb keeps_cursor evs = true ->
  run X s evs = Ok s' ->
  exists delta, sys_log s' = sys_log s ++ delta /\ advances (sys_u s) (sys_u s') delta.
Proof.
  revert s. induction evs as [| ev evs IH]; intros s Hr Hk; simpl.
  - intros H; inversion H; subst. exists []. split; [symmetry; apply app_nil_r |].
    apply advances_quiet; auto with cursor.
  - simpl in Hk. apply andb_prop in Hk. destruct Hk as [Hk1 Hk2].
    destruct (step X s ev) as [s1 | f] eqn:E; [| discriminate].
    intros Hrun.
    destruct (step_cursor _ _ _ Hr Hk1 E) as (d1 & Hl1 & Ha1).
    assert (Hr1 : in_u64 (write_count (sys_u s1))).
    { destruct Ha1 as [Hw _]. rewrite Hw. apply u64_range. }
    destruct (IH s1 Hr1 Hk2 Hrun) as (d2 & Hl2 & Ha2).
    exists (d1 ++ d2). split.
    + rewrite Hl2, Hl1, app_assoc. reflexivity.
    + eapply advances_trans; eassumption.
Qed.

(** In null-sink emulation (auto-null on, client not streamable) a
    buffered chunk is dropped whole and unsent. *)
Lemma deliver_null_discard (u : userdata) (l : locals) (on_timeout : bool)
    (s : send_outcome) (now_put : Z) :
  autonull u = true -> 0 < length (memchunk u) ->
  exists u' l',
    deliver X u l false on_timeout s now_put
      = Continue u' l' [E_null_discard (length (memchunk u))]
    /\ write_count u' = u64 (write_count u + length (memchunk u))
    /\ length (memchunk u') = 0.
Proof.
  intros Ha Hlen. unfold deliver. apply Z.ltb_lt in Hlen. rewrite Hlen, Ha. simpl.
  unfold after_delivery. simpl. rewrite Ha. simpl.
  eexists; eexists; split; [reflexivity |]. simpl. split; reflexivity.
Qed.

(** Outside null-sink emulation nothing is dropped. *)
Lemma deliver_drops_nothing (u : userdata) (l : locals) (canstream on_timeout : bool)
    (s : send_outcome) (now_put : Z) :
  autonull u = false \/ canstream = true ->
  match deliver X u l canstream on_timeout s now_put with
  | Continue _ _ eff | Goto_fail _ _ eff | Goto_finish _ _ eff => discarded_bytes eff = 0
  | Crash _ => True
  end.
Proof.
  intros Hsend.
  assert (Hs : negb (autonull u) || autonull u && canstream = true).
  { destruct Hsend as [H | H]; rewrite H; [reflexivity | destruct (autonull u); reflexivity]. }
  unfold deliver. rewrite Hs.
  destruct (0 <? length (memchunk u)); [| reflexivity].
  destruct (so_ret s <? 0).
  - unfold store_first. split_branches; simpl; try exact I; reflexivity.
  - unfold after_delivery, store_first. split_branches; simpl; try exact I; reflexivity.
Qed.

(** C4. Over any sequence of events that does not restart the cursor
    (no Recording transition, no transition of the sink to Running), the
    cursor ends at its initial value plus the bytes accepted by the
    successful sends in the log (the advances of the chunk index) plus the
    bytes dropped unsent, modulo 2^64.  As long as the total fits in 64
    bits the equality is exact and the cursor does not decrease.  Bytes
    are dropped only with auto-null on while the client cannot stream: a
    delivery then drops the whole buffered chunk without a send, and any
    other delivery drops nothing. *)
Theorem cursor_counts_accepted_bytes (s s' : system) (evs : list event) :
  in_u64 (write_count (sys_u s)) ->
  forallb keeps_cursor evs = true ->
  run X s evs = Ok s' ->
  exists delta,
    sys_log s' = sys_log s ++ delta
    /\ write_count (sys_u s')
       = u64 (write_count (sys_u s) + accepted_bytes delta + discarded_bytes delta)
    /\ (autonull (sys_u s) = false -> discarded_bytes delta = 0)
    /\ (write_count (sys_u s) + accepted_bytes delta + discarded_bytes delta < modulus64 ->
        write_count (sys_u s')
          = write_count (sys_u s) + accepted_bytes delta + discarded_bytes delta
        /\ write_count (sys_u s) <= write_count (sys_u s'))
    /\ (forall u l on_timeout so now_put,
          autonull u = true -> 0 < length (memchunk u) ->
          exists u' l',
            deliver X u l false on_timeout so now_put
              = Continue u' l' [E_null_discard (length (memchunk u))]
            /\ write_count u' = u64 (write_count u + length (memchunk u))
            /\ length (memchunk u') = 0)
    /\ (forall u l canstream on_timeout so now_put,
          autonull u = false \/ canstream = true ->
          match deliver X u l canstream on_timeout so now_put with
          | Continue _ _ eff | Goto_fail _ _ eff | Goto_finish _ _ eff =>
              discarded_bytes eff = 0
          | Crash _ => True
          end).
Proof.
  intros Hr Hk Hrun.
  destruct (run_cursor evs s s' Hr Hk Hrun) as (delta & Hl & Hw & Ha & Hd & Hn).
  exists delta. split; [exact Hl |]. split; [exact Hw |]. split; [exact Hn |].
  split; [| split; [apply deliver_null_discard | apply deliver_drops_nothing]].
  intros Hfit.
  pose proof (accepted_bytes_nonneg delta) as Hacc.
  assert (E : write_count (sys_u s')
              = write_count (sys_u s) + accepted_bytes delta + discarded_bytes delta).
  { rewrite Hw. apply u64_small. unfold in_u64 in *. lia. }
  split; [exact E | lia].
Qed.

End CursorTheorem.

Lemma cursor_counts_accepted_bytes_witness :
  exists s',
    run X0 s_tcp [Ev_round round_send_all; Ev_message PA_SINK_MESSAGE_GET_LATENCY e_up]
      = Ok s'
    /\ write_count (sys_u s') = 4096.
Proof.
  pose (evs := [Ev_round round_send_all; Ev_message PA_SINK_MESSAGE_GET_LATENCY e_up]).
  fold evs.
  destruct (run X0 s_tcp evs) as [s' | f] eqn:E; [| vm_compute in E; discriminate].
  exists s'. split; [reflexivity |].
  assert (Hr : in_u64 (write_count (sys_u s_tcp))).
  { vm_compute. split; [discriminate | reflexivity]. }
  assert (Hk : forallb keeps_cursor evs = true) by reflexivity.
  destruct (cursor_counts_accepted_bytes X0 s_tcp s' evs Hr Hk E)
    as (delta & Hl & Hw & _).
  vm_compute in E. injection E as Es. subst s'.
  simpl in Hl. subst delta. exact Hw.
Defined.

(** ** What no step changes *)



Lemma stable_refl (u : userdata) : stable u u.
Proof. unfold stable. auto. Qed.

Lemma stable_trans (u u1 u2 : userdata) : stable u u1 -> stable u1 u2 -> stable u u2.
Proof. unfold stable. intros (A1 & B1 & C1) (A2 & B2 & C2). repeat split; try congruence; auto. Qed.

Lemma round_stable_from (u u1 : userdata) (r : iter_result) :
  stable u u1 -> round_stable u1 r -> round_stable u r.
Proof. intros H. destruct r; simpl; auto; apply stable_trans; exact H. Qed.

Lemma round_stable_prepend (u : userdata) (eff : list effect) (r : iter_result) :
  round_stable u r -> round_stable u (prepend eff r).
Proof. destruct r; simpl; auto. Qed.



Section Stability.

Context (X : externals).

Lemma after_delivery_stable (u0 u : userdata) (l : locals) (canstream on_timeout : bool)
    (now : Z) (eff : list effect) :
  stable u0 u -> round_stable u0 (after_delivery X u l canstream on_timeout now eff).
Proof.
  intros H. unfold after_delivery, store_first. split_branches; simpl; try discriminate; stable_tac.
Qed.

Lemma deliver_stable (u : userdata) (l : locals) (canstream on_timeout : bool)
    (s : send_outcome) (now_put : Z) :
  round_stable u (deliver X u l canstream on_timeout s now_put).
Proof.
  unfold deliver.
  destruct (0 <? length (memchunk u)); [| apply stable_refl].
  destruct (negb (autonull u) || autonull u && canstream).
  - destruct (so_ret s <? 0).
    + unfold store_first. split_branches; simpl; try discriminate; stable_tac.
    + apply after_delivery_stable. stable_tac.
  - apply after_delivery_stable. stable_tac.
Qed.

Lemma render_stable (u u' : userdata) (l l' : locals) (now ri : Z) (eff : list effect) :
  render u l now ri = (u', l', eff) -> stable u u'.
Proof.
  unfold render. split_branches; intros H; inversion H; subst; stable_tac.
Qed.

Lemma audio_round_stable (u : userdata) (l : locals) (e : iter_env) (has_pollfd : bool) :
  round_stable u (audio_round X u l e has_pollfd).
Proof.
  unfold audio_round.
  destruct (negb (sink_state_eqb _ PA_SINK_RUNNING)); [apply stable_refl |].
  set (p := if first u then _ else _).
  assert (Hp : stable u (fst p)).
  { subst p. destruct (first u); simpl; stable_tac. }
  destruct p as [u1 l1]. simpl in Hp.
  destruct (watchdog u1 l1 _ _ _ _) as [[l2 effw] stop].
  destruct stop; [exact Hp |].
  destruct (negb (autonull u1) && negb _); [exact Hp |].
  destruct (negb (autonull u1) && negb has_pollfd); [discriminate |].
  destruct (render u1 l2 _ _) as [[u3 l3] effr] eqn:Er.
  apply round_stable_prepend.
  apply (round_stable_from u u3).
  - eapply stable_trans; [exact Hp | eapply render_stable; exact Er].
  - apply deliver_stable.
Qed.

Lemma thread_func_round_stable (u : userdata) (l : locals) (e : iter_env) :
  round_stable u (thread_func_round X u l e).
Proof.
  unfold thread_func_round.
  destruct (ie_poll_ret e <? 0); [apply stable_refl |].
  destruct (ie_poll_ret e =? 0); [apply stable_refl |].
  destruct (rtpoll_item u) as [fds0 |] eqn:Ei.
  - destruct (poll_revents fds0 (ie_revents e)) as [| p0 fds].
    + apply round_stable_prepend.
      apply (round_stable_from u (set_rtpoll_item u (Some []))); [stable_tac |].
      apply audio_round_stable.
    + destruct (negb _ && (revents p0 =? 0)); [simpl; stable_tac |].
      destruct (oob _ && negb _).
      * destruct (oob_scan _ _ _ _ _ _) as [[[fds' l'] eff] failed].
        destruct failed; simpl; stable_tac.
      * apply round_stable_prepend.
        apply (round_stable_from u (set_rtpoll_item u (Some (p0 :: fds)))); [stable_tac |].
        apply audio_round_stable.
  - apply round_stable_prepend. apply audio_round_stable.
Qed.

Lemma raop_disconnected_releases (u u' : userdata) (eff : list effect) :
  raop_disconnected u = (u', eff) ->
  autonull u' = autonull u /\ autoreconnect u' = autoreconnect u /\ rtpoll_item u' = None.
Proof.
  unfold raop_disconnected.
  destruct (rtpoll_item u) as [fds |] eqn:Ei; simpl; split_branches;
    intros H; inversion H; subst; simpl; repeat split; congruence.
Qed.

Lemma raop_recording_stable (u u' : userdata) (now : Z) (eff : list effect) :
  raop_recording X u now = (u', eff) ->
  autonull u' = autonull u /\ autoreconnect u' = autoreconnect u
  /\ rtpoll_item u' = rtpoll_item u.
Proof.
  unfold raop_recording. simpl.
  destruct (sink_state_eqb _ PA_SINK_SUSPENDED).
  - intros H; inversion H; subst; simpl; repeat split; congruence.
  - destruct (sink_set_volume_cb X _) as [s' eff']. intros H; inversion H; subst; simpl; repeat split; congruence.
Qed.

Lemma raop_authenticated_stable (u u' : userdata) (e : msg_env) (eff : list effect) :
  raop_authenticated u e = (u', eff) ->
  autonull u' = autonull u /\ autoreconnect u' = autoreconnect u
  /\ rtpoll_item u' = rtpoll_item u.
Proof.
  unfold raop_authenticated. split_branches; intros H; inversion H; subst; simpl; repeat split; congruence.
Qed.

(** The Disconnected branch logs the release of the handles before
    whatever it does about the lost connection. *)
Lemma raop_disconnected_order (u u' : userdata) (eff : list effect) :
  raop_disconnected u = (u', eff) ->
  exists action,
    eff = release_poll_handles u ++ action
    /\ (action = [] \/ action = [E_client_authenticate]
        \/ action = [E_module_unload_request]).
Proof.
  unfold raop_disconnected, release_poll_handles.
  destruct (rtpoll_item u) as [fds |] eqn:Ei; simpl; rewrite <- ?close_pollfds_closes;
    split_branches;
    intros H; inversion H; subst;
    first [ exists (@nil effect); split; [rewrite ?app_nil_r; reflexivity | auto]
          | exists [E_client_authenticate]; split; [reflexivity | auto]
          | exists [E_module_unload_request]; split; [reflexivity | auto] ].
Qed.

(** The flags under any message. *)
Lemma sink_process_msg_flags (u u' : userdata) (m : message) (e : msg_env)
    (eff : list effect) (d : option Z) :
  sink_process_msg X u m e = Ok (u', eff, d) ->
  autonull u' = autonull u /\ autoreconnect u' = autoreconnect u.
Proof.
  destruct m as [| | st | code]; simpl.
  - destruct (sink_state_eqb _ _); intros H; inversion H; subst; repeat split; congruence.
  - intros H; inversion H; subst; repeat split; congruence.
  - destruct st.
    + destruct (raop_disconnected u) as [u1 eff1] eqn:E. intros H; inversion H; subst.
      destruct (raop_disconnected_releases _ _ _ E) as (A & B & _). auto.
    + destruct (raop_authenticated u e) as [u1 eff1] eqn:E. intros H; inversion H; subst.
      destruct (raop_authenticated_stable _ _ _ _ E) as (A & B & _). auto.
    + unfold raop_connected. destruct (rtpoll_item u); [discriminate |].
      destruct (me_register e). intros H; inversion H; subst; simpl. auto.
    + destruct (raop_recording X u (me_now e)) as [u1 eff1] eqn:E.
      intros H; inversion H; subst.
      destruct (raop_recording_stable _ _ _ _ E) as (A & B & _). auto.
    + destruct (raop_disconnected u) as [u1 eff1] eqn:E. intros H; inversion H; subst.
      destruct (raop_disconnected_releases _ _ _ E) as (A & B & _). auto.
  - intros H; inversion H; subst; repeat split; congruence.
Qed.

(** The poll item under a message other than a state notification. *)
Lemma sink_process_msg_item (u u' : userdata) (m : message) (e : msg_env)
    (eff : list effect) (d : option Z) :
  (forall st, m <> PA_SINK_MESSAGE_SET_RAOP_STATE st) ->
  sink_process_msg X u m e = Ok (u', eff, d) -> rtpoll_item u' = rtpoll_item u.
Proof.
  intros Hm. destruct m as [| | st | code]; simpl.
  - destruct (sink_state_eqb _ _); intros H; inversion H; subst; repeat split; congruence.
  - intros H; inversion H; subst; repeat split; congruence.
  - exfalso. apply (Hm st). reflexivity.
  - intros H; inversion H; subst; repeat split; congruence.
Qed.

Lemma sink_set_state_stable (u u' : userdata) (st : pa_sink_state_t) (e : msg_env)
    (eff : list effect) :
  sink_set_state_in_io_thread_cb u st e = Ok (u', eff) ->
  autonull u' = autonull u /\ autoreconnect u' = autoreconnect u
  /\ rtpoll_item u' = rtpoll_item u.
Proof.
  unfold sink_set_state_in_io_thread_cb.
  destruct (sink_state_eqb st _); [intros H; inversion H; subst; repeat split; congruence |].
  destruct st; split_branches; intros H; inversion H; subst; simpl; repeat split; congruence.
Qed.

(** The flags under any step of the system. *)
Lemma step_flags (s s' : system) (ev : event) :
  step X s ev = Ok s' ->
  autonull (sys_u s') = autonull (sys_u s)
  /\ autoreconnect (sys_u s') = autoreconnect (sys_u s).
Proof.
  destruct ev as [m e | st e | st | v | b | e]; simpl.
  - destruct (sink_process_msg X (sys_u s) m e) as [[[u' eff] d] | f] eqn:E;
      [| discriminate].
    intros H; inversion H; subst; simpl. eapply sink_process_msg_flags; eassumption.
  - destruct (sink_set_state_in_io_thread_cb (sys_u s) st e) as [[u' eff] | f] eqn:E;
      [| discriminate].
    intros H; inversion H; subst; simpl.
    destruct (sink_set_state_stable _ _ _ _ _ E) as (A & B & _). auto.
  - intros H; inversion H; subst; simpl. auto.
  - destruct (sink_set_volume_cb X _) as [sk' eff]. intros H; inversion H; subst; simpl. auto.
  - destruct (sink_set_mute_cb X _) as [sk' eff]. intros H; inversion H; subst; simpl. auto.
  - destruct (sys_thread s); [| intros H; inversion H; subst; auto ..].
    pose proof (thread_func_round_stable (sys_u s) (sys_l s) e) as Hround.
    destruct (thread_func_round X (sys_u s) (sys_l s) e); simpl in Hround;
      try discriminate; intros H; inversion H; subst; simpl;
      destruct Hround as (A & B & _); auto.
Qed.

(** The poll item under a step that is not a state notification. *)
Lemma step_item (s s' : system) (ev : event) :
  (forall st e, ev <> Ev_message (PA_SINK_MESSAGE_SET_RAOP_STATE st) e) ->
  step X s ev = Ok s' ->
  rtpoll_item (sys_u s) = None -> rtpoll_item (sys_u s') = None.
Proof.
  intros Hev. destruct ev as [m e | st e | st | v | b | e]; simpl.
  - destruct (sink_process_msg X (sys_u s) m e) as [[[u' eff] d] | f] eqn:E;
      [| discriminate].
    intros H; inversion H; subst; simpl. intros Hi.
    rewrite (sink_process_msg_item _ _ _ _ _ _ (fun st Hm => Hev st e (f_equal (fun m => Ev_message m e) Hm)) E).
    exact Hi.
  - destruct (sink_set_state_in_io_thread_cb (sys_u s) st e) as [[u' eff] | f] eqn:E;
      [| discriminate].
    intros H; inversion H; subst; simpl.
    destruct (sink_set_state_stable _ _ _ _ _ E) as (_ & _ & C). congruence.
  - intros H; inversion H; subst; simpl. auto.
  - destruct (sink_set_volume_cb X _) as [sk' eff]. intros H; inversion H; subst; simpl. auto.
  - destruct (sink_set_mute_cb X _) as [sk' eff]. intros H; inversion H; subst; simpl. auto.
  - destruct (sys_thread s); [| intros H; inversion H; subst; auto ..].
    pose proof (thread_func_round_stable (sys_u s) (sys_l s) e) as Hround.
    destruct (thread_func_round X (sys_u s) (sys_l s) e); simpl in Hround;
      try discriminate; intros H; inversion H; subst; simpl;
      destruct Hround as (_ & _ & C); exact C.
Qed.

Lemma run_flags (evs : list event) (s s' : system) :
  run X s evs = Ok s' ->
  autonull (sys_u s') = autonull (sys_u s)
  /\ autoreconnect (sys_u s') = autoreconnect (sys_u s).
Proof.
  revert s. induction evs as [| ev evs IH]; intros s; simpl.
  - intros H; inversion H; subst. auto.
  - destruct (step X s ev) as [s1 | f] eqn:E; [| discriminate].
    intros Hrun. destruct (IH _ Hrun) as [A B].
    destruct (step_flags _ _ _ E) as [A1 B1]. split; congruence.
Qed.

(** What [pa_raop_sink_new] establishes. *)
Lemma boot_established (ma : pa_modargs) (e : new_env) (now : Z) (s0 : system) :
  boot X ma e now = Some s0 ->
  autonull (sys_u s0) = autoreconnect (sys_u s0)
  /\ ne_get_value_boolean e ma "autoreconnect" false = Some (autoreconnect (sys_u s0))
  /\ rtpoll_item (sys_u s0) = None.
Proof.
  unfold boot.
  destruct (pa_raop_sink_new X ma e) as [[u eff] |] eqn:E; [| discriminate].
  intros H; inversion H; subst; clear H. simpl.
  assert (Hu : autonull u = autoreconnect u
               /\ ne_get_value_boolean e ma "autoreconnect" false = Some (autoreconnect u)
               /\ rtpoll_item u = None).
  { revert E. unfold pa_raop_sink_new.
    repeat match goal with
           | |- match ?x with _ => _ end = _ -> _ => destruct x eqn:?
           end; try discriminate.
    intros H; inversion H; subst; simpl. auto. }
  unfold thread_func_start. destruct (USE_SMOOTHER_2 X); simpl; exact Hu.
Qed.

(** A step other than a state notification does not abort on the
    assertion of the Connected transition. *)
Lemma step_other_fault (s : system) (ev : event) (f : fault) :
  (forall st e, ev <> Ev_message (PA_SINK_MESSAGE_SET_RAOP_STATE st) e) ->
  step X s ev = Abort f -> f <> Assert_rtpoll_item_null.
Proof.
  intros Hev. destruct ev as [m e | st e | st | v | b | e]; simpl.
  - destruct m as [| | st | code]; simpl; try discriminate.
    + destruct (sink_state_eqb _ _); discriminate.
    + exfalso. apply (Hev st e). reflexivity.
  - unfold sink_set_state_in_io_thread_cb.
    destruct (sink_state_eqb st _); [discriminate |].
    destruct st; split_branches; intros H; inversion H; discriminate.
  - discriminate.
  - destruct (sink_set_volume_cb X _); discriminate.
  - destruct (sink_set_mute_cb X _); discriminate.
  - destruct (sys_thread s); try discriminate.
    pose proof (thread_func_round_stable (sys_u s) (sys_l s) e) as Hround.
    destruct (thread_func_round X (sys_u s) (sys_l s) e); simpl in Hround;
      try discriminate.
    intros H; inversion H; subst. exact Hround.
Qed.

(** The invariant behind the Connected assertion: while the client has
    not reported Connected since the last loss, the poll item is null. *)
Lemma run_poll_item_invariant (evs : list event) (connected : bool) (s : system) :
  (connected = false -> rtpoll_item (sys_u s) = None) ->
  follows_protocol connected evs = true ->
  match run X s evs with
  | Ok s' => connection_up connected evs = false -> rtpoll_item (sys_u s') = None
  | Abort f => f <> Assert_rtpoll_item_null
  end.
Proof.
  revert connected s. induction evs as [| ev evs IH]; intros connected s Hinv Hp; simpl.
  - exact Hinv.
  - assert (Hother :
      (forall st e, ev <> Ev_message (PA_SINK_MESSAGE_SET_RAOP_STATE st) e) ->
      follows_protocol connected evs = true ->
      match match step X s ev with Ok s1 => run X s1 evs | Abort f => Abort f end with
      | Ok s' => connection_up connected evs = false -> rtpoll_item (sys_u s') = None
      | Abort f => f <> Assert_rtpoll_item_null
      end).
    { intros Hev Hp'. destruct (step X s ev) as [s1 | f] eqn:E.
      - apply IH; [| exact Hp']. intros Hb. eapply step_item; eauto.
      - eapply step_other_fault; eassumption. }
    destruct ev as [m e | st e | st | v | b | e];
      try (apply Hother; [intros ? ?; discriminate | exact Hp]).
    destruct m as [| | st | code];
      try (apply Hother; [intros ? ?; discriminate | exact Hp]).
    cbn [step].
    destruct st; cbn [sink_process_msg]; cbn [follows_protocol] in Hp.
    + destruct (raop_disconnected (sys_u s)) as [u1 eff1] eqn:E.
      apply IH; [| exact Hp]. intros _. simpl.
      destruct (raop_disconnected_releases _ _ _ E) as (_ & _ & C). exact C.
    + destruct (raop_authenticated (sys_u s) e) as [u1 eff1] eqn:E.
      apply IH; [| exact Hp]. intros Hc. simpl.
      destruct (raop_authenticated_stable _ _ _ _ E) as (_ & _ & C). rewrite C.
      apply Hinv. exact Hc.
    + apply andb_prop in Hp. destruct Hp as [Hc Hp]. apply negb_true_iff in Hc.
      unfold raop_connected. rewrite (Hinv Hc).
      destruct (me_register e) as [is_oob item].
      apply IH; [| exact Hp]. intros Hb. discriminate Hb.
    + destruct (raop_recording X (sys_u s) (me_now e)) as [u1 eff1] eqn:E.
      apply IH; [| exact Hp]. intros Hc. simpl.
      destruct (raop_recording_stable _ _ _ _ E) as (_ & _ & C). rewrite C.
      apply Hinv. exact Hc.
    + destruct (raop_disconnected (sys_u s)) as [u1 eff1] eqn:E.
      apply IH; [| exact Hp]. intros _. simpl.
      destruct (raop_disconnected_releases _ _ _ E) as (_ & _ & C). exact C.
Qed.

Lemma follows_protocol_app (a b : list event) (connected : bool) :
  follows_protocol connected (a ++ b)
    = follows_protocol connected a && follows_protocol (connection_up connected a) b.
Proof.
  revert connected. induction a as [| ev a IH]; intros connected; simpl; [reflexivity |].
  destruct ev as [m e | st e | st | v | b0 | e]; try apply IH.
  destruct m as [| | st | code]; try apply IH.
  destruct st; rewrite IH; try reflexivity.
  rewrite andb_assoc. reflexivity.
Qed.

Lemma run_app (a b : list event) (s : system) :
  run X s (a ++ b)
    = match run X s a with Ok s1 => run X s1 b | Abort f => Abort f end.
Proof.
  revert s. induction a as [| ev a IH]; intros s; simpl; [reflexivity |].
  destruct (step X s ev) as [s1 | f]; [apply IH | reflexivity].
Qed.

(** ** The linked flags *)

(** C9. For every sink [pa_raop_sink_new] constructs, and after any
    sequence of events, the auto-null flag equals the auto-reconnect flag,
    which is the value the "autoreconnect" argument was parsed to (false
    when absent).  So while the client cannot stream, the latency query
    computes the smoother-based latency exactly when auto-reconnect was
    requested, and stores 0 otherwise. *)
Theorem autonull_is_autoreconnect
    (ma : pa_modargs) (e : new_env) (now : Z) (s0 s' : system) (evs : list event) :
  boot X ma e now = Some s0 ->
  run X s0 evs = Ok s' ->
  autonull (sys_u s') = autoreconnect (sys_u s')
  /\ ne_get_value_boolean e ma "autoreconnect" false = Some (autoreconnect (sys_u s'))
  /\ (forall me : msg_env,
        can_stream (me_client me) = false ->
        sink_process_msg X (sys_u s') PA_SINK_MESSAGE_GET_LATENCY me
          = Ok (sys_u s', [],
                Some (if autoreconnect (sys_u s')
                      then sink_get_latency X (sys_u s') (me_now me) else 0))).
Proof.
  intros Hboot Hrun.
  destruct (boot_established _ _ _ _ Hboot) as (H1 & H2 & _).
  destruct (run_flags _ _ _ Hrun) as [A B].
  assert (Hlink : autonull (sys_u s') = autoreconnect (sys_u s')) by congruence.
  split; [exact Hlink |]. split; [rewrite B; exact H2 |].
  intros me Hc. simpl. rewrite Hc, Hlink, orb_false_r. reflexivity.
Qed.

(** ** The assertion of the Connected transition *)

(** C8. From a constructed sink, along any sequence of events in which
    the client does not report Connected a second time before it has
    reported the loss of the connection, the run never aborts on the
    assertion of the Connected transition: whenever Connected is handled
    the poll item is null, and the transition registers the client's
    handles.  The reason is the invariant that after a Disconnected or
    Invalid transition, and until Connected is reported, the item is null:
    such a transition always ends with a null item, the release of the
    handles logged before its reconnect or unload action. *)
Theorem connected_finds_no_poll_item
    (ma : pa_modargs) (e : new_env) (now : Z) (s0 : system) (evs : list event) :
  boot X ma e now = Some s0 ->
  follows_protocol false evs = true ->
  match run X s0 evs with
  | Ok s' => connection_up false evs = false -> rtpoll_item (sys_u s') = None
  | Abort f => f <> Assert_rtpoll_item_null
  end
  /\ (forall (before after : list event) (me : msg_env) (s1 : system),
        evs = before
                ++ Ev_message (PA_SINK_MESSAGE_SET_RAOP_STATE PA_RAOP_CONNECTED) me :: after ->
        run X s0 before = Ok s1 ->
        rtpoll_item (sys_u s1) = None
        /\ sink_process_msg X (sys_u s1) (PA_SINK_MESSAGE_SET_RAOP_STATE PA_RAOP_CONNECTED) me
           = Ok (set_oob (set_rtpoll_item (sys_u s1) (snd (me_register me)))
                   (fst (me_register me)),
                 [E_client_register_pollfd], None))
  /\ (forall (u u' : userdata) (st : pa_raop_state_t) (me : msg_env)
             (eff : list effect) (d : option Z),
        st = PA_RAOP_DISCONNECTED \/ st = PA_RAOP_INVALID_STATE ->
        sink_process_msg X u (PA_SINK_MESSAGE_SET_RAOP_STATE st) me = Ok (u', eff, d) ->
        rtpoll_item u' = None
        /\ exists action,
             eff = release_poll_handles u ++ action
             /\ (action = [] \/ action = [E_client_authenticate]
                 \/ action = [E_module_unload_request])).
Proof.
  intros Hboot Hp.
  destruct (boot_established _ _ _ _ Hboot) as (_ & _ & Hi).
  split; [| split].
  - apply run_poll_item_invariant; [intros _; exact Hi | exact Hp].
  - intros before after me s1 Hevs Hrun. subst evs.
    rewrite follows_protocol_app in Hp. apply andb_prop in Hp. destruct Hp as [Hp1 Hp2].
    cbn [follows_protocol] in Hp2. apply andb_prop in Hp2. destruct Hp2 as [Hc _].
    apply negb_true_iff in Hc.
    pose proof (run_poll_item_invariant before false s0 (fun _ => Hi) Hp1) as Hinv.
    rewrite Hrun in Hinv. specialize (Hinv Hc).
    split; [exact Hinv |].
    cbn [sink_process_msg]. unfold raop_connected. rewrite Hinv.
    destruct (me_register me) as [is_oob item]. reflexivity.
  - intros u u' st me eff d Hst.
    assert (E : sink_process_msg X u (PA_SINK_MESSAGE_SET_RAOP_STATE st) me
                = let '(u1, eff1) := raop_disconnected u in Ok (u1, eff1, None)).
    { destruct Hst; subst st; reflexivity. }
    rewrite E. destruct (raop_disconnected u) as [u1 eff1] eqn:Ed.
    intros H; inversion H; subst. split.
    + destruct (raop_disconnected_releases _ _ _ Ed) as (_ & _ & C). exact C.
    + eapply raop_disconnected_order; exact Ed.
Qed.

End Stability.

Lemma autonull_is_autoreconnect_witness :
  exists s',
    run X0 s_boot reconnect_cycle = Ok s'
    /\ autonull (sys_u s') = autoreconnect (sys_u s')
    /\ autoreconnect (sys_u s') = true.
Proof.
  destruct (run X0 s_boot reconnect_cycle) as [s' | f] eqn:E;
    [| vm_compute in E; discriminate].
  exists s'. split; [reflexivity |].
  destruct (autonull_is_autoreconnect X0 ma0 ne0 0 s_boot s' reconnect_cycle eq_refl E)
    as (H1 & H2 & _).
  split; [exact H1 |].
  vm_compute in H2. injection H2 as H2. symmetry. exact H2.
Defined.

Lemma connected_finds_no_poll_item_witness :
  exists s1,
    run X0 s_boot (firstn 11 suspend_resume) = Ok s1
    /\ rtpoll_item (sys_u s1) = None
    /\ sink_process_msg X0 (sys_u s1) (PA_SINK_MESSAGE_SET_RAOP_STATE PA_RAOP_CONNECTED) e_down
       = Ok (set_oob (set_rtpoll_item (sys_u s1) (Some [mk_pollfd 5 0 0])) false,
             [E_client_register_pollfd], None).
Proof.
  assert (Hb : boot X0 ma0 ne0 0 = Some s_boot) by reflexivity.
  assert (Hp : follows_protocol false suspend_resume = true) by reflexivity.
  destruct (connected_finds_no_poll_item X0 ma0 ne0 0 s_boot suspend_resume Hb Hp)
    as (_ & H & _).
  destruct (run X0 s_boot (firstn 11 suspend_resume)) as [s1 | f] eqn:E.
  - exists s1. split; [reflexivity |].
    apply (H (firstn 11 suspend_resume) (skipn 12 suspend_resume) e_down s1);
      [reflexivity | exact E].
  - exfalso. vm_compute in E. discriminate E.
Defined.

(** What the order of the notifications is needed for: were the client to
    report Connected twice with no loss between, the second transition
    would fail the assertion. *)
Example connected_twice_fails_assertion :
  run X0 s_boot
    [Ev_message (PA_SINK_MESSAGE_SET_RAOP_STATE PA_RAOP_CONNECTED) e_down;
     Ev_message (PA_SINK_MESSAGE_SET_RAOP_STATE PA_RAOP_CONNECTED) e_down]
    = Abort Assert_rtpoll_item_null.
Proof. reflexivity. Qed.

(** ** The I/O loop, round by round *)

Lemma round_log_prepend (eff : list effect) (r : iter_result) :
  round_log (prepend eff r) = match r with Crash _ => [] | _ => eff ++ round_log r end.
Proof. destruct r; reflexivity. Qed.

Lemma round_state_prepend (eff : list effect) (r : iter_result) :
  round_state (prepend eff r) = round_state r.
Proof. destruct r; reflexivity. Qed.

Lemma forallb_round_log_prepend (f : effect -> bool) (eff : list effect) (r : iter_result) :
  forallb f eff = true -> forallb f (round_log r) = true ->
  forallb f (round_log (prepend eff r)) = true.
Proof.
  intros H1 H2. rewrite round_log_prepend. destruct r; simpl in *;
    try reflexivity; rewrite forallb_app, H1, H2; reflexivity.
Qed.

Section LoopEquations.

Context (X : externals).

(** The audio part of a round, its intermediate results named. *)
Lemma audio_round_eq (u : userdata) (l : locals) (e : iter_env) (has_pollfd : bool) :
  audio_round X u l e has_pollfd =
    if negb (sink_state_eqb (thread_info_state (sink u)) PA_SINK_RUNNING) then
      Continue u l []
    else
      let u1 := fst (first_round u l) in
      let w := watchdog u1 (snd (first_round u l)) (ie_on_timeout e)
                 (can_stream (ie_client e)) (is_alive (ie_client e)) (ie_now e) in
      if snd w then Continue u1 (fst (fst w)) (snd (fst w))
      else if negb (autonull u1) && negb (can_stream (ie_client e)) then
        Continue u1 (fst (fst w)) (snd (fst w))
      else if negb (autonull u1) && negb has_pollfd then Crash Assert_pollfd
      else
        let rd := render u1 (fst (fst w)) (ie_now e) (ie_render_index e) in
        prepend (snd (fst w) ++ snd rd)
          (deliver X (fst (fst rd)) (snd (fst rd)) (can_stream (ie_client e))
             (ie_on_timeout e) (ie_send e) (ie_now_put e)).
Proof.
  unfold audio_round, first_round.
  destruct (negb (sink_state_eqb _ PA_SINK_RUNNING)); [reflexivity |].
  destruct (first u); cbn [fst snd];
    destruct (watchdog _ _ _ _ _ _) as [[l2 effw] stop]; cbn [fst snd];
    destruct stop; try reflexivity;
    destruct (negb _ && negb (can_stream _)); try reflexivity;
    destruct (negb _ && negb has_pollfd); try reflexivity;
    destruct (render _ _ _ _) as [[u3 l3] effr]; reflexivity.
Qed.

(** A round, the result of the out-of-band scan named. *)
Lemma thread_func_round_eq (u : userdata) (l : locals) (e : iter_env) :
  thread_func_round X u l e =
    if ie_poll_ret e <? 0 then Goto_fail u l []
    else if ie_poll_ret e =? 0 then Goto_finish u l []
    else
      let eff0 :=
        if PA_SINK_IS_OPENED (thread_info_state (sink u)) && ie_rewind_requested e
        then [E_sink_process_rewind] else [] in
      match rtpoll_item u with
      | Some fds0 =>
          let fds := poll_revents fds0 (ie_revents e) in
          let u0 := set_rtpoll_item u (Some fds) in
          match fds with
          | p0 :: _ =>
              if negb (oob u0) && (revents p0 =? 0) then
                Continue
                  (set_rtpoll_item u0 (Some (map (fun p => mk_pollfd (fd p) POLLOUT 0) fds)))
                  l eff0
              else if oob u0 && negb (ie_on_timeout e) then
                let sc := oob_scan (autoreconnect u0) (List.length fds) (ie_oob e) 0 fds l in
                let u1 := set_rtpoll_item u0 (Some (fst (fst (fst sc)))) in
                if snd sc then Goto_fail u1 (snd (fst (fst sc))) (eff0 ++ snd (fst sc))
                else Continue u1 (snd (fst (fst sc))) (eff0 ++ snd (fst sc))
              else prepend eff0 (audio_round X u0 l e true)
          | [] => prepend eff0 (audio_round X u0 l e false)
          end
      | None => prepend eff0 (audio_round X u l e false)
      end.
Proof.
  unfold thread_func_round.
  destruct (ie_poll_ret e <? 0); [reflexivity |].
  destruct (ie_poll_ret e =? 0); [reflexivity |].
  destruct (rtpoll_item u) as [fds0 |]; [| reflexivity].
  cbv zeta. destruct (poll_revents fds0 (ie_revents e)) as [| p0 fds]; [reflexivity |].
  destruct (negb _ && (revents p0 =? 0)); [reflexivity |].
  destruct (oob _ && negb _); [| reflexivity].
  destruct (oob_scan _ _ _ _ _ _) as [[[fds' l'] eff] failed]. reflexivity.
Qed.

End LoopEquations.

(** *** What each part of a round can log *)

Lemma forallb_impl (f g : effect -> bool) (eff : list effect) :
  (forall ev, f ev = true -> g ev = true) ->
  forallb f eff = true -> forallb g eff = true.
Proof.
  intros Hfg. induction eff as [| ev eff IH]; simpl; [reflexivity |].
  intros H. apply andb_prop in H. destruct H as [H1 H2].
  rewrite (Hfg _ H1), (IH H2). reflexivity.
Qed.

Lemma oob_scan_log (ar : bool) (n : nat) (ois : list oob_input) (p : nat)
    (fds : list pollfd) (l : locals) :
  forallb (scan_effect ar) (snd (fst (oob_scan ar n ois p fds l))) = true.
Proof.
  revert ois p fds l. induction n as [| n IH]; intros ois p fds l; simpl; [reflexivity |].
  destruct (negb (Z.land _ POLLERR =? 0)).
  - destruct ar; simpl; [| reflexivity].
    destruct (oi_alive _); simpl; [| reflexivity].
    specialize (IH (tl ois) p (store_pollfd fds p (set_revents (nth p fds (mk_pollfd (-1) 0 0)) 0)) l).
    destruct (oob_scan true n _ p _ l) as [[[f1 l1] e1] b1]. simpl in *. exact IH.
  - destruct (negb (Z.land _ _ =? 0)).
    + match goal with
      | |- context [oob_scan ar n ?a ?b ?c ?d] =>
          specialize (IH a b c d); destruct (oob_scan ar n a b c d) as [[[f1 l1] e1] b1]
      end. simpl in *. exact IH.
    + apply IH.
Qed.

Lemma watchdog_log (u : userdata) (l : locals) (on_timeout canstream alive : bool) (now : Z) :
  forallb (watchdog_effect u l on_timeout canstream alive)
    (snd (fst (watchdog u l on_timeout canstream alive now))) = true.
Proof.
  unfold watchdog, watchdog_effect, watchdog_armed.
  destruct (oob u), (autoreconnect u), on_timeout, canstream; simpl; try reflexivity.
  destruct (last_timing l =? 0); simpl; [reflexivity |].
  destruct (_ <? u64 _); simpl; [| reflexivity].
  destruct (check_timing_count l <? UDP_TIMING_PACKET_DISCONNECT_CYCLE) eqn:Ek; simpl.
  - rewrite Z.eqb_refl. reflexivity.
  - destruct alive; reflexivity.
Qed.

Lemma render_log (u : userdata) (l : locals) (now ri : Z) :
  forallb (render_effect u) (snd (render u l now ri)) = true.
Proof.
  unfold render, render_effect.
  destruct (length (memchunk u) <=? 0) eqn:El; simpl; [| reflexivity].
  destruct (intvl l <? _); simpl; [| reflexivity].
  destruct (memblock (memchunk u)); simpl; rewrite ?El, ?Z.eqb_refl; reflexivity.
Qed.

Section LoopLogs.

Context (X : externals).

Lemma after_delivery_log (u : userdata) (l : locals) (canstream on_timeout : bool)
    (now : Z) (eff : list effect) (f : effect -> bool) :
  forallb f eff = true ->
  forallb f (round_log (after_delivery X u l canstream on_timeout now eff)) = true.
Proof.
  intros H. unfold after_delivery, store_first. split_branches; simpl; try reflexivity; exact H.
Qed.

Lemma deliver_log (u : userdata) (l : locals) (canstream on_timeout : bool)
    (s : send_outcome) (now_put : Z) :
  forallb (deliver_effect u canstream)
    (round_log (deliver X u l canstream on_timeout s now_put)) = true.
Proof.
  unfold deliver.
  destruct (0 <? length (memchunk u)) eqn:Hlen; [| reflexivity].
  destruct (negb (autonull u) || autonull u && canstream) eqn:Hs.
  - assert (Hs' : negb (autonull u) || canstream = true).
    { destruct (autonull u), canstream; simpl in *; congruence. }
    destruct (so_ret s <? 0).
    + unfold store_first. split_branches; simpl in *; rewrite ?Hlen, ?Hs'; simpl;
        try reflexivity;
        match goal with H : autoreconnect u = true |- _ => rewrite H; reflexivity end.
    + apply after_delivery_log. simpl. rewrite Hlen, Hs'. reflexivity.
  - apply after_delivery_log. simpl. rewrite Hlen.
    destruct (autonull u), canstream; simpl in *; congruence.
Qed.

(** The log of a round, part by part: [f] holds of every entry as soon as
    it holds of the rewind and of what the scan, the watchdog, the
    rendering and the delivery can log on a running sink. *)
Lemma round_log_forallb (f : effect -> bool) (u : userdata) (l : locals) (e : iter_env) :
  f E_sink_process_rewind = true ->
  (oob u = true -> ie_on_timeout e = false ->
   forall ev, scan_effect (autoreconnect u) ev = true -> f ev = true) ->
  (thread_info_state (sink u) = PA_SINK_RUNNING ->
   forall it ev,
     watchdog_effect (fst (first_round (set_rtpoll_item u it) l))
       (snd (first_round (set_rtpoll_item u it) l))
       (ie_on_timeout e) (can_stream (ie_client e)) (is_alive (ie_client e)) ev = true ->
     f ev = true) ->
  (thread_info_state (sink u) = PA_SINK_RUNNING ->
   forall it ev,
     render_effect (fst (first_round (set_rtpoll_item u it) l)) ev = true -> f ev = true) ->
  (thread_info_state (sink u) = PA_SINK_RUNNING ->
   forall u3 ev,
     autonull u3 = autonull u -> autoreconnect u3 = autoreconnect u ->
     deliver_effect u3 (can_stream (ie_client e)) ev = true -> f ev = true) ->
  forallb f (round_log (thread_func_round X u l e)) = true.
Proof.
  intros Hrew Hscan Hwd Hrd Hdl.
  assert (Haudio : forall it hp,
            forallb f (round_log (audio_round X (set_rtpoll_item u it) l e hp)) = true).
  { intros it hp. rewrite audio_round_eq.
    destruct (negb (sink_state_eqb _ PA_SINK_RUNNING)) eqn:Erun; [reflexivity |].
    assert (Hrun : thread_info_state (sink u) = PA_SINK_RUNNING).
    { apply negb_false_iff in Erun. apply sink_state_eqb_eq in Erun. exact Erun. }
    cbv zeta.
    pose proof (watchdog_log (fst (first_round (set_rtpoll_item u it) l))
                  (snd (first_round (set_rtpoll_item u it) l)) (ie_on_timeout e)
                  (can_stream (ie_client e)) (is_alive (ie_client e)) (ie_now e)) as Hw.
    apply (forallb_impl _ f _ (Hwd Hrun it)) in Hw.
    destruct (snd (watchdog _ _ _ _ _ _)); [exact Hw |].
    destruct (negb _ && negb (can_stream _)); [exact Hw |].
    destruct (negb _ && negb hp); [reflexivity |].
    apply forallb_round_log_prepend.
    - rewrite forallb_app, Hw. simpl.
      eapply forallb_impl; [apply (Hrd Hrun it) | apply render_log].
    - eapply forallb_impl; [| apply deliver_log].
      intros ev. apply (Hdl Hrun).
      + unfold render, first_round. split_branches; reflexivity.
      + unfold render, first_round. split_branches; reflexivity. }
  assert (Haudio0 : forall hp, forallb f (round_log (audio_round X u l e hp)) = true).
  { intros hp. specialize (Haudio (rtpoll_item u) hp).
    replace (set_rtpoll_item u (rtpoll_item u)) with u in Haudio by (destruct u; reflexivity).
    exact Haudio. }
  rewrite thread_func_round_eq.
  destruct (ie_poll_ret e <? 0); [reflexivity |].
  destruct (ie_poll_ret e =? 0); [reflexivity |].
  set (eff0 := if _ && _ then _ else _).
  assert (H0 : forallb f eff0 = true).
  { subst eff0. destruct (_ && _); simpl; rewrite ?Hrew; reflexivity. }
  destruct (rtpoll_item u) as [fds0 |].
  - cbv zeta. destruct (poll_revents fds0 (ie_revents e)) as [| p0 fds].
    + apply forallb_round_log_prepend; [exact H0 | apply Haudio].
    + destruct (negb _ && (revents p0 =? 0)); [exact H0 |].
      destruct (oob _ && negb _) eqn:Eoob.
      * apply andb_prop in Eoob. destruct Eoob as [Eo Et]. apply negb_true_iff in Et.
        assert (Hsc : forallb f (snd (fst (oob_scan (autoreconnect u)
                        (List.length (p0 :: fds)) (ie_oob e) 0 (p0 :: fds) l))) = true).
        { eapply forallb_impl; [apply (Hscan Eo Et) | apply oob_scan_log]. }
        change (autoreconnect (set_rtpoll_item u (Some (p0 :: fds)))) with (autoreconnect u).
        destruct (snd (oob_scan _ _ _ _ _ _)); cbn [round_log];
          rewrite forallb_app, H0, Hsc; reflexivity.
      * apply forallb_round_log_prepend; [exact H0 | apply Haudio].
  - apply forallb_round_log_prepend; [exact H0 | apply Haudio0].
Qed.

End LoopLogs.

(** *** What a round does to the state *)

Lemma poll_revents_fd (fds : list pollfd) (rs : list Z) :
  map fd (poll_revents fds rs) = map fd fds.
Proof.
  revert rs. induction fds as [| p fds IH]; intros [| r rs]; simpl; try reflexivity.
  rewrite IH. reflexivity.
Qed.

Lemma poll_revents_events (fds : list pollfd) (rs : list Z) :
  map events (poll_revents fds rs) = map events fds.
Proof.
  revert rs. induction fds as [| p fds IH]; intros [| r rs]; simpl; try reflexivity.
  rewrite IH. reflexivity.
Qed.

Lemma store_pollfd_fd (fds : list pollfd) (p : nat) (d : pollfd) (r : Z) :
  map fd (store_pollfd fds p (set_revents (nth p fds d) r)) = map fd fds.
Proof.
  revert p. induction fds as [| x fds IH]; intros [| p]; simpl; try reflexivity.
  rewrite IH. reflexivity.
Qed.

Lemma store_pollfd_events (fds : list pollfd) (p : nat) (d : pollfd) (r : Z) :
  map events (store_pollfd fds p (set_revents (nth p fds d) r)) = map events fds.
Proof.
  revert p. induction fds as [| x fds IH]; intros [| p]; simpl; try reflexivity.
  rewrite IH. reflexivity.
Qed.

(** The scan keeps the descriptors and what each is polled for. *)
Lemma oob_scan_fds (ar : bool) (n : nat) (ois : list oob_input) (p : nat)
    (fds : list pollfd) (l : locals) :
  map fd (fst (fst (fst (oob_scan ar n ois p fds l)))) = map fd fds
  /\ map events (fst (fst (fst (oob_scan ar n ois p fds l)))) = map events fds.
Proof.
  revert ois p fds l. induction n as [| n IH]; intros ois p fds l; simpl;
    [split; reflexivity |].
  destruct (negb (Z.land _ POLLERR =? 0)).
  - destruct (ar && _); [| split; reflexivity].
    match goal with
    | |- context [oob_scan ar n ?a ?b ?c ?d] =>
        specialize (IH a b c d); destruct (oob_scan ar n a b c d) as [[[f1 l1] e1] b1]
    end. simpl in *. rewrite store_pollfd_fd, store_pollfd_events in IH. exact IH.
  - destruct (negb (Z.land _ _ =? 0)).
    + match goal with
      | |- context [oob_scan ar n ?a ?b ?c ?d] =>
          specialize (IH a b c d); destruct (oob_scan ar n a b c d) as [[[f1 l1] e1] b1]
      end. simpl in *. rewrite store_pollfd_fd, store_pollfd_events in IH. exact IH.
    + apply IH.
Qed.

Lemma loop_frame_refl (u : userdata) : loop_frame u u.
Proof. unfold loop_frame. repeat split. Qed.

Lemma loop_frame_trans (u u1 u2 : userdata) :
  loop_frame u u1 -> loop_frame u1 u2 -> loop_frame u u2.
Proof. unfold loop_frame. intros H1 H2. intuition congruence. Qed.

Lemma loop_frame_item (u : userdata) (fds fds' : list pollfd) :
  rtpoll_item u = Some fds -> map fd fds' = map fd fds ->
  loop_frame u (set_rtpoll_item u (Some fds')).
Proof.
  intros Hi Hfd. unfold loop_frame, registered_fds. simpl. rewrite Hi. simpl.
  rewrite Hfd. repeat split.
Qed.

Lemma untouched_refl (u : userdata) : untouched u u.
Proof. unfold untouched. auto using loop_frame_refl. Qed.

Lemma untouched_item (u : userdata) (fds fds' : list pollfd) :
  rtpoll_item u = Some fds -> map fd fds' = map fd fds ->
  untouched u (set_rtpoll_item u (Some fds')).
Proof.
  intros Hi Hfd. unfold untouched. split; [eapply loop_frame_item; eassumption |].
  simpl. auto.
Qed.

Lemma untouched_trans (u u1 u2 : userdata) :
  untouched u u1 -> untouched u1 u2 -> untouched u u2.
Proof.
  unfold untouched. intros (F1 & A1 & B1 & C1 & D1) (F2 & A2 & B2 & C2 & D2).
  split; [eapply loop_frame_trans; eassumption |]. repeat split; congruence.
Qed.

Lemma first_round_untouched (u : userdata) (l : locals) : untouched u (fst (first_round u l)).
Proof.
  unfold first_round. destruct (first u); simpl; [| apply untouched_refl].
  unfold untouched, loop_frame. simpl. repeat split.
Qed.

Lemma render_ready (u : userdata) (l : locals) (now ri : Z) :
  ready ri u (fst (fst (render u l now ri))).
Proof.
  unfold render, ready.
  destruct (length (memchunk u) <=? 0) eqn:El;
    [| simpl; repeat split; auto using loop_frame_refl].
  destruct (intvl l <? _); simpl; [| repeat split; auto using loop_frame_refl].
  split; [unfold loop_frame; simpl; repeat split |].
  repeat split. right. split; [apply Z.leb_le; exact El | reflexivity].
Qed.

Lemma ready_from (ri : Z) (u u1 u3 : userdata) :
  untouched u u1 -> ready ri u1 u3 -> ready ri u u3.
Proof.
  unfold untouched, ready.
  intros (F1 & A1 & B1 & C1 & D1) (F2 & A2 & C2 & D2 & M).
  split; [eapply loop_frame_trans; eassumption |].
  repeat split; try congruence.
  destruct F1 as (_ & _ & _ & _ & _ & _ & _ & _ & Hbs & _).
  rewrite <- B1, <- Hbs. exact M.
Qed.

Section LoopPaths.

Context (X : externals).

(** Every round that does not abort either ends before the delivery,
    the state untouched, or runs the delivery from a ready state of a
    running sink. *)
Lemma round_paths (u u' : userdata) (l l' : locals) (e : iter_env) :
  round_state (thread_func_round X u l e) = Some (u', l') ->
  untouched u u'
  \/ exists u3 l3,
       thread_info_state (sink u) = PA_SINK_RUNNING
       /\ ready (ie_render_index e) u u3
       /\ round_state (deliver X u3 l3 (can_stream (ie_client e)) (ie_on_timeout e)
                         (ie_send e) (ie_now_put e)) = Some (u', l').
Proof.
  assert (Haudio : forall u0 hp,
            untouched u u0 ->
            round_state (audio_round X u0 l e hp) = Some (u', l') ->
            untouched u u'
            \/ exists u3 l3,
                 thread_info_state (sink u) = PA_SINK_RUNNING
                 /\ ready (ie_render_index e) u u3
                 /\ round_state (deliver X u3 l3 (can_stream (ie_client e)) (ie_on_timeout e)
                                   (ie_send e) (ie_now_put e)) = Some (u', l')).
  { intros u0 hp H0. rewrite audio_round_eq.
    destruct (negb (sink_state_eqb _ PA_SINK_RUNNING)) eqn:Erun.
    - simpl. intros H; inversion H; subst. left. exact H0.
    - assert (Hrun : thread_info_state (sink u) = PA_SINK_RUNNING).
      { apply negb_false_iff in Erun. apply sink_state_eqb_eq in Erun.
        destruct H0 as ((Hs & _) & _). rewrite <- Hs. exact Erun. }
      cbv zeta.
      assert (H1 : untouched u (fst (first_round u0 l))).
      { eapply untouched_trans; [exact H0 | apply first_round_untouched]. }
      destruct (snd (watchdog _ _ _ _ _ _));
        [simpl; intros H; inversion H; subst; left; exact H1 |].
      destruct (negb _ && negb (can_stream _));
        [simpl; intros H; inversion H; subst; left; exact H1 |].
      destruct (negb _ && negb hp); [discriminate |].
      rewrite round_state_prepend. intros Hd. right.
      eexists; eexists. split; [exact Hrun |]. split; [| exact Hd].
      eapply ready_from; [exact H1 | apply render_ready]. }
  rewrite thread_func_round_eq.
  destruct (ie_poll_ret e <? 0);
    [simpl; intros H; inversion H; subst; left; apply untouched_refl |].
  destruct (ie_poll_ret e =? 0);
    [simpl; intros H; inversion H; subst; left; apply untouched_refl |].
  cbv zeta.
  destruct (rtpoll_item u) as [fds0 |] eqn:Ei.
  - assert (H0 : untouched u (set_rtpoll_item u (Some (poll_revents fds0 (ie_revents e))))).
    { eapply untouched_item; [exact Ei | apply poll_revents_fd]. }
    destruct (poll_revents fds0 (ie_revents e)) as [| p0 fds] eqn:Ep.
    + rewrite round_state_prepend. apply Haudio. exact H0.
    + destruct (negb _ && (revents p0 =? 0)).
      * cbn [round_state]. intros H; inversion H; subst. left.
        eapply untouched_trans; [exact H0 |].
        eapply untouched_item; [reflexivity |].
        simpl. rewrite map_map. reflexivity.
      * destruct (oob _ && negb _).
        -- pose proof (oob_scan_fds (autoreconnect (set_rtpoll_item u (Some (p0 :: fds))))
                         (List.length (p0 :: fds)) (ie_oob e) 0 (p0 :: fds) l) as [Hfd _].
           destruct (snd (oob_scan _ _ _ _ _ _)); cbn [round_state];
             intros H; inversion H; subst; left;
             (eapply untouched_trans; [exact H0 |]);
             (eapply untouched_item; [reflexivity | exact Hfd]).
        -- rewrite round_state_prepend. apply Haudio. exact H0.
  - rewrite round_state_prepend. apply Haudio. apply untouched_refl.
Qed.

End LoopPaths.

Section DeliveryState.

Context (X : externals).

Lemma store_first_frame (u u2 : userdata) (ev rev : Z) :
  store_first u ev rev = Some u2 ->
  loop_frame u u2 /\ rtpoll_timer u2 = rtpoll_timer u /\ memchunk u2 = memchunk u
  /\ smoother u2 = smoother u /\ write_count u2 = write_count u /\ first u2 = first u.
Proof.
  unfold store_first. destruct (rtpoll_item u) as [[| p fds] |] eqn:Ei; try discriminate.
  intros H; inversion H; subst; clear H.
  split; [eapply loop_frame_item; [exact Ei | reflexivity] |]. simpl. auto.
Qed.

Lemma after_delivery_state (u0 u : userdata) (l l' : locals) (u' : userdata)
    (canstream on_timeout : bool) (now : Z) (eff : list effect) :
  loop_frame u0 u -> rtpoll_timer u = rtpoll_timer u0 -> smoother u = smoother u0 ->
  first u = first u0 ->
  round_state (after_delivery X u l canstream on_timeout now eff) = Some (u', l') ->
  delivered X now u0 l u' l'.
Proof.
  intros Hf Ht Hs Hfi. unfold after_delivery.
  set (sample := if USE_SMOOTHER_2 X then _ else _).
  set (u1 := set_smoother u (pa_smoother_put (smoother u) now sample)).
  assert (F1 : loop_frame u0 u1).
  { eapply loop_frame_trans; [exact Hf |]. unfold loop_frame. simpl. repeat split. }
  assert (Hsample : forall v : userdata,
            write_count v = write_count u -> delay v = delay u ->
            smoother_sample X v = sample).
  { intros v Hw Hd. unfold smoother_sample, sample. rewrite Hw, Hd. reflexivity. }
  assert (Hdead : forall v : userdata,
            write_count v = write_count u -> start v = start u ->
            next_deadline X v = u64 (start u1 + pa_bytes_to_usec X (write_count u1))).
  { intros v Hw Hst. unfold next_deadline. rewrite Hw, Hst. reflexivity. }
  assert (Hfin : forall (v : userdata) (lv : locals),
            loop_frame u1 v -> write_count v = write_count u -> smoother v = smoother u1 ->
            first v = first u ->
            offset lv = offset l -> last_timing lv = last_timing l ->
            check_timing_count lv = check_timing_count l ->
            ((rtpoll_timer v = rtpoll_timer u /\ intvl lv = intvl l)
             \/ (rtpoll_timer v = Some (u64 (start u1 + pa_bytes_to_usec X (write_count u1)))
                 /\ intvl lv = u64 (start u1 + pa_bytes_to_usec X (write_count u1)))) ->
            delivered X now u0 l v lv).
  { intros v lv Fv Wv Sv Fiv Ho Hl Hc Htm. unfold delivered.
    assert (Fu : loop_frame u v).
    { eapply loop_frame_trans; [| exact Fv]. unfold loop_frame. simpl. repeat split. }
    assert (Hd : delay v = delay u) by (destruct Fu as (_&_&_&_&_&_&_&_&_&_&D&_); exact D).
    assert (Hst : start v = start u) by (destruct Fu as (_&_&_&_&_&_&_&_&_&_&_&D&_); exact D).
    split; [eapply loop_frame_trans; eassumption |].
    repeat split; try assumption; try congruence.
    - destruct Htm as [[A B] | [A B]]; [left; split; congruence |].
      right. rewrite (Hdead v Wv Hst). split; assumption.
    - right. rewrite (Hsample v Wv Hd), Sv. subst u1. simpl. rewrite Hs. reflexivity. }
  destruct (_ || _).
  - simpl. intros H; inversion H; subst u' l'; clear H.
    apply Hfin; simpl; try reflexivity.
    + unfold loop_frame. simpl. repeat split.
    + right. split; reflexivity.
  - destruct (negb _).
    + destruct (0 <? length _).
      * destruct (store_first u1 POLLOUT 0) as [u2 |] eqn:Es; [| discriminate].
        simpl. intros H; inversion H; subst u' l'; clear H.
        destruct (store_first_frame _ _ _ _ Es) as (F & T & M & S & W & Fi).
        apply Hfin; try reflexivity; try assumption.
        left. split; [exact T | reflexivity].
      * destruct (store_first _ 0 0) as [u2 |] eqn:Es; [| discriminate].
        simpl. intros H; inversion H; subst u' l'; clear H.
        destruct (store_first_frame _ _ _ _ Es) as (F & T & M & S & W & Fi).
        simpl in T, M, S, W, Fi.
        apply Hfin; try reflexivity; try assumption.
        right. split; [exact T | reflexivity].
    + simpl. intros H; inversion H; subst u' l'; clear H.
      apply Hfin; try reflexivity.
      * apply loop_frame_refl.
      * left. split; reflexivity.
Qed.

Lemma deliver_state (u3 u' : userdata) (l3 l' : locals) (canstream on_timeout : bool)
    (s : send_outcome) (now_put : Z) :
  round_state (deliver X u3 l3 canstream on_timeout s now_put) = Some (u', l') ->
  delivered X now_put u3 l3 u' l'.
Proof.
  assert (Hsame : forall v : userdata,
            loop_frame u3 v -> rtpoll_timer v = rtpoll_timer u3 ->
            smoother v = smoother u3 -> write_count v = write_count u3 ->
            first v = first u3 -> delivered X now_put u3 l3 v l3).
  { intros v F T S W Fi. unfold delivered.
    split; [exact F |]. split; [reflexivity |]. split; [reflexivity |].
    split; [reflexivity |]. split; [left; split; [exact T | reflexivity] |].
    split; [left; split; assumption | exact Fi]. }
  assert (Hmc : forall c, loop_frame u3 (set_memchunk u3 c)).
  { intros c. unfold loop_frame. simpl. repeat split. }
  unfold deliver.
  destruct (0 <? length (memchunk u3));
    [| simpl; intros H; inversion H; subst; apply Hsame; auto using loop_frame_refl].
  destruct (negb (autonull u3) || autonull u3 && canstream).
  - destruct (so_ret s <? 0).
    + destruct (so_errno s =? EINTR).
      * destruct (autoreconnect _); simpl; intros H; inversion H; subst;
          apply Hsame; auto.
      * destruct (negb _ && negb _).
        -- destruct (store_first _ POLLOUT 0) as [u2 |] eqn:Es; [| discriminate].
           simpl. intros H; inversion H; subst.
           destruct (store_first_frame _ _ _ _ Es) as (F & T & M & S & W & Fi).
           apply Hsame; assumption.
        -- destruct (autoreconnect _); simpl; intros H; inversion H; subst;
             apply Hsame; auto.
    + apply after_delivery_state; try reflexivity.
      unfold loop_frame. simpl. repeat split.
  - apply after_delivery_state; try reflexivity.
    unfold loop_frame. simpl. repeat split.
Qed.

End DeliveryState.

(** *** The warning level *)

Lemma oob_scan_level (ar : bool) (n : nat) (ois : list oob_input) (p : nat)
    (fds : list pollfd) (l : locals) :
  level_in_range l -> level_in_range (snd (fst (fst (oob_scan ar n ois p fds l)))).
Proof.
  revert ois p fds l. induction n as [| n IH]; intros ois p fds l Hl; simpl; [exact Hl |].
  destruct (negb (Z.land _ POLLERR =? 0)).
  - destruct (ar && _); [| exact Hl].
    match goal with
    | |- context [oob_scan ar n ?a ?b ?c ?d] =>
        specialize (IH a b c d Hl); destruct (oob_scan ar n a b c d) as [[[f1 l1] e1] b1]
    end. exact IH.
  - destruct (negb (Z.land _ _ =? 0)).
    + match goal with
      | |- context [oob_scan ar n ?a ?b ?c ?d] =>
          assert (Hd : level_in_range d);
          [| specialize (IH a b c d Hd); destruct (oob_scan ar n a b c d) as [[[f1 l1] e1] b1];
             exact IH]
      end.
      destruct (oi_timing_fd _); [| exact Hl].
      unfold level_in_range, UDP_TIMING_PACKET_DISCONNECT_CYCLE. simpl. lia.
    + apply IH. exact Hl.
Qed.

Lemma first_round_level (u : userdata) (l : locals) :
  level_in_range l -> level_in_range (snd (first_round u l)).
Proof.
  unfold first_round. destruct (first u); simpl; [| exact (fun H => H)].
  intros _. unfold level_in_range, UDP_TIMING_PACKET_DISCONNECT_CYCLE. simpl. lia.
Qed.

Lemma watchdog_level (u : userdata) (l : locals) (on_timeout canstream alive : bool) (now : Z) :
  level_in_range l ->
  level_in_range (fst (fst (watchdog u l on_timeout canstream alive now))).
Proof.
  intros Hl. unfold watchdog.
  destruct (oob u && autoreconnect u && on_timeout); [| exact Hl].
  destruct (negb canstream); [exact Hl |].
  destruct (negb (last_timing l =? 0)); [| exact Hl].
  destruct (_ <? u64 _); [| exact Hl].
  destruct (check_timing_count l <? UDP_TIMING_PACKET_DISCONNECT_CYCLE) eqn:Ek.
  - apply Z.ltb_lt in Ek. unfold level_in_range, UDP_TIMING_PACKET_DISCONNECT_CYCLE in *.
    simpl. unfold u32, modulus32. rewrite Z.mod_small; lia.
  - destruct alive; unfold level_in_range, UDP_TIMING_PACKET_DISCONNECT_CYCLE; simpl; lia.
Qed.

Lemma render_level (u : userdata) (l : locals) (now ri : Z) :
  check_timing_count (snd (fst (render u l now ri))) = check_timing_count l.
Proof. unfold render. split_branches; reflexivity. Qed.

Section LoopLevel.

Context (X : externals).

Lemma round_level (u : userdata) (l : locals) (e : iter_env) :
  level_in_range l ->
  match round_state (thread_func_round X u l e) with
  | Some (_, l') => level_in_range l'
  | None => True
  end.
Proof.
  intros Hl.
  assert (Haudio : forall u0 hp,
            match round_state (audio_round X u0 l e hp) with
            | Some (_, l') => level_in_range l'
            | None => True
            end).
  { intros u0 hp. rewrite audio_round_eq.
    destruct (negb (sink_state_eqb _ PA_SINK_RUNNING)); [exact Hl |].
    cbv zeta.
    pose proof (watchdog_level (fst (first_round u0 l)) (snd (first_round u0 l))
                  (ie_on_timeout e) (can_stream (ie_client e)) (is_alive (ie_client e))
                  (ie_now e) (first_round_level u0 l Hl)) as Hw.
    destruct (snd (watchdog _ _ _ _ _ _)); [exact Hw |].
    destruct (negb _ && negb (can_stream _)); [exact Hw |].
    destruct (negb _ && negb hp); [exact I |].
    rewrite round_state_prepend.
    destruct (round_state (deliver X _ _ _ _ _ _)) as [[u' l'] |] eqn:Ed; [| exact I].
    destruct (deliver_state X _ _ _ _ _ _ _ _ Ed) as (_ & _ & _ & Hc & _).
    unfold level_in_range in *. rewrite Hc, render_level. exact Hw. }
  rewrite thread_func_round_eq.
  destruct (ie_poll_ret e <? 0); [exact Hl |].
  destruct (ie_poll_ret e =? 0); [exact Hl |].
  cbv zeta.
  destruct (rtpoll_item u) as [fds0 |].
  - destruct (poll_revents fds0 (ie_revents e)) as [| p0 fds].
    + rewrite round_state_prepend. apply Haudio.
    + destruct (negb _ && (revents p0 =? 0)); [exact Hl |].
      destruct (oob _ && negb _).
      * pose proof (oob_scan_level (autoreconnect (set_rtpoll_item u (Some (p0 :: fds))))
                      (List.length (p0 :: fds)) (ie_oob e) 0 (p0 :: fds) l Hl) as Hs.
        destruct (snd (oob_scan _ _ _ _ _ _)); exact Hs.
      * rewrite round_state_prepend. apply Haudio.
  - rewrite round_state_prepend. apply Haudio.
Qed.

End LoopLevel.

(** ** Further properties of the I/O loop *)

Lemma filter_nil_of_forallb (f g : effect -> bool) (eff : list effect) :
  (forall ev, f ev = true -> g ev = false) ->
  forallb f eff = true -> filter g eff = [].
Proof.
  intros Hfg. induction eff as [| ev eff IH]; simpl; [reflexivity |].
  intros H. apply andb_prop in H. destruct H as [H1 H2].
  rewrite (Hfg _ H1). apply IH. exact H2.
Qed.

Section LoopProperties.

Context (X : externals).

(** X1. A round of the I/O loop logs only the loop's own work: the rewind,
    out-of-band packets, audio rendering and sending, its log lines and
    the requests it posts.  It never calls the client's session
    operations (disconnect, authenticate, announce, teardown, flush,
    stream, volume, poll registration), never closes a descriptor, never
    frees the poll item and never asks for the module unload itself. *)
Theorem loop_logs_only_its_own_work (u : userdata) (l : locals) (e : iter_env) :
  forallb loop_effect (round_log (thread_func_round X u l e)) = true.
Proof.
  apply round_log_forallb; try reflexivity; intros;
    match goal with
    | H : _ ?ev = true |- _ => destruct ev; simpl in H |- *; try reflexivity; discriminate H
    end.
Qed.

(** X2. Without auto-reconnect no round posts a disconnect request,
    whatever poll, the client and the send answer. *)
Theorem no_disconnect_request_without_autoreconnect
    (u : userdata) (l : locals) (e : iter_env) :
  autoreconnect u = false ->
  forallb not_disconnect_request (round_log (thread_func_round X u l e)) = true.
Proof.
  intros Ha. apply round_log_forallb; try reflexivity.
  - intros _ _ ev. rewrite Ha. destruct ev; simpl; intros H; try reflexivity; discriminate H.
  - intros _ it ev.
    assert (Hu : autoreconnect (fst (first_round (set_rtpoll_item u it) l)) = false).
    { unfold first_round. destruct (first _); exact Ha. }
    unfold watchdog_effect, watchdog_armed. rewrite Hu, andb_false_r.
    destruct ev; simpl; intros H; try reflexivity; discriminate H.
  - intros _ it ev. destruct ev; simpl; intros H; try reflexivity; discriminate H.
  - intros _ u3 ev _ Ha3. unfold deliver_effect. rewrite Ha3, Ha.
    destruct ev; simpl; intros H; try reflexivity; discriminate H.
Qed.

(** X3. The timing watchdog is silent unless everything arms it: a round
    logs no timing warning and no limit message when the transport is not
    out-of-band, or auto-reconnect is off, or the timer has not elapsed,
    or the client cannot stream, or this is the first round after a
    (re)start, or no timing packet was seen yet. *)
Theorem watchdog_silent_unless_armed (u : userdata) (l : locals) (e : iter_env) :
  oob u = false \/ autoreconnect u = false \/ ie_on_timeout e = false
  \/ can_stream (ie_client e) = false \/ first u = true \/ last_timing l = 0 ->
  forallb not_timing_log (round_log (thread_func_round X u l e)) = true.
Proof.
  intros Hoff. apply round_log_forallb; try reflexivity.
  - intros _ _ ev. destruct ev; simpl; intros H; try reflexivity; discriminate H.
  - intros _ it ev.
    assert (Harm : watchdog_armed (fst (first_round (set_rtpoll_item u it) l))
                     (snd (first_round (set_rtpoll_item u it) l))
                     (ie_on_timeout e) (can_stream (ie_client e)) = false).
    { unfold watchdog_armed, first_round. simpl.
      destruct (first u) eqn:Ef; simpl.
      - rewrite !andb_false_r. reflexivity.
      - destruct Hoff as [H | [H | [H | [H | [H | H]]]]]; try rewrite H; simpl;
          rewrite ?andb_false_r; try reflexivity; discriminate H. }
    unfold watchdog_effect. rewrite Harm.
    destruct ev; simpl; intros H; try reflexivity; discriminate H.
  - intros _ it ev. destruct ev; simpl; intros H; try reflexivity; discriminate H.
  - intros _ u3 ev _ _. destruct ev; simpl; intros H; try reflexivity; discriminate H.
Qed.

(** The number of entries of one kind a round logs, when only the
    rendering and the delivery log that kind. *)
Lemma round_log_count (g : effect -> bool) (nr nd : nat)
    (u : userdata) (l : locals) (e : iter_env) :
  g E_sink_process_rewind = false ->
  (forall ar ev, scan_effect ar ev = true -> g ev = false) ->
  (forall u1 l1 t c a ev, watchdog_effect u1 l1 t c a ev = true -> g ev = false) ->
  (forall u1 l1,
     (List.length (filter g (snd (render u1 l1 (ie_now e) (ie_render_index e)))) <= nr)%nat) ->
  (forall u3 l3,
     (List.length (filter g (round_log (deliver X u3 l3 (can_stream (ie_client e))
                                          (ie_on_timeout e) (ie_send e) (ie_now_put e))))
      <= nd)%nat) ->
  (List.length (filter g (round_log (thread_func_round X u l e))) <= nr + nd)%nat.
Proof.
  intros Hrew Hscan Hwd Hrd Hdl.
  assert (Haudio : forall u0 hp,
            (List.length (filter g (round_log (audio_round X u0 l e hp))) <= nr + nd)%nat).
  { intros u0 hp. rewrite audio_round_eq.
    destruct (negb (sink_state_eqb _ PA_SINK_RUNNING)); [simpl; lia |].
    cbv zeta.
    pose proof (filter_nil_of_forallb _ g _
                  (Hwd (fst (first_round u0 l)) (snd (first_round u0 l)) (ie_on_timeout e)
                     (can_stream (ie_client e)) (is_alive (ie_client e)))
                  (watchdog_log (fst (first_round u0 l)) (snd (first_round u0 l))
                     (ie_on_timeout e) (can_stream (ie_client e)) (is_alive (ie_client e))
                     (ie_now e))) as Hw.
    destruct (snd (watchdog _ _ _ _ _ _)); [simpl; rewrite Hw; simpl; lia |].
    destruct (negb _ && negb (can_stream _)); [simpl; rewrite Hw; simpl; lia |].
    destruct (negb _ && negb hp); [simpl; lia |].
    rewrite round_log_prepend.
    match goal with
    | |- context [deliver X ?a ?b ?c ?d ?f ?h] =>
        pose proof (Hdl a b) as Hd; destruct (deliver X a b c d f h)
    end; cbn [round_log] in *; try (simpl; lia);
      rewrite !filter_app, !length_app, Hw; simpl;
      match goal with
      | |- context [render ?a ?b ?c ?d] => pose proof (Hrd a b)
      end; lia. }
  rewrite thread_func_round_eq.
  destruct (ie_poll_ret e <? 0); [simpl; lia |].
  destruct (ie_poll_ret e =? 0); [simpl; lia |].
  set (eff0 := if _ && _ then _ else _).
  assert (H0 : filter g eff0 = []).
  { subst eff0. destruct (_ && _); simpl; rewrite ?Hrew; reflexivity. }
  assert (Hpre : forall r,
            (List.length (filter g (round_log r)) <= nr + nd)%nat ->
            (List.length (filter g (round_log (prepend eff0 r))) <= nr + nd)%nat).
  { intros r Hr. rewrite round_log_prepend. destruct r; cbn [round_log] in *;
      try (simpl; lia); rewrite filter_app, H0; exact Hr. }
  destruct (rtpoll_item u) as [fds0 |].
  - cbv zeta. destruct (poll_revents fds0 (ie_revents e)) as [| p0 fds].
    + apply Hpre, Haudio.
    + destruct (negb _ && (revents p0 =? 0)); [cbn [round_log]; rewrite H0; simpl; lia |].
      destruct (oob _ && negb _).
      * pose proof (filter_nil_of_forallb _ g _
                      (Hscan (autoreconnect (set_rtpoll_item u (Some (p0 :: fds)))))
                      (oob_scan_log (autoreconnect (set_rtpoll_item u (Some (p0 :: fds))))
                         (List.length (p0 :: fds)) (ie_oob e) 0 (p0 :: fds) l)) as Hs.
        destruct (snd (oob_scan _ _ _ _ _ _)); cbn [round_log];
          rewrite filter_app, H0, Hs; simpl; lia.
      * apply Hpre, Haudio.
  - apply Hpre, Haudio.
Qed.

(** X4. One chunk at a time: a round sends at most one packet and renders
    at most once; every packet it sends carries at least one byte; and it
    renders only while no chunk is buffered, and then asks for exactly the
    block size. *)
Theorem round_sends_one_nonempty_chunk (u : userdata) (l : locals) (e : iter_env) :
  (List.length (filter is_send (round_log (thread_func_round X u l e))) <= 1)%nat
  /\ (List.length (filter is_render (round_log (thread_func_round X u l e))) <= 1)%nat
  /\ forallb send_nonempty (round_log (thread_func_round X u l e)) = true
  /\ forallb (render_of_empty u) (round_log (thread_func_round X u l e)) = true.
Proof.
  split; [| split; [| split]].
  - apply (round_log_count is_send 0 1); try reflexivity.
    + intros ar ev. destruct ev; simpl; intros H; try reflexivity; discriminate H.
    + intros u1 l1 t c a ev. destruct ev; simpl; intros H; try reflexivity; discriminate H.
    + intros u1 l1. unfold render. split_branches; simpl; lia.
    + intros u3 l3. unfold deliver, after_delivery, store_first.
      split_branches; simpl; lia.
  - apply (round_log_count is_render 1 0); try reflexivity.
    + intros ar ev. destruct ev; simpl; intros H; try reflexivity; discriminate H.
    + intros u1 l1 t c a ev. destruct ev; simpl; intros H; try reflexivity; discriminate H.
    + intros u1 l1. unfold render. split_branches; simpl; lia.
    + intros u3 l3. unfold deliver, after_delivery, store_first.
      split_branches; simpl; lia.
  - apply round_log_forallb; try reflexivity.
    + intros _ _ ev. destruct ev; simpl; intros H; try reflexivity; discriminate H.
    + intros _ it ev. destruct ev; simpl; intros H; try reflexivity; discriminate H.
    + intros _ it ev. destruct ev; simpl; intros H; try reflexivity; discriminate H.
    + intros _ u3 ev _ _. destruct ev; simpl; intros H; try reflexivity; try discriminate H.
      apply andb_prop in H. destruct H as [H _]. exact H.
  - apply round_log_forallb; try reflexivity.
    + intros _ _ ev. destruct ev; simpl; intros H; try reflexivity; discriminate H.
    + intros _ it ev. destruct ev; simpl; intros H; try reflexivity; discriminate H.
    + intros _ it ev.
      assert (Hb : block_size (fst (first_round (set_rtpoll_item u it) l)) = block_size u
                   /\ memchunk (fst (first_round (set_rtpoll_item u it) l)) = memchunk u).
      { unfold first_round. destruct (first _); split; reflexivity. }
      destruct Hb as [Hb Hm]. unfold render_effect, render_of_empty. rewrite Hb, Hm.
      destruct ev; simpl; intros H; try reflexivity; try discriminate H. exact H.
    + intros _ u3 ev _ _. destruct ev; simpl; intros H; try reflexivity; discriminate H.
Qed.

(** X5. No round that ends without a failed assertion writes the sink,
    the transport and codec choice, the two flags, the block size, the
    device delay, the stream start or the configured latency, and none
    registers, releases or renumbers poll descriptors: a round only
    changes what is polled for and what poll reported. *)
Theorem round_keeps_configuration (u u' : userdata) (l l' : locals) (e : iter_env) :
  round_state (thread_func_round X u l e) = Some (u', l') ->
  loop_frame u u'.
Proof.
  intros E.
  destruct (round_paths X _ _ _ _ _ E) as [(F & _) | (u3 & l3 & _ & (F & _) & Hd)];
    [exact F |].
  destruct (deliver_state X _ _ _ _ _ _ _ _ Hd) as (F' & _).
  eapply loop_frame_trans; eassumption.
Qed.

(** X6. Whenever a round that ends without a failed assertion re-arms the
    data timer, the deadline is the stream start plus the duration of the
    bytes written so far (modulo 2^64), and the loop remembers the same
    deadline; otherwise the timer is left as it was. *)
Theorem timer_rearmed_at_next_deadline (u u' : userdata) (l l' : locals) (e : iter_env) :
  round_state (thread_func_round X u l e) = Some (u', l') ->
  rtpoll_timer u' = rtpoll_timer u
  \/ (rtpoll_timer u' = Some (next_deadline X u') /\ intvl l' = next_deadline X u').
Proof.
  intros E.
  destruct (round_paths X _ _ _ _ _ E)
    as [(_ & T & _) | (u3 & l3 & _ & (_ & T & _) & Hd)]; [left; exact T |].
  destruct (deliver_state X _ _ _ _ _ _ _ _ Hd) as (_ & _ & _ & _ & [[T' _] | T'] & _).
  - left. congruence.
  - right. exact T'.
Qed.

(** X7. A round that ends without a failed assertion never resets the
    smoother.  It either leaves smoother and cursor as they were, or feeds
    the smoother exactly one observation: the time of the put and the new
    cursor less the device delay.  So the cursor never moves without the
    smoother learning the new position. *)
Theorem cursor_advance_feeds_smoother (u u' : userdata) (l l' : locals) (e : iter_env) :
  round_state (thread_func_round X u l e) = Some (u', l') ->
  (smoother u' = smoother u /\ write_count u' = write_count u)
  \/ smoother u' = pa_smoother_put (smoother u) (ie_now_put e) (smoother_sample X u').
Proof.
  intros E.
  destruct (round_paths X _ _ _ _ _ E)
    as [(_ & _ & _ & S & W) | (u3 & l3 & _ & (_ & _ & S & W & _) & Hd)];
    [left; split; assumption |].
  destruct (deliver_state X _ _ _ _ _ _ _ _ Hd) as (_ & _ & _ & _ & _ & [[S' W'] | S'] & _).
  - left. split; congruence.
  - right. rewrite S', S. reflexivity.
Qed.

(** A round on a sink that is not running does not abort. *)
Lemma round_not_running_completes (u : userdata) (l : locals) (e : iter_env) :
  thread_info_state (sink u) <> PA_SINK_RUNNING ->
  round_state (thread_func_round X u l e) <> None.
Proof.
  intros Hrun.
  assert (Haudio : forall it hp,
            round_state (audio_round X (set_rtpoll_item u it) l e hp) <> None).
  { intros it hp. rewrite audio_round_eq.
    destruct (negb (sink_state_eqb _ PA_SINK_RUNNING)) eqn:En; [discriminate |].
    apply negb_false_iff in En. apply sink_state_eqb_eq in En. contradiction. }
  rewrite thread_func_round_eq.
  destruct (ie_poll_ret e <? 0); [discriminate |].
  destruct (ie_poll_ret e =? 0); [discriminate |].
  cbv zeta.
  destruct (rtpoll_item u) as [fds0 |] eqn:Ei.
  - destruct (poll_revents fds0 (ie_revents e)) as [| p0 fds].
    + rewrite round_state_prepend. apply Haudio.
    + destruct (negb _ && (revents p0 =? 0)); [discriminate |].
      destruct (oob _ && negb _).
      * destruct (snd (oob_scan _ _ _ _ _ _)); discriminate.
      * rewrite round_state_prepend. apply Haudio.
  - rewrite round_state_prepend.
    specialize (Haudio (rtpoll_item u) false).
    replace (set_rtpoll_item u (rtpoll_item u)) with u in Haudio by (destruct u; reflexivity).
    exact Haudio.
Qed.

(** X8. While the I/O-thread state of the sink is not Running (idle,
    suspended, not yet started), a round completes without touching the
    audio path: timer, buffered chunk, smoother and cursor stay as they
    were, and nothing is rendered, sent or dropped. *)
Theorem round_of_sink_not_running (u : userdata) (l : locals) (e : iter_env) :
  thread_info_state (sink u) <> PA_SINK_RUNNING ->
  exists u' l',
    round_state (thread_func_round X u l e) = Some (u', l')
    /\ untouched u u'
    /\ forallb not_audio (round_log (thread_func_round X u l e)) = true.
Proof.
  intros Hrun.
  destruct (round_state (thread_func_round X u l e)) as [[u' l'] |] eqn:E;
    [| exfalso; eapply round_not_running_completes; eassumption].
  exists u', l'. split; [reflexivity |]. split.
  - destruct (round_paths X _ _ _ _ _ E) as [H | (u3 & l3 & Hr & _)];
      [exact H | contradiction].
  - apply round_log_forallb; try reflexivity; try (intros Hr; contradiction).
    intros _ _ ev. destruct ev; simpl; intros H; try reflexivity; discriminate H.
Qed.

End LoopProperties.

Lemma no_disconnect_request_without_autoreconnect_witness :
  forallb not_disconnect_request
    (round_log (thread_func_round X0 u_tcp locals_init round_send_all)) = true.
Proof.
  apply (no_disconnect_request_without_autoreconnect X0 u_tcp locals_init round_send_all).
  reflexivity.
Defined.

Lemma watchdog_silent_unless_armed_witness :
  forallb not_timing_log
    (round_log (thread_func_round X0 u_udp l_timed round_overdue_first)) = true.
Proof.
  apply (watchdog_silent_unless_armed X0 u_udp l_timed round_overdue_first).
  right. right. right. left. reflexivity.
Defined.

Lemma round_of_sink_not_running_witness :
  exists u' l',
    round_state (thread_func_round X0 u_idle locals_init round_send_all) = Some (u', l')
    /\ untouched u_idle u'
    /\ forallb not_audio (round_log (thread_func_round X0 u_idle locals_init round_send_all))
       = true.
Proof.
  apply (round_of_sink_not_running X0 u_idle locals_init round_send_all).
  discriminate.
Defined.

Lemma round_keeps_configuration_witness :
  exists u' l',
    round_state (thread_func_round X0 u_tcp locals_init round_send_all) = Some (u', l')
    /\ loop_frame u_tcp u'.
Proof.
  destruct (round_state (thread_func_round X0 u_tcp locals_init round_send_all))
    as [[u' l'] |] eqn:E; [| vm_compute in E; discriminate].
  exists u', l'. split; [reflexivity |].
  exact (round_keeps_configuration X0 u_tcp u' locals_init l' round_send_all E).
Defined.

Lemma timer_rearmed_at_next_deadline_witness :
  exists u' l',
    round_state (thread_func_round X0 u_tcp locals_init round_send_all) = Some (u', l')
    /\ (rtpoll_timer u' = rtpoll_timer u_tcp
        \/ (rtpoll_timer u' = Some (next_deadline X0 u') /\ intvl l' = next_deadline X0 u')).
Proof.
  destruct (round_state (thread_func_round X0 u_tcp locals_init round_send_all))
    as [[u' l'] |] eqn:E; [| vm_compute in E; discriminate].
  exists u', l'. split; [reflexivity |].
  exact (timer_rearmed_at_next_deadline X0 u_tcp u' locals_init l' round_send_all E).
Defined.

Lemma cursor_advance_feeds_smoother_witness :
  exists u' l',
    round_state (thread_func_round X0 u_tcp locals_init round_send_all) = Some (u', l')
    /\ ((smoother u' = smoother u_tcp /\ write_count u' = write_count u_tcp)
        \/ smoother u'
           = pa_smoother_put (smoother u_tcp) (ie_now_put round_send_all)
               (smoother_sample X0 u')).
Proof.
  destruct (round_state (thread_func_round X0 u_tcp locals_init round_send_all))
    as [[u' l'] |] eqn:E; [| vm_compute in E; discriminate].
  exists u', l'. split; [reflexivity |].
  exact (cursor_advance_feeds_smoother X0 u_tcp u' locals_init l' round_send_all E).
Defined.

(** ** The timing watchdog at a timer deadline *)

Section WatchdogRound.

Context (X : externals).

Lemma render_timing (u : userdata) (l : locals) (now ri : Z) :
  last_timing (snd (fst (render u l now ri))) = last_timing l
  /\ check_timing_count (snd (fst (render u l now ri))) = check_timing_count l
  /\ autonull (fst (fst (render u l now ri))) = autonull u.
Proof. unfold render. split_branches; simpl; repeat split. Qed.

Lemma render_log_filter (g : effect -> bool) (u : userdata) (l : locals) (now ri : Z) :
  g E_memblock_unref = false -> (forall n, g (E_sink_render_full n) = false) ->
  filter g (snd (render u l now ri)) = [].
Proof.
  intros H1 H2. apply (filter_nil_of_forallb (render_effect u)); [| apply render_log].
  intros ev. destruct ev; simpl; intros H; try discriminate H; auto.
Qed.

(** A delivery posts a disconnect request only after a failed send. *)
Lemma deliver_request_free (u : userdata) (l : locals) (canstream on_timeout : bool)
    (s : send_outcome) (now_put : Z) :
  (autonull u = true /\ canstream = false) \/ 0 <= so_ret s ->
  filter is_disconnect_request (round_log (deliver X u l canstream on_timeout s now_put))
    = [].
Proof.
  intros H.
  apply (filter_nil_of_forallb not_disconnect_request);
    [intros ev Hev; unfold not_disconnect_request in Hev;
     apply negb_true_iff in Hev; exact Hev |].
  unfold deliver.
  destruct (0 <? length (memchunk u)); [| reflexivity].
  destruct (negb (autonull u) || autonull u && canstream) eqn:Hs.
  - destruct (so_ret s <? 0) eqn:Hr.
    + exfalso. apply Z.ltb_lt in Hr.
      destruct H as [[Ha Hc] | H]; [| lia]. rewrite Ha, Hc in Hs. discriminate Hs.
    + apply after_delivery_log. reflexivity.
  - apply after_delivery_log. reflexivity.
Qed.

Lemma deliver_timing_free (u : userdata) (l : locals) (canstream on_timeout : bool)
    (s : send_outcome) (now_put : Z) :
  filter timing_log (round_log (deliver X u l canstream on_timeout s now_put)) = [].
Proof.
  apply (filter_nil_of_forallb (deliver_effect u canstream)); [| apply deliver_log].
  intros ev. destruct ev; simpl; intros H; try discriminate H; reflexivity.
Qed.

(** The part of a round after the watchdog keeps what the watchdog left
    in the loop variables and adds no timing line to the log. *)
Lemma audio_round_after_watchdog (u0 : userdata) (l : locals) (e : iter_env) (hp : bool) :
  thread_info_state (sink u0) = PA_SINK_RUNNING -> first u0 = false ->
  let w := watchdog u0 l (ie_on_timeout e) (can_stream (ie_client e))
             (is_alive (ie_client e)) (ie_now e) in
  let r := audio_round X u0 l e hp in
  (snd w = true -> r = Continue u0 (fst (fst w)) (snd (fst w)))
  /\ (forall u' l', round_state r = Some (u', l') ->
        last_timing l' = last_timing (fst (fst w))
        /\ check_timing_count l' = check_timing_count (fst (fst w))
        /\ filter timing_log (round_log r) = filter timing_log (snd (fst w)))
  /\ (filter timing_log (snd (fst w)) = [] -> filter timing_log (round_log r) = [])
  /\ (filter is_disconnect_request (snd (fst w)) = [] ->
      can_stream (ie_client e) = false \/ 0 <= so_ret (ie_send e) ->
      filter is_disconnect_request (round_log r) = []).
Proof.
  intros Hrun Hfirst w r. subst r. rewrite audio_round_eq.
  rewrite Hrun. cbn [sink_state_eqb negb].
  unfold first_round. rewrite Hfirst. cbn [fst snd]. cbv zeta. fold w.
  destruct w as [[l2 effw] stop]. cbn [fst snd].
  destruct stop.
  { split; [reflexivity |]. split.
    - intros u' l' H; inversion H; subst. repeat split.
    - split; [intros H; exact H | intros H _; exact H]. }
  split; [discriminate |].
  destruct (negb (autonull u0) && negb (can_stream (ie_client e))) eqn:Hskip.
  { split.
    - intros u' l' H; inversion H; subst. repeat split.
    - split; [intros H; exact H | intros H _; exact H]. }
  destruct (negb (autonull u0) && negb hp).
  { split; [discriminate |]. split; reflexivity. }
  pose proof (render_timing u0 l2 (ie_now e) (ie_render_index e)) as (Rt & Rc & Ra).
  pose proof (render_log_filter timing_log u0 l2 (ie_now e) (ie_render_index e)
                eq_refl (fun _ => eq_refl)) as Rlt.
  pose proof (render_log_filter is_disconnect_request u0 l2 (ie_now e) (ie_render_index e)
                eq_refl (fun _ => eq_refl)) as Rlr.
  destruct (render u0 l2 (ie_now e) (ie_render_index e)) as [[u3 l3] effr].
  cbn [fst snd] in *.
  pose proof (deliver_timing_free u3 l3 (can_stream (ie_client e)) (ie_on_timeout e)
                (ie_send e) (ie_now_put e)) as Dt.
  rewrite round_state_prepend, round_log_prepend.
  split; [| split].
  - intros u' l' Hd.
    destruct (deliver_state X _ _ _ _ _ _ _ _ Hd) as (_ & _ & Dl & Dc & _).
    split; [congruence |]. split; [congruence |].
    destruct (deliver X u3 l3 _ _ _ _); try discriminate Hd;
      cbn [round_log] in *; rewrite !filter_app, Rlt, Dt, !app_nil_r; reflexivity.
  - intros Hw.
    destruct (deliver X u3 l3 _ _ _ _); try reflexivity;
      cbn [round_log] in *; rewrite !filter_app, Rlt, Dt, Hw; reflexivity.
  - intros Hw Hsend.
    assert (Dr : filter is_disconnect_request
                   (round_log (deliver X u3 l3 (can_stream (ie_client e)) (ie_on_timeout e)
                                 (ie_send e) (ie_now_put e))) = []).
    { apply deliver_request_free. destruct Hsend as [Hc | Hs]; [left | right; exact Hs].
      split; [| exact Hc]. rewrite Ra. rewrite Hc in Hskip.
      destruct (autonull u0); [reflexivity | discriminate Hskip]. }
    destruct (deliver X u3 l3 _ _ _ _); try reflexivity;
      cbn [round_log] in *; rewrite !filter_app, Rlr, Dr, Hw; reflexivity.
Qed.

(** On the out-of-band transport a delivery fails no assertion. *)
Lemma deliver_completes_oob (u : userdata) (l : locals) (canstream on_timeout : bool)
    (s : send_outcome) (now_put : Z) :
  oob u = true ->
  round_state (deliver X u l canstream on_timeout s now_put) <> None.
Proof.
  intros Hoob. unfold deliver, after_delivery, store_first. simpl. rewrite Hoob. simpl.
  split_branches; try discriminate;
    match goal with
    | H : _ && false = true |- _ => rewrite andb_false_r in H; discriminate H
    end.
Qed.

Lemma audio_round_completes_oob (u0 : userdata) (l : locals) (e : iter_env) (hp : bool) :
  oob u0 = true -> autonull u0 = true \/ hp = true ->
  round_state (audio_round X u0 l e hp) <> None.
Proof.
  intros Hoob Hp. rewrite audio_round_eq.
  destruct (negb (sink_state_eqb _ PA_SINK_RUNNING)); [discriminate |].
  cbv zeta.
  assert (Ho : oob (fst (first_round u0 l)) = true)
    by (unfold first_round; destruct (first u0); exact Hoob).
  assert (Ha : autonull (fst (first_round u0 l)) = autonull u0)
    by (unfold first_round; destruct (first u0); reflexivity).
  destruct (snd (watchdog _ _ _ _ _ _)); [discriminate |].
  destruct (negb _ && negb (can_stream _)); [discriminate |].
  rewrite Ha.
  destruct (negb (autonull u0) && negb hp) eqn:E.
  { destruct Hp as [H | H]; rewrite H in E; [discriminate E |].
    rewrite andb_false_r in E. discriminate E. }
  rewrite round_state_prepend. apply deliver_completes_oob.
  unfold render. split_branches; exact Ho.
Qed.

(** A round at a timer deadline of a running sink on the out-of-band
    transport goes to the audio part, after the rewind at most. *)
Lemma round_at_deadline (u : userdata) (l : locals) (e : iter_env) :
  0 < ie_poll_ret e -> ie_on_timeout e = true -> oob u = true ->
  thread_info_state (sink u) = PA_SINK_RUNNING ->
  exists it hp,
    ((exists p fds, rtpoll_item u = Some (p :: fds)) -> hp = true)
    /\ thread_func_round X u l e
       = prepend (if ie_rewind_requested e then [E_sink_process_rewind] else [])
           (audio_round X (set_rtpoll_item u it) l e hp).
Proof.
  intros Hret Hto Hoob Hrun. rewrite thread_func_round_eq.
  destruct (ie_poll_ret e <? 0) eqn:E1; [apply Z.ltb_lt in E1; lia |].
  destruct (ie_poll_ret e =? 0) eqn:E2; [apply Z.eqb_eq in E2; lia |].
  cbv zeta. rewrite Hrun. cbn [PA_SINK_IS_OPENED andb].
  destruct (rtpoll_item u) as [fds0 |] eqn:Ei.
  - destruct (poll_revents fds0 (ie_revents e)) as [| p0 fds] eqn:Ep.
    + exists (Some []), false. split; [| reflexivity].
      intros (p & fds & H). inversion H; subst.
      destruct (ie_revents e); discriminate Ep.
    + cbn [oob set_rtpoll_item]. rewrite Hoob, Hto. cbn [negb andb].
      exists (Some (p0 :: fds)), true. split; reflexivity.
  - exists None, false. split; [intros (p & fds & H); discriminate H |].
    replace (set_rtpoll_item u None) with u; [reflexivity |].
    destruct u; simpl in *; subst; reflexivity.
Qed.

(** C2, as amended.  Take a round of the I/O loop at a timer deadline
    (poll returned, the timer elapsed) of a sink that is running on the
    out-of-band transport with auto-reconnect, not the first round after
    a (re)start.  Such a round fails no assertion when auto-null is on or
    a poll item with a descriptor is registered.

    If the client cannot stream, the watchdog is disarmed: the round logs
    no timing line and posts no disconnect request, and it leaves the
    timestamp of the last timing packet at 0 and the level as it was.

    If the client can stream, a timing packet was seen and the time since
    it exceeds level times (loss window / cycles): below the final cycle
    the round logs exactly one timing line, the warning numbered with the
    level, and the level goes up by one, the timestamp kept; at the final
    cycle the level returns to 1 and the timestamp to 0, and, when the
    connection is alive, the limit line is logged, the disconnect request
    is posted and the round ends there; when it is not alive no timing
    line is logged and, unless a send fails later in the same round, no
    disconnect request is posted. *)
Theorem watchdog_at_timer_deadline (u : userdata) (l : locals) (e : iter_env) :
  0 < ie_poll_ret e -> ie_on_timeout e = true ->
  thread_info_state (sink u) = PA_SINK_RUNNING -> first u = false ->
  oob u = true -> autoreconnect u = true ->
  0 <= check_timing_count l ->
  let r := thread_func_round X u l e in
  let k := check_timing_count l in
  let since := u64 (ie_now e - last_timing l) in
  (autonull u = true \/ (exists p fds, rtpoll_item u = Some (p :: fds)) ->
   exists u' l', round_state r = Some (u', l'))
  /\ (can_stream (ie_client e) = false ->
   filter timing_log (round_log r) = []
   /\ filter is_disconnect_request (round_log r) = []
   /\ forall u' l', round_state r = Some (u', l') ->
        last_timing l' = 0 /\ check_timing_count l' = k)
  /\ (can_stream (ie_client e) = true ->
      last_timing l <> 0 ->
      (UDP_TIMING_PACKET_LOSS_MAX / UDP_TIMING_PACKET_DISCONNECT_CYCLE) * k < since ->
      if k <? UDP_TIMING_PACKET_DISCONNECT_CYCLE then
        forall u' l', round_state r = Some (u', l') ->
          filter timing_log (round_log r)
            = [E_log_timing_warn k (u32 (since / PA_USEC_PER_SEC))]
          /\ check_timing_count l' = k + 1 /\ last_timing l' = last_timing l
      else if is_alive (ie_client e) then
        exists u',
          r = Continue u' (mk_locals (offset l) 0 1 (intvl l))
                ((if ie_rewind_requested e then [E_sink_process_rewind] else [])
                 ++ [E_log_timing_limit; E_post_disconnect_request])
      else
        filter timing_log (round_log r) = []
        /\ (0 <= so_ret (ie_send e) -> filter is_disconnect_request (round_log r) = [])
        /\ forall u' l', round_state r = Some (u', l') ->
             check_timing_count l' = 1 /\ last_timing l' = 0).
Proof.
  intros Hret Hto Hrun Hfirst Hoob Hauto Hk r k since.
  destruct (round_at_deadline u l e Hret Hto Hoob Hrun) as (it & hp & Hhp & Er).
  assert (Hw : watchdog (set_rtpoll_item u it) l (ie_on_timeout e) (can_stream (ie_client e))
                 (is_alive (ie_client e)) (ie_now e)
               = watchdog u l true (can_stream (ie_client e)) (is_alive (ie_client e))
                   (ie_now e)).
  { rewrite Hto. reflexivity. }
  pose proof (audio_round_after_watchdog (set_rtpoll_item u it) l e hp Hrun Hfirst)
    as Ha. cbv zeta in Ha. rewrite Hw in Ha.
  destruct Ha as (Hstop & Hstate & Hquiet & Hreq).
  assert (Hrewind_t : filter timing_log
                        (if ie_rewind_requested e then [E_sink_process_rewind] else []) = [])
    by (destruct (ie_rewind_requested e); reflexivity).
  assert (Hrewind_r : filter is_disconnect_request
                        (if ie_rewind_requested e then [E_sink_process_rewind] else []) = [])
    by (destruct (ie_rewind_requested e); reflexivity).
  assert (Hlog : forall g : effect -> bool,
            filter g (if ie_rewind_requested e then [E_sink_process_rewind] else []) = [] ->
            filter g (round_log r)
              = filter g (round_log (audio_round X (set_rtpoll_item u it) l e hp))).
  { intros g Hg. subst r. rewrite Er, round_log_prepend.
    destruct (audio_round X (set_rtpoll_item u it) l e hp); try reflexivity;
      cbn [round_log]; rewrite filter_app, Hg; reflexivity. }
  assert (Hst : round_state r
                = round_state (audio_round X (set_rtpoll_item u it) l e hp)).
  { subst r. rewrite Er. apply round_state_prepend. }
  split; [| split].
  - intros Hp.
    assert (Hn : round_state r <> None).
    { rewrite Hst. apply audio_round_completes_oob; [exact Hoob |].
      destruct Hp as [Hp | Hp]; [left; exact Hp | right; exact (Hhp Hp)]. }
    destruct (round_state r) as [[u' l'] |]; [| contradiction].
    exists u', l'. reflexivity.
  - intros Hc. rewrite Hc in *.
    assert (Ew : watchdog u l true false (is_alive (ie_client e)) (ie_now e)
                 = (mk_locals (offset l) 0 (check_timing_count l) (intvl l), [], false)).
    { unfold watchdog. rewrite Hoob, Hauto. reflexivity. }
    rewrite Ew in *. cbn [fst snd] in *.
    split; [rewrite (Hlog _ Hrewind_t); apply Hquiet; reflexivity |].
    split; [rewrite (Hlog _ Hrewind_r); apply Hreq; [reflexivity | left; reflexivity] |].
    intros u' l' Hs. rewrite Hst in Hs.
    destruct (Hstate u' l' Hs) as (Ht & Hcnt & _). split; assumption.
  - intros Hc Hlast Hsince. rewrite Hc in *.
    pose proof (watchdog_overdue u l (is_alive (ie_client e)) (ie_now e)
                  Hoob Hauto Hk Hlast Hsince) as Ew.
    fold k since in Ew. fold k.
    destruct (k <? UDP_TIMING_PACKET_DISCONNECT_CYCLE).
    + rewrite Ew in *. cbn [fst snd] in *.
      intros u' l' Hs. rewrite Hst in Hs.
      destruct (Hstate u' l' Hs) as (Ht & Hcnt & Hl).
      split; [rewrite (Hlog _ Hrewind_t); exact Hl |]. split; assumption.
    + destruct (is_alive (ie_client e)).
      * rewrite Ew in *. cbn [fst snd] in *.
        exists (set_rtpoll_item u it). subst r. rewrite Er, (Hstop eq_refl). reflexivity.
      * rewrite Ew in *. cbn [fst snd] in *.
        split; [rewrite (Hlog _ Hrewind_t); apply Hquiet; reflexivity |].
        split.
        -- intros Hs. rewrite (Hlog _ Hrewind_r). apply Hreq; [reflexivity | right; exact Hs].
        -- intros u' l' Hs. rewrite Hst in Hs.
           destruct (Hstate u' l' Hs) as (Ht & Hcnt & _). split; assumption.
Qed.

End WatchdogRound.

Import Scenario.

Lemma watchdog_at_timer_deadline_witness :
  exists u' l',
    round_state (thread_func_round X0 u_udp l_timed round_overdue) = Some (u', l')
    /\ filter timing_log (round_log (thread_func_round X0 u_udp l_timed round_overdue))
       = [E_log_timing_warn 1 10]
    /\ check_timing_count l' = 2 /\ last_timing l' = 5.
Proof.
  assert (Hret : 0 < ie_poll_ret round_overdue) by reflexivity.
  assert (Hk : 0 <= check_timing_count l_timed) by discriminate.
  destruct (watchdog_at_timer_deadline X0 u_udp l_timed round_overdue
              Hret eq_refl eq_refl eq_refl eq_refl eq_refl Hk) as (_ & _ & H).
  assert (Hlast : last_timing l_timed <> 0) by discriminate.
  assert (Hsince : (UDP_TIMING_PACKET_LOSS_MAX / UDP_TIMING_PACKET_DISCONNECT_CYCLE)
                     * check_timing_count l_timed
                   < u64 (ie_now round_overdue - last_timing l_timed)) by reflexivity.
  specialize (H eq_refl Hlast Hsince).
  destruct (round_state (thread_func_round X0 u_udp l_timed round_overdue))
    as [[u' l'] |] eqn:E; [| vm_compute in E; discriminate].
  exists u', l'. split; [reflexivity |].
  exact (H u' l' eq_refl).
Defined.

(** ** The out-of-band scan *)

Lemma nth_app_length (pre post : list pollfd) (x d : pollfd) :
  nth (List.length pre) (pre ++ x :: post) d = x.
Proof. induction pre as [| y pre IH]; simpl; [reflexivity | exact IH]. Qed.

Lemma store_pollfd_app (pre post : list pollfd) (x v : pollfd) :
  store_pollfd (pre ++ x :: post) (List.length pre) v = pre ++ v :: post.
Proof. induction pre as [| y pre IH]; simpl; [reflexivity | rewrite IH; reflexivity]. Qed.

Lemma app_cons_assoc (pre post : list pollfd) (x : pollfd) :
  pre ++ x :: post = (pre ++ [x]) ++ post.
Proof. rewrite <- app_assoc. reflexivity. Qed.

Lemma length_snoc (pre : list pollfd) (x : pollfd) :
  List.length (pre ++ [x]) = S (List.length pre).
Proof. rewrite length_app. simpl. apply Nat.add_1_r. Qed.

(** The scan from the descriptors [post] on, those before it done. *)
Lemma oob_scan_without_errors (ar : bool) (post : list pollfd) :
  forall (pre : list pollfd) (ois : list oob_input) (l : locals),
    forallb (fun p => negb (has_pollerr p)) post = true ->
    exists post',
      fst (fst (fst (oob_scan ar (List.length post) ois (List.length pre) (pre ++ post) l)))
        = pre ++ post'
      /\ forallb serviced post' = true
      /\ snd (oob_scan ar (List.length post) ois (List.length pre) (pre ++ post) l) = false
      /\ forallb not_disconnect_request
           (snd (fst (oob_scan ar (List.length post) ois (List.length pre) (pre ++ post) l)))
         = true.
Proof.
  induction post as [| x post IH]; intros pre ois l Herr.
  - exists []. simpl. repeat split.
  - simpl in Herr. apply andb_prop in Herr. destruct Herr as [Hx Hpost].
    cbn [List.length oob_scan]. rewrite nth_app_length.
    unfold has_pollerr in Hx. rewrite negb_involutive in Hx.
    assert (Hx' : negb (Z.land (revents x) POLLERR =? 0) = false) by (rewrite Hx; reflexivity).
    rewrite Hx'.
    destruct (negb (Z.land (revents x) (events x) =? 0)) eqn:Eready.
    + rewrite store_pollfd_app, app_cons_assoc, <- (length_snoc pre (set_revents x 0)).
      match goal with
      | |- context [oob_scan ar _ ?a _ _ ?d] =>
          destruct (IH (pre ++ [set_revents x 0]) a d Hpost) as (post' & H1 & H2 & H3 & H4);
          destruct (oob_scan ar (List.length post) a (List.length (pre ++ [set_revents x 0]))
                      ((pre ++ [set_revents x 0]) ++ post) d) as [[[f1 l1] e1] b1]
      end.
      simpl in *. exists (set_revents x 0 :: post').
      split; [rewrite H1, <- app_assoc; reflexivity |].
      split; [cbn [forallb]; rewrite H2, andb_true_r; reflexivity |].
      split; [exact H3 | exact H4].
    + rewrite app_cons_assoc, <- (length_snoc pre x).
      destruct (IH (pre ++ [x]) (tl ois) l Hpost) as (post' & H1 & H2 & H3 & H4).
      exists (x :: post').
      split; [rewrite H1, <- app_assoc; reflexivity |].
      split; [| split; [exact H3 | exact H4]].
      cbn [forallb]. rewrite H2, andb_true_r. unfold serviced.
      apply negb_false_iff in Eready. exact Eready.
Qed.

(** X9. A scan over descriptors none of which is in error services them
    all: it never leaves through fail, posts no disconnect request, keeps
    every descriptor number and event mask, and afterwards no descriptor
    has a reported event left that it was polled for. *)
Theorem scan_services_every_descriptor
    (ar : bool) (ois : list oob_input) (fds : list pollfd) (l : locals) :
  forallb (fun p => negb (has_pollerr p)) fds = true ->
  let r := oob_scan ar (List.length fds) ois 0 fds l in
  snd r = false
  /\ forallb serviced (fst (fst (fst r))) = true
  /\ map fd (fst (fst (fst r))) = map fd fds
  /\ map events (fst (fst (fst r))) = map events fds
  /\ forallb not_disconnect_request (snd (fst r)) = true.
Proof.
  intros Herr r.
  destruct (oob_scan_without_errors ar fds [] ois l Herr) as (post' & H1 & H2 & H3 & H4).
  simpl in H1, H3, H4. fold r in H1, H3, H4.
  destruct (oob_scan_fds ar (List.length fds) ois 0 fds l) as [Hfd Hev]. fold r in Hfd, Hev.
  split; [exact H3 |]. split; [rewrite H1; exact H2 |].
  split; [exact Hfd |]. split; [exact Hev | exact H4].
Qed.

(** The scan writes no descriptor at or beyond the pointer plus the
    rounds left. *)
Lemma oob_scan_reach (ar : bool) (n : nat) :
  forall (ois : list oob_input) (p : nat) (fds : list pollfd) (l : locals) (i : nat)
         (d : pollfd),
    (p + n <= i)%nat ->
    nth i (fst (fst (fst (oob_scan ar n ois p fds l)))) d = nth i fds d.
Proof.
  assert (Hstore : forall (fds : list pollfd) (p i : nat) (v d : pollfd),
            p <> i -> nth i (store_pollfd fds p v) d = nth i fds d).
  { induction fds as [| x fds IH]; intros [| p] [| i] v d Hne; simpl;
      try reflexivity; try congruence.
    apply IH. congruence. }
  induction n as [| n IH]; intros ois p fds l i d Hi; simpl; [reflexivity |].
  destruct (negb (Z.land _ POLLERR =? 0)).
  - destruct (ar && _); [| reflexivity].
    match goal with
    | |- context [oob_scan ar n ?a ?b ?c ?e] =>
        specialize (IH a b c e i d); destruct (oob_scan ar n a b c e) as [[[f1 l1] e1] b1]
    end. simpl in *. rewrite IH by lia. apply Hstore. lia.
  - destruct (negb (Z.land _ _ =? 0)).
    + match goal with
      | |- context [oob_scan ar n ?a ?b ?c ?e] =>
          specialize (IH a b c e i d); destruct (oob_scan ar n a b c e) as [[[f1 l1] e1] b1]
      end. simpl in *. rewrite IH by lia. apply Hstore. lia.
    + apply IH. lia.
Qed.

(** One round of the scan on a descriptor in error, recovered. *)
Lemma oob_scan_recover (n : nat) (ois : list oob_input) (p : nat)
    (fds : list pollfd) (l : locals) :
  has_pollerr (nth p fds (mk_pollfd (-1) 0 0)) = true ->
  oi_alive (hd (mk_oob_input false 0 false 0) ois) = true ->
  oob_scan true (S n) ois p fds l =
    let '(fds', l', eff, failed) :=
      oob_scan true n (tl ois) p
        (store_pollfd fds p (set_revents (nth p fds (mk_pollfd (-1) 0 0)) 0)) l in
    (fds', l', E_post_disconnect_request :: eff, failed).
Proof.
  intros Herr Halive. unfold has_pollerr in Herr.
  cbn [oob_scan]. rewrite Herr, Halive. reflexivity.
Qed.

(** X10. The recovery from a descriptor in error costs the scan one
    descriptor: when the first of several descriptors reports POLLERR and
    the scan recovers (auto-reconnect on, client alive), a disconnect
    request is posted and the last descriptor is left exactly as poll
    reported it, unread in this round. *)
Theorem recovered_error_skips_last_descriptor
    (oi : oob_input) (ois : list oob_input) (p0 p1 : pollfd) (fds : list pollfd)
    (l : locals) (d : pollfd) :
  has_pollerr p0 = true -> oi_alive oi = true ->
  let all := p0 :: p1 :: fds in
  let r := oob_scan true (List.length all) (oi :: ois) 0 all l in
  nth (S (List.length fds)) (fst (fst (fst r))) d = nth (S (List.length fds)) all d
  /\ hd E_sink_process_rewind (snd (fst r)) = E_post_disconnect_request.
Proof.
  intros Herr Halive. cbv zeta.
  change (List.length (p0 :: p1 :: fds)) with (S (S (List.length fds))).
  rewrite oob_scan_recover by assumption.
  pose proof (oob_scan_reach true (S (List.length fds)) (tl (oi :: ois)) 0
                (store_pollfd (p0 :: p1 :: fds) 0
                   (set_revents (nth 0 (p0 :: p1 :: fds) (mk_pollfd (-1) 0 0)) 0)) l
                (S (List.length fds)) d (Nat.le_refl _)) as Hreach.
  destruct (oob_scan true (S (List.length fds)) _ 0 _ l) as [[[f1 l1] e1] b1].
  cbn [fst snd hd] in *. split; [| reflexivity].
  rewrite Hreach. reflexivity.
Qed.

Lemma has_pollerr_nth (fds : list pollfd) (p : nat) :
  has_pollerr (nth p fds (mk_pollfd (-1) 0 0)) = true -> existsb has_pollerr fds = true.
Proof.
  revert p. induction fds as [| x fds IH]; intros [| p]; simpl; try discriminate.
  - intros H. rewrite H. reflexivity.
  - intros H. rewrite (IH _ H). apply orb_true_r.
Qed.

Lemma has_pollerr_store (fds : list pollfd) (p : nat) (v : pollfd) :
  has_pollerr v = false ->
  existsb has_pollerr (store_pollfd fds p v) = true -> existsb has_pollerr fds = true.
Proof.
  intros Hv. revert p. induction fds as [| x fds IH]; intros [| p]; simpl; try discriminate.
  - rewrite Hv. simpl. intros H. rewrite H. apply orb_true_r.
  - intros H. apply orb_prop in H. destruct H as [H | H].
    + rewrite H. reflexivity.
    + rewrite (IH _ H). apply orb_true_r.
Qed.

(** The scan leaves through fail only on a descriptor in error. *)
Lemma oob_scan_failure (ar : bool) (n : nat) :
  forall (ois : list oob_input) (p : nat) (fds : list pollfd) (l : locals),
    snd (oob_scan ar n ois p fds l) = true -> existsb has_pollerr fds = true.
Proof.
  induction n as [| n IH]; intros ois p fds l; cbn [oob_scan]; [discriminate |].
  destruct (has_pollerr (nth p fds (mk_pollfd (-1) 0 0))) eqn:Eerr.
  - intros _. apply (has_pollerr_nth fds p). exact Eerr.
  - unfold has_pollerr in Eerr. rewrite Eerr.
    destruct (negb (Z.land _ (events _) =? 0)).
    + match goal with
      | |- context [oob_scan ar n ?a ?b ?c ?e] =>
          specialize (IH a b c e); destruct (oob_scan ar n a b c e) as [[[f1 l1] e1] b1]
      end. cbn [fst snd] in *. intros H.
      eapply has_pollerr_store; [| apply IH; exact H]. reflexivity.
    + apply IH.
Qed.

(** X11. What the scan does to the loop variables: offset and interval
    stay; the watchdog state is either untouched or reset by a timing
    packet, the level back to 1 and the timestamp the time that packet
    was read. *)
Theorem scan_records_timing_packets
    (ar : bool) (n : nat) (ois : list oob_input) (p : nat) (fds : list pollfd) (l : locals) :
  let l' := snd (fst (fst (oob_scan ar n ois p fds l))) in
  offset l' = offset l /\ intvl l' = intvl l
  /\ ((check_timing_count l' = check_timing_count l /\ last_timing l' = last_timing l)
      \/ (check_timing_count l' = 1
          /\ exists oi, In oi ois /\ oi_timing_fd oi = true /\ last_timing l' = oi_now oi)).
Proof.
  revert ois p fds l. induction n as [| n IH]; intros ois p fds l; simpl.
  - repeat split. left. split; reflexivity.
  - assert (Htl : forall oi, In oi (tl ois) -> In oi ois).
    { intros oi. destruct ois; simpl; auto. }
    assert (Hlift : forall l0 : locals,
      (check_timing_count l0 = check_timing_count l /\ last_timing l0 = last_timing l)
      \/ (check_timing_count l0 = 1
          /\ exists oi, In oi (tl ois) /\ oi_timing_fd oi = true /\ last_timing l0 = oi_now oi) ->
      (check_timing_count l0 = check_timing_count l /\ last_timing l0 = last_timing l)
      \/ (check_timing_count l0 = 1
          /\ exists oi, In oi ois /\ oi_timing_fd oi = true /\ last_timing l0 = oi_now oi)).
    { intros l0 [H | (H & oi & Hin & Ht & Hn)]; [left; exact H |].
      right. split; [exact H |]. exists oi. auto. }
    destruct (negb (Z.land _ POLLERR =? 0)).
    + destruct (ar && _); [| simpl; repeat split; left; split; reflexivity].
      match goal with
      | |- context [oob_scan ar n ?a ?b ?c ?e] =>
          specialize (IH a b c e); destruct (oob_scan ar n a b c e) as [[[f1 l1] e1] b1]
      end. simpl in *. destruct IH as (A & B & C). repeat split; auto.
    + destruct (negb (Z.land _ _ =? 0)).
      * destruct (oi_timing_fd (hd _ ois)) eqn:Et.
        -- match goal with
           | |- context [oob_scan ar n ?a ?b ?c ?e] =>
               specialize (IH a b c e); destruct (oob_scan ar n a b c e) as [[[f1 l1] e1] b1]
           end. simpl in *. destruct IH as (A & B & C). repeat split; auto.
           right. destruct C as [[C1 C2] | C]; [| destruct (Hlift l1 (or_intror C)) as [[_ _] | R];
                                                    [| exact R]].
           ++ split; [exact C1 |]. destruct ois as [| oi ois']; [discriminate Et |].
              exists oi. simpl in *. auto.
           ++ destruct C as (C1 & oi & Hin & Ht & Hn). split; [exact C1 |]. exists oi. auto.
        -- match goal with
           | |- context [oob_scan ar n ?a ?b ?c ?e] =>
               specialize (IH a b c e); destruct (oob_scan ar n a b c e) as [[[f1 l1] e1] b1]
           end. simpl in *. destruct IH as (A & B & C). repeat split; auto.
      * specialize (IH (tl ois) (S p) fds l). destruct IH as (A & B & C). repeat split; auto.
Qed.

(** ** Failure of a round *)

Section RoundFailure.

Context (X : externals).

Lemma after_delivery_not_fatal (u : userdata) (l : locals) (canstream on_timeout : bool)
    (now : Z) (eff : list effect) :
  match after_delivery X u l canstream on_timeout now eff with
  | Goto_fail _ _ _ => False
  | _ => True
  end.
Proof. unfold after_delivery. split_branches; try exact I; destruct (store_first _ _ _); exact I. Qed.

Lemma deliver_not_fatal (u : userdata) (l : locals) (canstream on_timeout : bool)
    (s : send_outcome) (now_put : Z) :
  autoreconnect u = true ->
  match deliver X u l canstream on_timeout s now_put with
  | Goto_fail _ _ _ => False
  | _ => True
  end.
Proof.
  intros Ha. unfold deliver.
  destruct (0 <? length (memchunk u)); [| exact I].
  destruct (negb (autonull u) || autonull u && canstream);
    [| apply after_delivery_not_fatal].
  destruct (so_ret s <? 0); [| apply after_delivery_not_fatal].
  change (autoreconnect (set_memchunk u
            (mk_memchunk (memblock (memchunk u)) (so_index s) (so_length s))))
    with (autoreconnect u).
  rewrite Ha.
  destruct (so_errno s =? EINTR); [exact I |].
  destruct (negb _ && negb _); [destruct (store_first _ _ _); exact I | exact I].
Qed.

(** X12. With auto-reconnect a round leaves the loop through fail in two
    cases only: poll itself failed, or, on the out-of-band transport
    before the timer deadline, a descriptor reported POLLERR.  No send
    failure ends the loop. *)
Theorem autoreconnect_round_fails_only_at_poll
    (u u' : userdata) (l l' : locals) (e : iter_env) (eff : list effect) :
  autoreconnect u = true ->
  thread_func_round X u l e = Goto_fail u' l' eff ->
  ie_poll_ret e < 0
  \/ (oob u = true /\ ie_on_timeout e = false
      /\ exists fds0,
           rtpoll_item u = Some fds0
           /\ existsb has_pollerr (poll_revents fds0 (ie_revents e)) = true).
Proof.
  intros Ha.
  assert (Haudio : forall it hp,
            match audio_round X (set_rtpoll_item u it) l e hp with
            | Goto_fail _ _ _ => False
            | _ => True
            end).
  { intros it hp. rewrite audio_round_eq.
    destruct (negb (sink_state_eqb _ PA_SINK_RUNNING)); [exact I |].
    cbv zeta.
    destruct (snd (watchdog _ _ _ _ _ _)); [exact I |].
    destruct (negb _ && negb (can_stream _)); [exact I |].
    destruct (negb _ && negb hp); [exact I |].
    match goal with
    | |- context [deliver X ?a ?b ?c ?d ?f ?h] =>
        assert (Hd : autoreconnect a = true)
          by (unfold render, first_round; split_branches; exact Ha);
        pose proof (deliver_not_fatal a b c d f h Hd) as Hnf;
        destruct (deliver X a b c d f h)
    end; simpl; auto. }
  assert (Hpre : forall eff0 it hp,
            prepend eff0 (audio_round X (set_rtpoll_item u it) l e hp) <> Goto_fail u' l' eff).
  { intros eff0 it hp H. specialize (Haudio it hp).
    destruct (audio_round X (set_rtpoll_item u it) l e hp); simpl in H;
      try discriminate H. exact Haudio. }
  rewrite thread_func_round_eq.
  destruct (ie_poll_ret e <? 0) eqn:Ep; [intros _; left; apply Z.ltb_lt; exact Ep |].
  destruct (ie_poll_ret e =? 0); [discriminate |].
  cbv zeta.
  destruct (rtpoll_item u) as [fds0 |] eqn:Ei.
  - destruct (poll_revents fds0 (ie_revents e)) as [| p0 fds] eqn:Er.
    + intros H. exfalso. eapply Hpre; exact H.
    + destruct (negb _ && (revents p0 =? 0)); [discriminate |].
      destruct (oob _ && negb _) eqn:Eo.
      * apply andb_prop in Eo. destruct Eo as [Eo Et]. apply negb_true_iff in Et.
        destruct (snd (oob_scan _ _ _ _ _ _)) eqn:Es; [| discriminate].
        intros _. right. split; [exact Eo |]. split; [exact Et |].
        exists fds0. split; [reflexivity |]. rewrite Er.
        eapply oob_scan_failure. exact Es.
      * intros H. exfalso. eapply Hpre; exact H.
  - intros H. exfalso.
    assert (Hu : set_rtpoll_item u None = u).
    { destruct u; simpl in *. rewrite Ei. reflexivity. }
    eapply (Hpre _ None false). rewrite Hu. exact H.
Qed.

End RoundFailure.

(** ** What the handlers log *)

Lemma close_pollfds_log (fds : list pollfd) :
  forallb handler_effect (close_pollfds fds) = true.
Proof.
  unfold close_pollfds. induction fds as [| p fds IH]; simpl; [reflexivity |].
  destruct (0 <=? fd p); simpl; exact IH.
Qed.

Section HandlerLogs.

Context (X : externals).

Lemma sink_set_volume_cb_log (s : pa_sink) :
  forallb handler_effect (snd (sink_set_volume_cb X s)) = true.
Proof. unfold sink_set_volume_cb. destruct (muted s); reflexivity. Qed.

Lemma sink_set_mute_cb_log (s : pa_sink) :
  forallb handler_effect (snd (sink_set_mute_cb X s)) = true.
Proof.
  unfold sink_set_mute_cb. destruct (muted s); [reflexivity | apply sink_set_volume_cb_log].
Qed.

Lemma raop_disconnected_log (u : userdata) :
  forallb handler_effect (snd (raop_disconnected u)) = true.
Proof.
  unfold raop_disconnected.
  destruct (rtpoll_item u) as [fds |]; simpl; split_branches; simpl;
    rewrite ?forallb_app, ?close_pollfds_log; reflexivity.
Qed.

Lemma sink_process_msg_log (u u' : userdata) (m : message) (e : msg_env)
    (eff : list effect) (d : option Z) :
  sink_process_msg X u m e = Ok (u', eff, d) -> forallb handler_effect eff = true.
Proof.
  destruct m as [| | st | code]; simpl.
  - destruct (sink_state_eqb _ _); intros H; inversion H; reflexivity.
  - intros H; inversion H; reflexivity.
  - destruct st.
    + pose proof (raop_disconnected_log u) as Hl.
      destruct (raop_disconnected u) as [u1 eff1]. intros H; inversion H; subst. exact Hl.
    + unfold raop_authenticated. split_branches; intros H; inversion H; reflexivity.
    + unfold raop_connected. destruct (rtpoll_item u); [discriminate |].
      destruct (me_register e). intros H; inversion H; reflexivity.
    + unfold raop_recording.
      destruct (sink_state_eqb _ PA_SINK_SUSPENDED); [intros H; inversion H; reflexivity |].
      match goal with
      | |- context [sink_set_volume_cb X ?s] =>
          pose proof (sink_set_volume_cb_log s) as Hl; destruct (sink_set_volume_cb X s)
      end. intros H; inversion H; subst. simpl in Hl.
      rewrite forallb_app, Hl. reflexivity.
    + pose proof (raop_disconnected_log u) as Hl.
      destruct (raop_disconnected u) as [u1 eff1]. intros H; inversion H; subst. exact Hl.
  - intros H; inversion H; reflexivity.
Qed.

Lemma sink_set_state_log (u u' : userdata) (st : pa_sink_state_t) (e : msg_env)
    (eff : list effect) :
  sink_set_state_in_io_thread_cb u st e = Ok (u', eff) -> forallb handler_effect eff = true.
Proof.
  unfold sink_set_state_in_io_thread_cb.
  destruct (sink_state_eqb st _); [intros H; inversion H; reflexivity |].
  destruct st; split_branches; intros H; inversion H; reflexivity.
Qed.

(** What one step of the system appends to the log: either the calls of
    a handler, the I/O thread untouched, or the log of one round of a
    looping thread, followed by the unload request when the round left
    through fail. *)
Lemma step_log (s s' : system) (ev : event) :
  step X s ev = Ok s' ->
  exists delta,
    sys_log s' = sys_log s ++ delta
    /\ ((forallb handler_effect delta = true
         /\ sys_l s' = sys_l s /\ sys_thread s' = sys_thread s)
        \/ exists e,
             ev = Ev_round e /\ sys_thread s = Looping
             /\ round_state (thread_func_round X (sys_u s) (sys_l s) e)
                = Some (sys_u s', sys_l s')
             /\ delta = round_log (thread_func_round X (sys_u s) (sys_l s) e)
                        ++ (if is_goto_fail (thread_func_round X (sys_u s) (sys_l s) e)
                            then [E_post_unload_module] else [])
             /\ (sys_thread s' = Failed
                 <-> is_goto_fail (thread_func_round X (sys_u s) (sys_l s) e) = true)).
Proof.
  destruct ev as [m e | st e | st | v | b | e]; simpl.
  - destruct (sink_process_msg X (sys_u s) m e) as [[[u' eff] d] | f] eqn:E;
      [| discriminate].
    intros H; inversion H; subst; simpl. exists eff. split; [reflexivity |]. left.
    split; [eapply sink_process_msg_log; exact E | split; reflexivity].
  - destruct (sink_set_state_in_io_thread_cb (sys_u s) st e) as [[u' eff] | f] eqn:E;
      [| discriminate].
    intros H; inversion H; subst; simpl. exists eff. split; [reflexivity |]. left.
    split; [eapply sink_set_state_log; exact E | split; reflexivity].
  - intros H; inversion H; subst; simpl. exists []. split; [symmetry; apply app_nil_r |].
    left. repeat split.
  - match goal with
    | |- context [sink_set_volume_cb X ?k] =>
        pose proof (sink_set_volume_cb_log k) as Hl; destruct (sink_set_volume_cb X k) as [sk' eff]
    end. intros H; inversion H; subst; simpl. exists eff. split; [reflexivity |]. left.
    split; [exact Hl | split; reflexivity].
  - match goal with
    | |- context [sink_set_mute_cb X ?k] =>
        pose proof (sink_set_mute_cb_log k) as Hl; destruct (sink_set_mute_cb X k) as [sk' eff]
    end. intros H; inversion H; subst; simpl. exists eff. split; [reflexivity |]. left.
    split; [exact Hl | split; reflexivity].
  - destruct (sys_thread s) eqn:Et.
    + remember (thread_func_round X (sys_u s) (sys_l s) e) as r eqn:Er.
      destruct r as [u' l' eff | u' l' eff | u' l' eff | f].
      * intros H; inversion H; subst s'; simpl.
        exists eff. split; [reflexivity |]. right. exists e.
        rewrite <- Er. simpl. rewrite app_nil_r.
        repeat split; try reflexivity; discriminate.
      * intros H; inversion H; subst s'; simpl.
        exists (eff ++ [E_post_unload_module]). split; [reflexivity |]. right. exists e.
        rewrite <- Er. simpl. repeat split; reflexivity.
      * intros H; inversion H; subst s'; simpl.
        exists eff. split; [reflexivity |]. right. exists e.
        rewrite <- Er. simpl. rewrite app_nil_r.
        repeat split; try reflexivity; discriminate.
      * discriminate.
    + intros H; inversion H; subst. exists []. split; [symmetry; apply app_nil_r |].
      left. repeat split. exact Et.
    + intros H; inversion H; subst. exists []. split; [symmetry; apply app_nil_r |].
      left. repeat split. exact Et.
Qed.

(** A property every step keeps holds after every run. *)
Lemma run_preserves (I : system -> Prop) :
  (forall s ev s', I s -> step X s ev = Ok s' -> I s') ->
  forall evs s s', I s -> run X s evs = Ok s' -> I s'.
Proof.
  intros Hstep. induction evs as [| ev evs IH]; intros s s' Hi; simpl.
  - intros H; inversion H; subst. exact Hi.
  - destruct (step X s ev) as [s1 | f] eqn:E; [| discriminate].
    apply IH. eapply Hstep; eassumption.
Qed.

(** The system right after construction. *)
Lemma boot_start (ma : pa_modargs) (e : new_env) (now : Z) (s0 : system) :
  boot X ma e now = Some s0 ->
  sys_l s0 = locals_init /\ sys_thread s0 = Looping /\ sys_log s0 = [E_client_authenticate].
Proof.
  unfold boot.
  destruct (pa_raop_sink_new X ma e) as [[u eff] |] eqn:E; [| discriminate].
  intros H; inversion H; subst; clear H. simpl.
  repeat split. revert E. unfold pa_raop_sink_new.
  repeat match goal with
         | |- match ?x with _ => _ end = _ -> _ => destruct x eqn:?
         end; try discriminate.
  intros H; inversion H; reflexivity.
Qed.

Lemma round_warnings_numbered (u : userdata) (l : locals) (e : iter_env) :
  level_in_range l ->
  forallb warning_numbered (round_log (thread_func_round X u l e)) = true.
Proof.
  intros Hl. apply round_log_forallb; try reflexivity.
  - intros _ _ ev. destruct ev; simpl; intros H; try reflexivity; discriminate H.
  - intros _ it ev.
    pose proof (first_round_level (set_rtpoll_item u it) l Hl) as Hl1.
    unfold watchdog_effect.
    destruct ev; simpl; intros H; try reflexivity.
    apply andb_prop in H. destruct H as [H Hlt]. apply andb_prop in H. destruct H as [_ Hk].
    apply Z.eqb_eq in Hk. subst level. rewrite Hlt, andb_true_r.
    apply Z.leb_le. destruct Hl1 as [Hlow _]. exact Hlow.
  - intros _ it ev. destruct ev; simpl; intros H; try reflexivity; discriminate H.
  - intros _ u3 ev _ _. destruct ev; simpl; intros H; try reflexivity; discriminate H.
Qed.

Lemma round_posts_no_unload (u : userdata) (l : locals) (e : iter_env) :
  forallb not_unload_post (round_log (thread_func_round X u l e)) = true.
Proof.
  apply round_log_forallb; try reflexivity; intros;
    match goal with
    | H : _ ?ev = true |- _ => destruct ev; simpl in H |- *; try reflexivity; discriminate H
    end.
Qed.

(** X13. From construction on, through any run, the warning level of the
    watchdog stays between 1 and the number of cycles, and every timing
    warning in the log is numbered between 1 and cycles - 1, as its
    message announces. *)
Theorem warning_level_stays_in_range
    (ma : pa_modargs) (e : new_env) (now : Z) (s0 s' : system) (evs : list event) :
  boot X ma e now = Some s0 ->
  run X s0 evs = Ok s' ->
  level_in_range (sys_l s') /\ forallb warning_numbered (sys_log s') = true.
Proof.
  intros Hboot.
  destruct (boot_start _ _ _ _ Hboot) as (Hl & _ & Hlog).
  apply (run_preserves
           (fun s => level_in_range (sys_l s) /\ forallb warning_numbered (sys_log s) = true)).
  - intros s ev s1 [Il Ilog] Hstep.
    destruct (step_log _ _ _ Hstep)
      as (delta & Hd & [(Hh & Hsl & _) | (e1 & _ & _ & Hst & Hdelta & _)]).
    + split; [rewrite Hsl; exact Il |].
      rewrite Hd, forallb_app, Ilog. simpl.
      eapply forallb_impl; [| exact Hh].
      intros ev0. destruct ev0; simpl; intros H; try reflexivity; discriminate H.
    + pose proof (round_level X (sys_u s) (sys_l s) e1 Il) as Hlev.
      rewrite Hst in Hlev. split; [exact Hlev |].
      rewrite Hd, Hdelta, !forallb_app, Ilog, (round_warnings_numbered _ _ _ Il). simpl.
      destruct (is_goto_fail _); reflexivity.
  - rewrite Hl, Hlog. split; [| reflexivity].
    unfold level_in_range, UDP_TIMING_PACKET_DISCONNECT_CYCLE. simpl. lia.
Qed.

(** X14. The I/O thread asks for the module to be unloaded exactly once,
    when it leaves its loop through fail, and never otherwise: after any
    run from construction the log holds one such request if the thread
    has failed and none if it is looping or has finished. *)
Theorem thread_asks_for_unload_once
    (ma : pa_modargs) (e : new_env) (now : Z) (s0 s' : system) (evs : list event) :
  boot X ma e now = Some s0 ->
  run X s0 evs = Ok s' ->
  unload_posts (sys_log s')
    = match sys_thread s' with Failed => 1%nat | _ => 0%nat end.
Proof.
  intros Hboot.
  destruct (boot_start _ _ _ _ Hboot) as (_ & Hth & Hlog).
  apply (run_preserves
           (fun s => unload_posts (sys_log s)
                     = match sys_thread s with Failed => 1%nat | _ => 0%nat end)).
  - intros s ev s1 Inv Hstep. unfold unload_posts in *.
    destruct (step_log _ _ _ Hstep)
      as (delta & Hd & [(Hh & _ & Hth1) | (e1 & _ & Hloop & _ & Hdelta & Hfail)]).
    + rewrite Hd, filter_app, length_app, Hth1, Inv.
      rewrite (filter_nil_of_forallb handler_effect is_unload_post delta); [simpl; lia | | exact Hh].
      intros ev0. destruct ev0; simpl; intros H; try reflexivity; discriminate H.
    + rewrite Hloop in Inv.
      rewrite Hd, Hdelta, !filter_app, !length_app, Inv.
      rewrite (filter_nil_of_forallb not_unload_post is_unload_post
                 (round_log (thread_func_round X (sys_u s) (sys_l s) e1)));
        [| intros ev0; unfold not_unload_post; apply negb_true_iff
         | apply round_posts_no_unload].
      destruct (is_goto_fail _) eqn:Ef.
      * rewrite (proj2 Hfail eq_refl). reflexivity.
      * destruct (sys_thread s1); try reflexivity.
        destruct Hfail as [Hf _]. specialize (Hf eq_refl). discriminate Hf.
  - rewrite Hth, Hlog. reflexivity.
Qed.

End HandlerLogs.

(** ** Teardown *)

(** X15. [userdata_free] makes every release call other than
    [pa_thread_mq_done] exactly once if what it releases exists and not
    at all if it does not.  [pa_thread_mq_done] is not guarded: it is
    made exactly once whether or not the thread queue was initialised,
    so also on an instance whose construction failed before
    [pa_thread_mq_init].  When there is an I/O thread, nothing but the
    unlinking of the sink and the shutdown message comes before the
    thread is joined: the poll set, the chunk, the client and the
    smoother are released only afterwards. *)
Theorem userdata_free_releases_once (u : userdata) (p : pointers) (r : release) :
  release_count r (userdata_free u p)
    = (if release_eqb r R_thread_mq_done || exists_for u p r then 1%nat else 0%nat)
  /\ (has_thread p = true ->
      released R_thread_free (userdata_free u p) = true
      /\ forallb harmless_before_join (before_thread_free (userdata_free u p)) = true).
Proof.
  unfold userdata_free, exists_for.
  destruct p as [hs ht hq hr ha hm hc hv]. simpl.
  destruct (rtpoll_item u) as [it |], (memblock (memchunk u));
    destruct hs, ht, hq, hr, ha, hm, hc, hv, r; simpl;
    (split; [reflexivity | intros H; try discriminate H; split; reflexivity]).
Qed.

Section MoreHandlers.

Context (X : externals).

(** ** Volume and mute *)

(** X16. Setting the volume is idempotent: running the callback again on
    its own result pushes the same value and yields the same sink; and it
    never changes the requested volume, the mute flag, the channel count
    or either sink state. *)
Theorem set_volume_idempotent (s : pa_sink) :
  sink_set_volume_cb X (fst (sink_set_volume_cb X s)) = sink_set_volume_cb X s
  /\ real_volume (fst (sink_set_volume_cb X s)) = real_volume s
  /\ muted (fst (sink_set_volume_cb X s)) = muted s
  /\ channels (fst (sink_set_volume_cb X s)) = channels s
  /\ state (fst (sink_set_volume_cb X s)) = state s
  /\ thread_info_state (fst (sink_set_volume_cb X s)) = thread_info_state s.
Proof.
  unfold sink_set_volume_cb. destruct (muted s) eqn:Em; simpl.
  - rewrite Em. repeat split.
  - rewrite Em. repeat split.
Qed.

Lemma round_pushes_no_volume (u : userdata) (l : locals) (e : iter_env) :
  forallb mute_or_no_volume (round_log (thread_func_round X u l e)) = true.
Proof.
  apply round_log_forallb; try reflexivity; intros;
    match goal with
    | H : _ ?ev = true |- _ => destruct ev; simpl in H |- *; try reflexivity; discriminate H
    end.
Qed.

Lemma close_pollfds_no_volume (fds : list pollfd) :
  forallb mute_or_no_volume (close_pollfds fds) = true.
Proof.
  unfold close_pollfds. induction fds as [| p fds IH]; simpl; [reflexivity |].
  destruct (0 <=? fd p); simpl; exact IH.
Qed.

Lemma raop_disconnected_no_volume (u : userdata) :
  forallb mute_or_no_volume (snd (raop_disconnected u)) = true.
Proof.
  unfold raop_disconnected.
  destruct (rtpoll_item u) as [fds |]; simpl; split_branches; simpl;
    rewrite ?forallb_app, ?close_pollfds_no_volume; reflexivity.
Qed.

Lemma sink_set_volume_cb_muted (s : pa_sink) :
  muted s = true -> sink_set_volume_cb X s = (s, []).
Proof. unfold sink_set_volume_cb. intros H. rewrite H. reflexivity. Qed.

(** X17. A muted sink never pushes an audible volume.  Whatever happens
    (a message, a state change, a volume or mute request, a loop round),
    if the sink is muted afterwards then every volume the step pushed to
    the client is the mute sentinel. *)
Theorem muted_sink_pushes_only_mute (s s' : system) (ev : event) :
  step X s ev = Ok s' ->
  muted (sink (sys_u s')) = true ->
  exists delta,
    sys_log s' = sys_log s ++ delta /\ forallb mute_or_no_volume delta = true.
Proof.
  destruct ev as [m e | st e | st | v | b | e]; simpl.
  - destruct m as [| | rs | code]; simpl.
    + destruct (sink_state_eqb _ _); intros H Hm; inversion H; subst; simpl;
        eexists; split; reflexivity.
    + intros H Hm; inversion H; subst; simpl. first [eexists; split; reflexivity | exists []; split; [symmetry; apply app_nil_r | reflexivity]].
    + destruct rs.
      * pose proof (raop_disconnected_no_volume (sys_u s)) as Hl.
        destruct (raop_disconnected (sys_u s)) as [u1 eff1].
        intros H Hm; inversion H; subst; simpl. exists eff1. split; [reflexivity | exact Hl].
      * unfold raop_authenticated. split_branches; intros H Hm; inversion H; subst; simpl;
          eexists; split; reflexivity.
      * unfold raop_connected. destruct (rtpoll_item (sys_u s)); [discriminate |].
        destruct (me_register e). intros H Hm; inversion H; subst; simpl.
        eexists; split; reflexivity.
      * unfold raop_recording.
        destruct (sink_state_eqb _ PA_SINK_SUSPENDED).
        -- intros H Hm; inversion H; subst; simpl. eexists; split; reflexivity.
        -- cbn [sink set_rtpoll_timer set_first set_start set_write_count].
           destruct (muted (sink (sys_u s))) eqn:Em.
           ++ rewrite (sink_set_volume_cb_muted _ Em).
              intros H Hm; inversion H; subst; simpl. eexists; split; reflexivity.
           ++ unfold sink_set_volume_cb. rewrite Em.
              intros H Hm; inversion H; subst; simpl in Hm. congruence.
      * pose proof (raop_disconnected_no_volume (sys_u s)) as Hl.
        destruct (raop_disconnected (sys_u s)) as [u1 eff1].
        intros H Hm; inversion H; subst; simpl. exists eff1. split; [reflexivity | exact Hl].
    + intros H Hm; inversion H; subst; simpl. eexists; split; reflexivity.
  - destruct (sink_set_state_in_io_thread_cb (sys_u s) st e) as [[u' eff] | f] eqn:E;
      [| discriminate].
    intros H Hm; inversion H; subst; simpl. exists eff. split; [reflexivity |].
    revert E. unfold sink_set_state_in_io_thread_cb.
    destruct (sink_state_eqb st _); [intros E; inversion E; reflexivity |].
    destruct st; split_branches; intros E; inversion E; reflexivity.
  - intros H Hm; inversion H; subst; simpl. first [eexists; split; reflexivity | exists []; split; [symmetry; apply app_nil_r | reflexivity]].
  - unfold sink_set_volume_cb. cbn [muted].
    destruct (muted (sink (sys_u s))) eqn:Em;
      intros H Hm; inversion H; subst; simpl in *; [| congruence].
    first [eexists; split; reflexivity | exists []; split; [symmetry; apply app_nil_r | reflexivity]].
  - unfold sink_set_mute_cb, sink_set_volume_cb. cbn [muted].
    destruct b; intros H Hm; inversion H; subst; simpl in *; [| congruence].
    eexists; split; reflexivity.
  - destruct (sys_thread s).
    + pose proof (round_pushes_no_volume (sys_u s) (sys_l s) e) as Hr.
      destruct (thread_func_round X (sys_u s) (sys_l s) e) as [u' l' eff | u' l' eff | u' l' eff | f];
        try discriminate; intros H Hm; inversion H; subst; simpl in *;
        eexists; (split; [reflexivity |]); rewrite ?forallb_app, ?Hr; reflexivity.
    + intros H Hm; inversion H; subst. first [eexists; split; reflexivity | exists []; split; [symmetry; apply app_nil_r | reflexivity]].
    + intros H Hm; inversion H; subst. first [eexists; split; reflexivity | exists []; split; [symmetry; apply app_nil_r | reflexivity]].
Qed.

End MoreHandlers.

Section Scenarios.

Context (X : externals).

(** ** Construction *)

(** X18. [pa_raop_sink_new] publishes a sink only for arguments it
    accepts: a server, a protocol that is exactly TCP or UDP, an
    encryption that is absent, none or RSA, a codec that is absent, PCM or
    ALAC.  The instance it publishes has no poll item, no timer, an empty
    chunk, a zero cursor, auto-null equal to auto-reconnect and a block
    duration that is the block size converted; and the last thing a
    successful construction does is ask the client to authenticate. *)
Theorem sink_new_checks_arguments (ma : pa_modargs) (e : new_env) (u : userdata)
    (eff : list effect) :
  pa_raop_sink_new X ma e = Some (u, eff) ->
  pa_modargs_get_value ma "server" = Some (server u)
  /\ (pa_modargs_get_value ma "protocol" = Some "TCP"%string
        /\ protocol u = PA_RAOP_PROTOCOL_TCP
      \/ pa_modargs_get_value ma "protocol" = Some "UDP"%string
        /\ protocol u = PA_RAOP_PROTOCOL_UDP)
  /\ (pa_modargs_get_value ma "encryption" = None /\ encryption u = PA_RAOP_ENCRYPTION_NONE
      \/ pa_modargs_get_value ma "encryption" = Some "none"%string
        /\ encryption u = PA_RAOP_ENCRYPTION_NONE
      \/ pa_modargs_get_value ma "encryption" = Some "RSA"%string
        /\ encryption u = PA_RAOP_ENCRYPTION_RSA)
  /\ (pa_modargs_get_value ma "codec" = None /\ codec u = PA_RAOP_CODEC_PCM
      \/ pa_modargs_get_value ma "codec" = Some "PCM"%string /\ codec u = PA_RAOP_CODEC_PCM
      \/ pa_modargs_get_value ma "codec" = Some "ALAC"%string /\ codec u = PA_RAOP_CODEC_ALAC)
  /\ ne_get_value_boolean e ma "autoreconnect" false = Some (autoreconnect u)
  /\ autonull u = autoreconnect u
  /\ ne_get_value_u32 e ma "latency_msec" RAOP_DEFAULT_LATENCY = Some (latency u)
  /\ ne_sink e = Some (sink u)
  /\ rtpoll_item u = None /\ rtpoll_timer u = None /\ oob u = true /\ first u = false
  /\ memchunk u = pa_memchunk_reset /\ write_count u = 0
  /\ block_size u = u64 (ne_frames_per_block e * ne_frame_size e)
  /\ block_usec u = pa_bytes_to_usec X (block_size u)
  /\ exists before, eff = before ++ [E_client_authenticate].
Proof.
  unfold pa_raop_sink_new.
  destruct (negb (ne_sample_spec_ok e)); [discriminate |].
  destruct (pa_modargs_get_value ma "server") as [sv |]; [| discriminate].
  destruct (pa_modargs_get_value ma "protocol") as [pr |]; [| discriminate].
  cbv zeta.
  destruct (ne_get_value_boolean e ma "autoreconnect" false) as [ar |]; [| discriminate].
  destruct (ne_get_value_u32 e ma "latency_msec" RAOP_DEFAULT_LATENCY) as [la |];
    [| discriminate].
  destruct (negb (ne_thread_mq_init_ok e)); [discriminate |].
  destruct (parse_protocol pr) as [p1 |] eqn:Ep; [| discriminate].
  destruct (parse_encryption (pa_modargs_get_value ma "encryption")) as [e1 |] eqn:Ee;
    [| discriminate].
  destruct (parse_codec (pa_modargs_get_value ma "codec")) as [c1 |] eqn:Ec;
    [| discriminate].
  destruct (negb (ne_proplist_ok e)); [discriminate |].
  destruct (negb (ne_port_ok e)); [discriminate |].
  destruct (negb (ne_card_ok e)); [discriminate |].
  destruct (ne_sink e) as [sk |]; [| discriminate].
  destruct (negb (ne_client_ok e)); [discriminate |].
  destruct (negb (ne_thread_ok e)); [discriminate |].
  intros H; inversion H; subst; clear H. simpl.
  split; [reflexivity |]. split.
  { unfold parse_protocol in Ep.
    destruct (String.eqb pr "TCP") eqn:E1.
    - apply String.eqb_eq in E1. inversion Ep; subst. left. split; reflexivity.
    - destruct (String.eqb pr "UDP") eqn:E2; [| discriminate].
      apply String.eqb_eq in E2. inversion Ep; subst. right. split; reflexivity. }
  split.
  { unfold parse_encryption in Ee.
    destruct (pa_modargs_get_value ma "encryption") as [en |].
    - destruct (String.eqb en "none") eqn:E1.
      + apply String.eqb_eq in E1. inversion Ee; subst. right. left. split; reflexivity.
      + destruct (String.eqb en "RSA") eqn:E2; [| discriminate].
        apply String.eqb_eq in E2. inversion Ee; subst. right. right. split; reflexivity.
    - inversion Ee; subst. left. split; reflexivity. }
  split.
  { unfold parse_codec in Ec.
    destruct (pa_modargs_get_value ma "codec") as [cn |].
    - destruct (String.eqb cn "PCM") eqn:E1.
      + apply String.eqb_eq in E1. inversion Ec; subst. right. left. split; reflexivity.
      + destruct (String.eqb cn "ALAC") eqn:E2; [| discriminate].
        apply String.eqb_eq in E2. inversion Ec; subst. right. right. split; reflexivity.
    - inversion Ec; subst. left. split; reflexivity. }
  repeat split. exists []. reflexivity.
Qed.

(** ** Authentication *)

(** X19. The Authenticated notification asks for the module to be
    unloaded exactly when the client reports that authentication failed,
    and announces a connection exactly when auto-reconnect is on, the sink
    is running and the client is not alive; the two do not exclude each
    other.  It resets the smoother to the current time when auto-reconnect
    is on and the sink is running, and changes nothing else. *)
Theorem authenticated_transition (u : userdata) (e : msg_env) :
  exists u' eff,
    sink_process_msg X u (PA_SINK_MESSAGE_SET_RAOP_STATE PA_RAOP_AUTHENTICATED) e
      = Ok (u', eff, None)
    /\ (In E_module_unload_request eff <-> is_authenticated (me_client e) = false)
    /\ (In E_client_announce eff <->
        autoreconnect u = true /\ state (sink u) = PA_SINK_RUNNING
        /\ is_alive (me_client e) = false)
    /\ (forall ev, In ev eff -> ev = E_module_unload_request \/ ev = E_client_announce)
    /\ u' = (if autoreconnect u && sink_state_eqb (state (sink u)) PA_SINK_RUNNING
             then set_smoother u (pa_smoother_reset (smoother u) (me_now e))
             else u).
Proof.
  simpl. unfold raop_authenticated.
  destruct (is_authenticated (me_client e)) eqn:Ea;
    destruct (autoreconnect u) eqn:Er;
    destruct (sink_state_eqb (state (sink u)) PA_SINK_RUNNING) eqn:Es;
    destruct (is_alive (me_client e)) eqn:El; simpl;
    eexists; eexists; (split; [reflexivity |]);
    try (apply sink_state_eqb_eq in Es);
    (split; [| split; [| split; [| reflexivity]]]); simpl;
    try (split; intros; intuition (try discriminate; try congruence));
    try (intros ev Hin; intuition congruence).
  all: try (match goal with
            | H : sink_state_eqb ?a ?b = false, H' : ?a = ?b |- _ =>
                rewrite H' in H; simpl in H; discriminate H
            end).
Qed.

(** ** Entering Running *)

(** X20. When the I/O-thread state changes to Running, the callback
    always resets the smoother to the current time and sends at most one
    request: an announcement when the client is not alive, a stream start
    when it is alive but not recording, nothing when it is already
    recording; it never announces over a live connection.  The cursor, the
    stream start and the timer are restarted exactly when auto-null is on
    or a stream start is sent; the poll item and the chunk are kept. *)
Theorem entering_running (u : userdata) (e : msg_env) :
  thread_info_state (sink u) <> PA_SINK_RUNNING ->
  exists u' eff,
    sink_set_state_in_io_thread_cb u PA_SINK_RUNNING e = Ok (u', eff)
    /\ smoother u' = pa_smoother_reset (smoother u) (me_now e)
    /\ eff = (if negb (is_alive (me_client e)) then [E_client_announce]
              else if negb (is_recording (me_client e)) then [E_client_stream]
              else [])
    /\ (if autonull u || (is_alive (me_client e) && negb (is_recording (me_client e)))
        then write_count u' = 0 /\ start u' = me_now e
             /\ rtpoll_timer u' = Some (me_now e)
        else write_count u' = write_count u /\ start u' = start u
             /\ rtpoll_timer u' = rtpoll_timer u)
    /\ first u' = (autonull u || first u)
    /\ rtpoll_item u' = rtpoll_item u /\ memchunk u' = memchunk u
    /\ sink u' = sink u.
Proof.
  intros Hrun. unfold sink_set_state_in_io_thread_cb.
  destruct (sink_state_eqb PA_SINK_RUNNING (thread_info_state (sink u))) eqn:Es.
  { apply sink_state_eqb_eq in Es. symmetry in Es. contradiction. }
  cbv zeta. cbn [autonull set_smoother].
  destruct (autonull u) eqn:En;
    destruct (is_alive (me_client e)) eqn:El;
    destruct (is_recording (me_client e)) eqn:Ec; simpl;
    eexists; eexists; (split; [reflexivity |]); simpl; rewrite ?En; repeat split.
Qed.

(** ** The cursor between two stream starts *)

(** X21. From a Recording notification on, until the next Recording
    notification or change to Running, the cursor is the number of bytes
    the log shows as accepted by the client or discarded by the null-sink
    emulation since that notification, modulo 2^64. *)
Theorem cursor_counts_since_recording (s s' : system) (e : msg_env) (evs : list event) :
  forallb keeps_cursor evs = true ->
  run X s (Ev_message (PA_SINK_MESSAGE_SET_RAOP_STATE PA_RAOP_RECORDING) e :: evs) = Ok s' ->
  exists d0 delta,
    sys_log s' = sys_log s ++ d0 ++ delta
    /\ forallb not_audio d0 = true
    /\ write_count (sys_u s') = u64 (accepted_bytes delta + discarded_bytes delta).
Proof.
  intros Hk. cbn [run step sink_process_msg].
  destruct (raop_recording X (sys_u s) (me_now e)) as [u1 eff1] eqn:E.
  assert (Hu : write_count u1 = 0 /\ forallb not_audio eff1 = true).
  { revert E. unfold raop_recording. cbv zeta.
    destruct (sink_state_eqb _ PA_SINK_SUSPENDED).
    - intros H; inversion H; subst. split; reflexivity.
    - cbn [sink set_rtpoll_timer set_first set_start set_write_count].
      unfold sink_set_volume_cb. destruct (muted (sink (sys_u s)));
        intros H; inversion H; subst; split; reflexivity. }
  destruct Hu as [Hw Hq].
  intros Hrun.
  destruct (run_cursor X evs (mk_system u1 (sys_l s) (sys_thread s) (sys_log s ++ eff1)) s')
    as (delta & Hl & Ha & _); [simpl; rewrite Hw; unfold in_u64; cbv; split; congruence
                              | exact Hk | exact Hrun |].
  exists eff1, delta. simpl in Hl, Ha.
  split; [rewrite Hl; symmetry; apply app_assoc |]. split; [exact Hq |].
  rewrite Ha, Hw. reflexivity.
Qed.

(** ** Leaving Running for Idle *)

Lemma rounds_while_not_running (rounds : list iter_env) (s : system) :
  thread_info_state (sink (sys_u s)) <> PA_SINK_RUNNING ->
  exists s' delta,
    run X s (map Ev_round rounds) = Ok s'
    /\ untouched (sys_u s) (sys_u s')
    /\ sys_log s' = sys_log s ++ delta
    /\ forallb not_audio delta = true.
Proof.
  revert s. induction rounds as [| e rounds IH]; intros s Hrun.
  - exists s, []. simpl. split; [reflexivity |]. split; [apply untouched_refl |].
    split; [symmetry; apply app_nil_r | reflexivity].
  - assert (Hone : exists s1 d1,
               step X s (Ev_round e) = Ok s1
               /\ untouched (sys_u s) (sys_u s1)
               /\ sys_log s1 = sys_log s ++ d1
               /\ forallb not_audio d1 = true).
    { simpl. destruct (sys_thread s).
      - pose proof (round_not_running_completes X (sys_u s) (sys_l s) e Hrun) as Hc.
        assert (Hlog : forallb not_audio
                         (round_log (thread_func_round X (sys_u s) (sys_l s) e)) = true).
        { apply round_log_forallb; try reflexivity; try (intros Hr; contradiction).
          intros _ _ ev. destruct ev; simpl; intros H; try reflexivity; discriminate H. }
        assert (Hst : forall u' l',
                   round_state (thread_func_round X (sys_u s) (sys_l s) e) = Some (u', l') ->
                   untouched (sys_u s) u').
        { intros u' l' E.
          destruct (round_paths X _ _ _ _ _ E) as [H | (u3 & l3 & Hr & _)];
            [exact H | contradiction]. }
        destruct (thread_func_round X (sys_u s) (sys_l s) e) as [u' l' eff | u' l' eff | u' l' eff | f];
          simpl in Hc, Hlog, Hst; [| | | exfalso; apply Hc; reflexivity].
        + eexists; eexists. split; [reflexivity |]. simpl.
          split; [apply (Hst u' l' eq_refl) |]. split; [reflexivity | exact Hlog].
        + eexists; eexists. split; [reflexivity |]. simpl.
          split; [apply (Hst u' l' eq_refl) |]. split; [reflexivity |].
          rewrite forallb_app, Hlog. reflexivity.
        + eexists; eexists. split; [reflexivity |]. simpl.
          split; [apply (Hst u' l' eq_refl) |]. split; [reflexivity | exact Hlog].
      - exists s, []. split; [reflexivity |]. split; [apply untouched_refl |].
        split; [symmetry; apply app_nil_r | reflexivity].
      - exists s, []. split; [reflexivity |]. split; [apply untouched_refl |].
        split; [symmetry; apply app_nil_r | reflexivity]. }
    destruct Hone as (s1 & d1 & Hs & Hu1 & Hl1 & Hq1).
    assert (Hrun1 : thread_info_state (sink (sys_u s1)) <> PA_SINK_RUNNING).
    { destruct Hu1 as [[Hsk _] _]. rewrite Hsk. exact Hrun. }
    destruct (IH s1 Hrun1) as (s' & d2 & Hr & Hu2 & Hl2 & Hq2).
    exists s', (d1 ++ d2). cbn [map run]. rewrite Hs.
    split; [exact Hr |]. split; [eapply untouched_trans; eassumption |].
    split; [rewrite Hl2, Hl1; symmetry; apply app_assoc |].
    rewrite forallb_app, Hq1, Hq2. reflexivity.
Qed.

(** X22. When a running sink becomes idle the client is told to flush and
    the timer is disabled; after that, however many rounds the I/O thread
    runs, none fails an assertion, nothing is rendered, sent or dropped,
    the timer stays disabled, and the buffered chunk, the cursor and the
    smoother stay as they were when the sink left Running. *)
Theorem idle_sink_stays_quiet (s : system) (e : msg_env) (rounds : list iter_env) :
  thread_info_state (sink (sys_u s)) = PA_SINK_RUNNING ->
  exists s' delta,
    run X s (Ev_set_state PA_SINK_IDLE e :: map Ev_round rounds) = Ok s'
    /\ sys_log s' = sys_log s ++ E_client_flush :: delta
    /\ forallb not_audio delta = true
    /\ thread_info_state (sink (sys_u s')) = PA_SINK_IDLE
    /\ rtpoll_timer (sys_u s') = None
    /\ memchunk (sys_u s') = memchunk (sys_u s)
    /\ write_count (sys_u s') = write_count (sys_u s)
    /\ smoother (sys_u s') = smoother (sys_u s).
Proof.
  intros Hrun. cbn [run step]. unfold sink_set_state_in_io_thread_cb.
  rewrite Hrun. cbn [sink_state_eqb].
  match goal with
  | |- context [run X ?s1 _] =>
      destruct (rounds_while_not_running rounds s1) as (s' & delta & Hr & Hu & Hl & Hq);
        [simpl; discriminate |]
  end.
  exists s', delta. split; [exact Hr |].
  destruct Hu as ((Hsk & _) & Ht & Hm & Hs & Hw). simpl in *.
  split; [rewrite Hl, <- app_assoc; reflexivity |]. split; [exact Hq |].
  rewrite Hsk, Ht, Hm, Hs, Hw. repeat split.
Qed.

End Scenarios.

(** ** The theorems at concrete inputs *)

Import Scenario.

Lemma scan_services_every_descriptor_witness :
  let r := oob_scan true (List.length fds_clean) [oi_timing] 0 fds_clean locals_init in
  snd r = false
  /\ forallb serviced (fst (fst (fst r))) = true
  /\ map fd (fst (fst (fst r))) = map fd fds_clean
  /\ map events (fst (fst (fst r))) = map events fds_clean
  /\ forallb not_disconnect_request (snd (fst r)) = true.
Proof.
  apply (scan_services_every_descriptor true [oi_timing] fds_clean locals_init).
  reflexivity.
Defined.

Lemma recovered_error_skips_last_descriptor_witness :
  let all := [fd_error; fd_pending] in
  let r := oob_scan true (List.length all) [oi_timing] 0 all locals_init in
  nth 1 (fst (fst (fst r))) fd_error = nth 1 all fd_error
  /\ hd E_sink_process_rewind (snd (fst r)) = E_post_disconnect_request.
Proof.
  apply (recovered_error_skips_last_descriptor oi_timing [] fd_error fd_pending []
           locals_init fd_error); reflexivity.
Defined.

Lemma autoreconnect_round_fails_only_at_poll_witness :
  ie_poll_ret round_poll_error < 0
  \/ (oob u_udp = true /\ ie_on_timeout round_poll_error = false
      /\ exists fds0,
           rtpoll_item u_udp = Some fds0
           /\ existsb has_pollerr (poll_revents fds0 (ie_revents round_poll_error)) = true).
Proof.
  eapply (autoreconnect_round_fails_only_at_poll X0 u_udp _ locals_init _ round_poll_error _);
    reflexivity.
Defined.

Lemma warning_level_stays_in_range_witness :
  exists s',
    run X0 s_boot failing_run = Ok s'
    /\ level_in_range (sys_l s') /\ forallb warning_numbered (sys_log s') = true.
Proof.
  assert (Hb : boot X0 ma0 ne0 0 = Some s_boot) by reflexivity.
  destruct (run X0 s_boot failing_run) as [s' | f] eqn:E;
    [| vm_compute in E; discriminate].
  exists s'. split; [reflexivity |].
  exact (warning_level_stays_in_range X0 ma0 ne0 0 s_boot s' failing_run Hb E).
Defined.

Lemma thread_asks_for_unload_once_witness :
  exists s',
    run X0 s_boot failing_run = Ok s'
    /\ sys_thread s' = Failed
    /\ unload_posts (sys_log s') = 1%nat.
Proof.
  assert (Hb : boot X0 ma0 ne0 0 = Some s_boot) by reflexivity.
  destruct (run X0 s_boot failing_run) as [s' | f] eqn:E;
    [| vm_compute in E; discriminate].
  exists s'.
  pose proof (thread_asks_for_unload_once X0 ma0 ne0 0 s_boot s' failing_run Hb E) as H.
  assert (Ht : sys_thread s' = Failed).
  { vm_compute in E. injection E as E. rewrite <- E. reflexivity. }
  split; [reflexivity |]. split; [exact Ht |]. rewrite Ht in H. exact H.
Defined.

Lemma userdata_free_releases_once_witness :
  release_count R_thread_mq_done (userdata_free (sys_u s_boot) p_early) = 1%nat
  /\ exists_for (sys_u s_boot) p_early R_thread_mq_done = false
  /\ release_count R_sink_unref (userdata_free (sys_u s_boot) p_early) = 0%nat
  /\ released R_thread_free (userdata_free u_udp p_full) = true
  /\ forallb harmless_before_join (before_thread_free (userdata_free u_udp p_full)) = true.
Proof.
  destruct (userdata_free_releases_once (sys_u s_boot) p_early R_thread_mq_done) as [H1 _].
  destruct (userdata_free_releases_once (sys_u s_boot) p_early R_sink_unref) as [H2 _].
  destruct (userdata_free_releases_once u_udp p_full R_thread_free) as [_ H3].
  split; [exact H1 |]. split; [reflexivity |]. split; [exact H2 |].
  apply H3. reflexivity.
Defined.

Lemma muted_sink_pushes_only_mute_witness :
  exists s' delta,
    step X0 s_tcp (Ev_set_mute true) = Ok s'
    /\ sys_log s' = sys_log s_tcp ++ delta
    /\ forallb mute_or_no_volume delta = true.
Proof.
  destruct (step X0 s_tcp (Ev_set_mute true)) as [s' | f] eqn:E;
    [| vm_compute in E; discriminate].
  assert (Hm : muted (sink (sys_u s')) = true).
  { vm_compute in E. injection E as E. rewrite <- E. reflexivity. }
  destruct (muted_sink_pushes_only_mute X0 s_tcp s' (Ev_set_mute true) E Hm)
    as (delta & Hl & Hq).
  exists s', delta. split; [reflexivity |]. split; assumption.
Defined.

Lemma sink_new_checks_arguments_witness :
  exists u eff,
    pa_raop_sink_new X0 ma0 ne0 = Some (u, eff)
    /\ protocol u = PA_RAOP_PROTOCOL_UDP
    /\ rtpoll_item u = None
    /\ autonull u = autoreconnect u
    /\ exists before, eff = before ++ [E_client_authenticate].
Proof.
  destruct (pa_raop_sink_new X0 ma0 ne0) as [[u eff] |] eqn:E;
    [| vm_compute in E; discriminate].
  destruct (sink_new_checks_arguments X0 ma0 ne0 u eff E)
    as (_ & Hp & _ & _ & _ & Hn & _ & _ & Hi & _ & _ & _ & _ & _ & _ & _ & He).
  exists u, eff. split; [reflexivity |].
  split; [| split; [exact Hi | split; [exact Hn | exact He]]].
  destruct Hp as [[Hp _] | [_ Hp]]; [vm_compute in Hp; discriminate | exact Hp].
Defined.

Lemma entering_running_witness :
  exists u' eff,
    sink_set_state_in_io_thread_cb u_idle PA_SINK_RUNNING e_down = Ok (u', eff)
    /\ smoother u' = pa_smoother_reset (smoother u_idle) (me_now e_down)
    /\ eff = [E_client_announce].
Proof.
  assert (Hn : thread_info_state (sink u_idle) <> PA_SINK_RUNNING) by discriminate.
  destruct (entering_running u_idle e_down Hn) as (u' & eff & H1 & H2 & H3 & _).
  exists u', eff. split; [exact H1 |]. split; [exact H2 | exact H3].
Defined.

Lemma cursor_counts_since_recording_witness :
  exists s' d0 delta,
    run X0 s_tcp
      (Ev_message (PA_SINK_MESSAGE_SET_RAOP_STATE PA_RAOP_RECORDING) e_up :: stream_rounds)
      = Ok s'
    /\ sys_log s' = sys_log s_tcp ++ d0 ++ delta
    /\ forallb not_audio d0 = true
    /\ write_count (sys_u s') = u64 (accepted_bytes delta + discarded_bytes delta).
Proof.
  assert (Hk : forallb keeps_cursor stream_rounds = true) by reflexivity.
  destruct (run X0 s_tcp
              (Ev_message (PA_SINK_MESSAGE_SET_RAOP_STATE PA_RAOP_RECORDING) e_up
                 :: stream_rounds)) as [s' | f] eqn:E;
    [| vm_compute in E; discriminate].
  destruct (cursor_counts_since_recording X0 s_tcp s' e_up stream_rounds Hk E)
    as (d0 & delta & H).
  exists s', d0, delta. split; [reflexivity | exact H].
Defined.

Lemma idle_sink_stays_quiet_witness :
  exists s' delta,
    run X0 s_tcp (Ev_set_state PA_SINK_IDLE e_up :: map Ev_round [round_send_all; round_poll_error])
      = Ok s'
    /\ sys_log s' = sys_log s_tcp ++ E_client_flush :: delta
    /\ forallb not_audio delta = true
    /\ rtpoll_timer (sys_u s') = None.
Proof.
  assert (Hr : thread_info_state (sink (sys_u s_tcp)) = PA_SINK_RUNNING) by reflexivity.
  destruct (idle_sink_stays_quiet X0 s_tcp e_up [round_send_all; round_poll_error] Hr)
    as (s' & delta & H1 & H2 & H3 & _ & H4 & _).
  exists s', delta. repeat split; assumption.
Defined.
